(** * Shipping-report reconciliation: SKU matching, box roll-up, totals, invoice history

    The development embeds the reconciliation code of the React front end
    ([normalizeSku], [recalculateItems], [totals], [defaultBoxConfig]), the
    editing of its product master and its history, and the handlers of the
    Express back end as executable definitions, and proves the properties
    stated for them. *)

From Stdlib Require Import NArith ZArith QArith Qcanon Qround Qabs Qpower Qreduction.
From Stdlib Require Import String Ascii List Lia Lqa Bool.
From Stdlib Require Import DecimalString.
From stdpp Require Import base gmap strings list numbers.

Local Open Scope N_scope.


(** ** JavaScript data *)

Module JS.

(** A string is the sequence of its Unicode code points (the view ECMA-262
    takes in [StringToCodePoints]; an unpaired surrogate is a code point of
    its own).  All characters the program names are in the Basic
    Multilingual Plane, where code points and UTF-16 code units coincide. *)
Definition jsstring : Type := list N.

(** An ASCII literal. *)
Definition lit (s : string) : jsstring :=
  map N_of_ascii (list_ascii_of_string s).

(** *** Numbers

    A number is an IEEE 754 double: a finite number (the rational it
    denotes), the negative zero, an infinity or [NaN].  The result of an
    operation is the exact result rounded to the nearest double, a tie going
    to the double whose last bit is 0. *)

(** The integer [e] with [2^e <= x < 2^(e+1)], for a positive [x]. *)
Definition Qlog2 (x : Q) : Z :=
  if Qle_bool 1 x then Z.log2 (Qfloor x) else (- Z.log2_up (Qceiling (/ x)))%Z.

(** The nearest integer, a tie going to the even one. *)
Definition rne (x : Q) : Z :=
  let f := Qfloor x in
  match Qcompare (x - inject_Z f) (1 # 2) with
  | Lt => f
  | Gt => (f + 1)%Z
  | Eq => if Z.even f then f else (f + 1)%Z
  end.

(** The doubles around [x] are the multiples of [2 ^ ulp_exponent x]: 53
    bits from the leading one, and multiples of [2^-1074] below [2^-1022]. *)
Definition ulp_exponent (x : Q) : Z := (Z.max (Qlog2 (Qabs x)) (-1022) - 52)%Z.

(** [x] rounded to 53 bits, as a fraction in lowest terms. *)
Definition nearest (x : Q) : Q :=
  Qred (inject_Z (rne (x / 2 ^ ulp_exponent x)) * 2 ^ ulp_exponent x).

Definition Qsame (a b : Q) : bool :=
  (Qnum a =? Qnum b)%Z && (Qden a =? Qden b)%positive.

(** The fractions that are doubles: in lowest terms, left as they are by
    rounding, and below [2^1024]. *)
Definition double (q : Q) : bool :=
  Qsame (nearest q) q && negb (Qle_bool (2 ^ 1024) (Qabs q)).

Inductive number : Type :=
  | Fin (q : Q) (is_double : double q = true)   (* also the positive zero *)
  | NegZero
  | Inf (negative : bool)
  | NaN.

(** The double [v]; the second case is never taken for a [v] that comes out
    of [nearest] (see [nearest_double] below). *)
Definition finite_if (v : Q) (b : bool) : double v = b -> number :=
  if b return (double v = b -> number) then fun H => Fin v H else fun _ => NaN.

Definition finite (v : Q) : number := finite_if v (double v) eq_refl.

(** The double nearest to the exact result [x]: an infinity from [2^1024]
    on, and a zero with the sign of [x] when [x] rounds to 0. *)
Definition round (x : Q) : number :=
  let v := nearest x in
  if Qle_bool (2 ^ 1024) (Qabs v) then Inf (Qnum x <? 0)%Z
  else if (Qnum v =? 0)%Z && (Qnum x <? 0)%Z then NegZero
  else finite v.

(** A whole number written in the program or read from the clock. *)
Definition ofZ (z : Z) : number := round (inject_Z z).

Definition zero (n : number) : bool :=
  match n with
  | Fin q _ => (Qnum q =? 0)%Z
  | NegZero => true
  | _ => false
  end.

Definition negative (n : number) : bool :=
  match n with
  | Fin q _ => (Qnum q <? 0)%Z
  | NegZero => true
  | Inf s => s
  | NaN => false
  end.

Definition signed_zero (s : bool) : number := if s then NegZero else ofZ 0.

(** [a + b]. *)
Definition num_add (a b : number) : number :=
  match a, b with
  | NaN, _ | _, NaN => NaN
  | Inf s, Inf t => if Bool.eqb s t then a else NaN
  | Inf _, _ => a
  | _, Inf _ => b
  | NegZero, _ => b
  | _, NegZero => a
  | Fin x _, Fin y _ => round (x + y)
  end.

(** [a * b]. *)
Definition num_mul (a b : number) : number :=
  match a, b with
  | NaN, _ | _, NaN => NaN
  | Fin x _, Fin y _ =>
      if zero a || zero b then signed_zero (xorb (negative a) (negative b))
      else round (x * y)
  | Inf _, _ | _, Inf _ =>
      if zero a || zero b then NaN else Inf (xorb (negative a) (negative b))
  | _, _ => signed_zero (xorb (negative a) (negative b))
  end.

(** [a / b]. *)
Definition num_div (a b : number) : number :=
  match a, b with
  | NaN, _ | _, NaN => NaN
  | Inf _, Inf _ => NaN
  | Inf _, _ => Inf (xorb (negative a) (negative b))
  | _, Inf _ => signed_zero (xorb (negative a) (negative b))
  | Fin x _, Fin y _ =>
      if zero b then (if zero a then NaN else Inf (xorb (negative a) (negative b)))
      else if zero a then signed_zero (xorb (negative a) (negative b))
      else round (x / y)
  | _, _ =>
      if zero b then (if zero a then NaN else Inf (xorb (negative a) (negative b)))
      else signed_zero (xorb (negative a) (negative b))
  end.

(** [Math.ceil]: the ceiling of a number between -1 and 0 is the negative
    zero. *)
Definition Math_ceil (a : number) : number :=
  match a with
  | Fin q _ =>
      if (Qceiling q =? 0)%Z then signed_zero (Qnum q <? 0)%Z else ofZ (Qceiling q)
  | _ => a
  end.

(** [a === b] on numbers: the two zeros are equal, [NaN] is equal to
    nothing. *)
Definition num_eqb (a b : number) : bool :=
  match a, b with
  | Fin x _, Fin y _ => Qsame x y
  | Fin x _, NegZero | NegZero, Fin x _ => (Qnum x =? 0)%Z
  | NegZero, NegZero => true
  | Inf s, Inf t => Bool.eqb s t
  | _, _ => false
  end.

(** The values a JSON line item or a report row holds. *)
Inductive jsval : Type :=
  | VUndefined
  | VNull
  | VNum (n : number)
  | VStr (s : jsstring).

(** An object is a finite map from property names to values; reading a
    property that is not there gives [undefined]. *)
Abbreviation obj := (gmap string jsval).

Definition get (o : obj) (k : string) : jsval :=
  match o !! k with
  | Some v => v
  | None => VUndefined
  end.

(** [ToBoolean]: what [!x] and [x || y] test.  The zeros and [NaN] are
    false, every other number is true. *)
Definition truthy_num (n : number) : bool :=
  match n with
  | Fin q _ => negb (Qnum q =? 0)%Z
  | NegZero => false
  | Inf _ => true
  | NaN => false
  end.

Definition truthy (v : jsval) : bool :=
  match v with
  | VUndefined | VNull => false
  | VNum n => truthy_num n
  | VStr [] => false
  | VStr (_ :: _) => true
  end.

(** The two conversions between text and numbers are built into the
    engine; the program is read against any implementation of them. *)
Class Runtime : Type := {
  StringToNumber : jsstring -> number;
  NumberToString : number -> jsstring
}.

Section Coercions.
Context {RT : Runtime}.

Definition ToNumber (v : jsval) : number :=
  match v with
  | VUndefined => NaN
  | VNull => ofZ 0
  | VNum n => n
  | VStr s => StringToNumber s
  end.

Definition ToString (v : jsval) : jsstring :=
  match v with
  | VUndefined => lit "undefined"
  | VNull => lit "null"
  | VNum n => NumberToString n
  | VStr s => s
  end.

(** The binary [+]: concatenation as soon as one operand is a string. *)
Definition js_add (a b : jsval) : jsval :=
  match a, b with
  | VStr _, _ | _, VStr _ => VStr (ToString a ++ ToString b)
  | _, _ => VNum (num_add (ToNumber a) (ToNumber b))
  end.

(** The binary [/] and [*]: both operands go through [ToNumber]. *)
Definition js_div (a b : jsval) : number := num_div (ToNumber a) (ToNumber b).
Definition js_mul (a b : jsval) : number := num_mul (ToNumber a) (ToNumber b).
End Coercions.

(** Completion of a call: a value, or a thrown exception. *)
Inductive exn : Type := TypeError.

Inductive result (A : Type) : Type :=
  | Ok (a : A)
  | Throw (e : exn).
Arguments Ok {A} a.
Arguments Throw {A} e.

Definition bind {A B} (m : result A) (k : A -> result B) : result B :=
  match m with
  | Ok a => k a
  | Throw e => Throw e
  end.

#[global] Instance result_mbind : MBind result := fun A B k m => bind m k.

(** [Array.prototype.map] with a callback that may throw: the first
    exception aborts the whole call. *)
Fixpoint array_map {A B} (f : A -> result B) (l : list A) : result (list B) :=
  match l with
  | [] => Ok []
  | x :: l' =>
      y ← f x; ys ← array_map f l'; Ok (y :: ys)
  end.

(** [Array.prototype.find], likewise. *)
Fixpoint array_find {A} (f : A -> result bool) (l : list A) : result (option A) :=
  match l with
  | [] => Ok None
  | x :: l' => b ← f x; if b : bool then Ok (Some x) else array_find f l'
  end.

End JS.

(** ** [String.prototype.toUpperCase] and global replacement *)

Module Unicode.
Import JS.

(** The locale-independent upper-case mapping of Unicode 14.0
    (UnicodeData.txt and the unconditional entries of SpecialCasing.txt).
    Simple mappings are kept as arithmetic runs [(first, last, step,
    image of first)]: the code points [first, first + step, ..., last] map
    to [image, image + step, ...]. *)
Definition simpleCaseRanges : list (N * N * N * N) :=
  [(0x61, 0x7A, 1, 0x41); (0xB5, 0xB5, 1, 0x39C); (0xE0, 0xF6, 1, 0xC0);
   (0xF8, 0xFE, 1, 0xD8); (0xFF, 0xFF, 1, 0x178); (0x101, 0x12F, 2, 0x100);
   (0x131, 0x131, 1, 0x49); (0x133, 0x137, 2, 0x132); (0x13A, 0x148, 2, 0x139);
   (0x14B, 0x177, 2, 0x14A); (0x17A, 0x17E, 2, 0x179); (0x17F, 0x17F, 1, 0x53);
   (0x180, 0x180, 1, 0x243); (0x183, 0x185, 2, 0x182); (0x188, 0x188, 1, 0x187);
   (0x18C, 0x18C, 1, 0x18B); (0x192, 0x192, 1, 0x191); (0x195, 0x195, 1, 0x1F6);
   (0x199, 0x199, 1, 0x198); (0x19A, 0x19A, 1, 0x23D); (0x19E, 0x19E, 1, 0x220);
   (0x1A1, 0x1A5, 2, 0x1A0); (0x1A8, 0x1A8, 1, 0x1A7); (0x1AD, 0x1AD, 1, 0x1AC);
   (0x1B0, 0x1B0, 1, 0x1AF); (0x1B4, 0x1B6, 2, 0x1B3); (0x1B9, 0x1B9, 1, 0x1B8);
   (0x1BD, 0x1BD, 1, 0x1BC); (0x1BF, 0x1BF, 1, 0x1F7); (0x1C5, 0x1C5, 1, 0x1C4);
   (0x1C6, 0x1C6, 1, 0x1C4); (0x1C8, 0x1C8, 1, 0x1C7); (0x1C9, 0x1C9, 1, 0x1C7);
   (0x1CB, 0x1CB, 1, 0x1CA); (0x1CC, 0x1CC, 1, 0x1CA); (0x1CE, 0x1DC, 2, 0x1CD);
   (0x1DD, 0x1DD, 1, 0x18E); (0x1DF, 0x1EF, 2, 0x1DE); (0x1F2, 0x1F2, 1, 0x1F1);
   (0x1F3, 0x1F3, 1, 0x1F1); (0x1F5, 0x1F5, 1, 0x1F4); (0x1F9, 0x21F, 2, 0x1F8);
   (0x223, 0x233, 2, 0x222); (0x23C, 0x23C, 1, 0x23B); (0x23F, 0x240, 1, 0x2C7E);
   (0x242, 0x242, 1, 0x241); (0x247, 0x24F, 2, 0x246); (0x250, 0x250, 1, 0x2C6F);
   (0x251, 0x251, 1, 0x2C6D); (0x252, 0x252, 1, 0x2C70); (0x253, 0x253, 1, 0x181);
   (0x254, 0x254, 1, 0x186); (0x256, 0x257, 1, 0x189); (0x259, 0x259, 1, 0x18F);
   (0x25B, 0x25B, 1, 0x190); (0x25C, 0x25C, 1, 0xA7AB); (0x260, 0x260, 1, 0x193);
   (0x261, 0x261, 1, 0xA7AC); (0x263, 0x263, 1, 0x194); (0x265, 0x265, 1, 0xA78D);
   (0x266, 0x266, 1, 0xA7AA); (0x268, 0x268, 1, 0x197); (0x269, 0x269, 1, 0x196);
   (0x26A, 0x26A, 1, 0xA7AE); (0x26B, 0x26B, 1, 0x2C62); (0x26C, 0x26C, 1, 0xA7AD);
   (0x26F, 0x26F, 1, 0x19C); (0x271, 0x271, 1, 0x2C6E); (0x272, 0x272, 1, 0x19D);
   (0x275, 0x275, 1, 0x19F); (0x27D, 0x27D, 1, 0x2C64); (0x280, 0x280, 1, 0x1A6);
   (0x282, 0x282, 1, 0xA7C5); (0x283, 0x283, 1, 0x1A9); (0x287, 0x287, 1, 0xA7B1);
   (0x288, 0x288, 1, 0x1AE); (0x289, 0x289, 1, 0x244); (0x28A, 0x28B, 1, 0x1B1);
   (0x28C, 0x28C, 1, 0x245); (0x292, 0x292, 1, 0x1B7); (0x29D, 0x29D, 1, 0xA7B2);
   (0x29E, 0x29E, 1, 0xA7B0); (0x345, 0x345, 1, 0x399); (0x371, 0x373, 2, 0x370);
   (0x377, 0x377, 1, 0x376); (0x37B, 0x37D, 1, 0x3FD); (0x3AC, 0x3AC, 1, 0x386);
   (0x3AD, 0x3AF, 1, 0x388); (0x3B1, 0x3C1, 1, 0x391); (0x3C2, 0x3C2, 1, 0x3A3);
   (0x3C3, 0x3CB, 1, 0x3A3); (0x3CC, 0x3CC, 1, 0x38C); (0x3CD, 0x3CE, 1, 0x38E);
   (0x3D0, 0x3D0, 1, 0x392); (0x3D1, 0x3D1, 1, 0x398); (0x3D5, 0x3D5, 1, 0x3A6);
   (0x3D6, 0x3D6, 1, 0x3A0); (0x3D7, 0x3D7, 1, 0x3CF); (0x3D9, 0x3EF, 2, 0x3D8);
   (0x3F0, 0x3F0, 1, 0x39A); (0x3F1, 0x3F1, 1, 0x3A1); (0x3F2, 0x3F2, 1, 0x3F9);
   (0x3F3, 0x3F3, 1, 0x37F); (0x3F5, 0x3F5, 1, 0x395); (0x3F8, 0x3F8, 1, 0x3F7);
   (0x3FB, 0x3FB, 1, 0x3FA); (0x430, 0x44F, 1, 0x410); (0x450, 0x45F, 1, 0x400);
   (0x461, 0x481, 2, 0x460); (0x48B, 0x4BF, 2, 0x48A); (0x4C2, 0x4CE, 2, 0x4C1);
   (0x4CF, 0x4CF, 1, 0x4C0); (0x4D1, 0x52F, 2, 0x4D0); (0x561, 0x586, 1, 0x531);
   (0x10D0, 0x10FA, 1, 0x1C90); (0x10FD, 0x10FF, 1, 0x1CBD); (0x13F8, 0x13FD, 1, 0x13F0);
   (0x1C80, 0x1C80, 1, 0x412); (0x1C81, 0x1C81, 1, 0x414); (0x1C82, 0x1C82, 1, 0x41E);
   (0x1C83, 0x1C84, 1, 0x421); (0x1C85, 0x1C85, 1, 0x422); (0x1C86, 0x1C86, 1, 0x42A);
   (0x1C87, 0x1C87, 1, 0x462); (0x1C88, 0x1C88, 1, 0xA64A); (0x1D79, 0x1D79, 1, 0xA77D);
   (0x1D7D, 0x1D7D, 1, 0x2C63); (0x1D8E, 0x1D8E, 1, 0xA7C6); (0x1E01, 0x1E95, 2, 0x1E00);
   (0x1E9B, 0x1E9B, 1, 0x1E60); (0x1EA1, 0x1EFF, 2, 0x1EA0); (0x1F00, 0x1F07, 1, 0x1F08);
   (0x1F10, 0x1F15, 1, 0x1F18); (0x1F20, 0x1F27, 1, 0x1F28); (0x1F30, 0x1F37, 1, 0x1F38);
   (0x1F40, 0x1F45, 1, 0x1F48); (0x1F51, 0x1F57, 2, 0x1F59); (0x1F60, 0x1F67, 1, 0x1F68);
   (0x1F70, 0x1F71, 1, 0x1FBA); (0x1F72, 0x1F75, 1, 0x1FC8); (0x1F76, 0x1F77, 1, 0x1FDA);
   (0x1F78, 0x1F79, 1, 0x1FF8); (0x1F7A, 0x1F7B, 1, 0x1FEA); (0x1F7C, 0x1F7D, 1, 0x1FFA);
   (0x1FB0, 0x1FB1, 1, 0x1FB8); (0x1FBE, 0x1FBE, 1, 0x399); (0x1FD0, 0x1FD1, 1, 0x1FD8);
   (0x1FE0, 0x1FE1, 1, 0x1FE8); (0x1FE5, 0x1FE5, 1, 0x1FEC); (0x214E, 0x214E, 1, 0x2132);
   (0x2170, 0x217F, 1, 0x2160); (0x2184, 0x2184, 1, 0x2183); (0x24D0, 0x24E9, 1, 0x24B6);
   (0x2C30, 0x2C5F, 1, 0x2C00); (0x2C61, 0x2C61, 1, 0x2C60); (0x2C65, 0x2C65, 1, 0x23A);
   (0x2C66, 0x2C66, 1, 0x23E); (0x2C68, 0x2C6C, 2, 0x2C67); (0x2C73, 0x2C73, 1, 0x2C72);
   (0x2C76, 0x2C76, 1, 0x2C75); (0x2C81, 0x2CE3, 2, 0x2C80); (0x2CEC, 0x2CEE, 2, 0x2CEB);
   (0x2CF3, 0x2CF3, 1, 0x2CF2); (0x2D00, 0x2D25, 1, 0x10A0); (0x2D27, 0x2D27, 1, 0x10C7);
   (0x2D2D, 0x2D2D, 1, 0x10CD); (0xA641, 0xA66D, 2, 0xA640); (0xA681, 0xA69B, 2, 0xA680);
   (0xA723, 0xA72F, 2, 0xA722); (0xA733, 0xA76F, 2, 0xA732); (0xA77A, 0xA77C, 2, 0xA779);
   (0xA77F, 0xA787, 2, 0xA77E); (0xA78C, 0xA78C, 1, 0xA78B); (0xA791, 0xA793, 2, 0xA790);
   (0xA794, 0xA794, 1, 0xA7C4); (0xA797, 0xA7A9, 2, 0xA796); (0xA7B5, 0xA7C3, 2, 0xA7B4);
   (0xA7C8, 0xA7CA, 2, 0xA7C7); (0xA7D1, 0xA7D1, 1, 0xA7D0); (0xA7D7, 0xA7D9, 2, 0xA7D6);
   (0xA7F6, 0xA7F6, 1, 0xA7F5); (0xAB53, 0xAB53, 1, 0xA7B3); (0xAB70, 0xABBF, 1, 0x13A0);
   (0xFF41, 0xFF5A, 1, 0xFF21); (0x10428, 0x1044F, 1, 0x10400);
   (0x104D8, 0x104FB, 1, 0x104B0); (0x10597, 0x105A1, 1, 0x10570);
   (0x105A3, 0x105B1, 1, 0x1057C); (0x105B3, 0x105B9, 1, 0x1058C);
   (0x105BB, 0x105BC, 1, 0x10594); (0x10CC0, 0x10CF2, 1, 0x10C80);
   (0x118C0, 0x118DF, 1, 0x118A0); (0x16E60, 0x16E7F, 1, 0x16E40);
   (0x1E922, 0x1E943, 1, 0x1E900)]%N.

Definition specialCasing : list (N * list N) :=
  [(0xDF, [0x53; 0x53]); (0x149, [0x2BC; 0x4E]); (0x1F0, [0x4A; 0x30C]);
   (0x390, [0x399; 0x308; 0x301]); (0x3B0, [0x3A5; 0x308; 0x301]); (0x587, [0x535; 0x552]);
   (0x1E96, [0x48; 0x331]); (0x1E97, [0x54; 0x308]); (0x1E98, [0x57; 0x30A]);
   (0x1E99, [0x59; 0x30A]); (0x1E9A, [0x41; 0x2BE]); (0x1F50, [0x3A5; 0x313]);
   (0x1F52, [0x3A5; 0x313; 0x300]); (0x1F54, [0x3A5; 0x313; 0x301]);
   (0x1F56, [0x3A5; 0x313; 0x342]); (0x1F80, [0x1F08; 0x399]); (0x1F81, [0x1F09; 0x399]);
   (0x1F82, [0x1F0A; 0x399]); (0x1F83, [0x1F0B; 0x399]); (0x1F84, [0x1F0C; 0x399]);
   (0x1F85, [0x1F0D; 0x399]); (0x1F86, [0x1F0E; 0x399]); (0x1F87, [0x1F0F; 0x399]);
   (0x1F88, [0x1F08; 0x399]); (0x1F89, [0x1F09; 0x399]); (0x1F8A, [0x1F0A; 0x399]);
   (0x1F8B, [0x1F0B; 0x399]); (0x1F8C, [0x1F0C; 0x399]); (0x1F8D, [0x1F0D; 0x399]);
   (0x1F8E, [0x1F0E; 0x399]); (0x1F8F, [0x1F0F; 0x399]); (0x1F90, [0x1F28; 0x399]);
   (0x1F91, [0x1F29; 0x399]); (0x1F92, [0x1F2A; 0x399]); (0x1F93, [0x1F2B; 0x399]);
   (0x1F94, [0x1F2C; 0x399]); (0x1F95, [0x1F2D; 0x399]); (0x1F96, [0x1F2E; 0x399]);
   (0x1F97, [0x1F2F; 0x399]); (0x1F98, [0x1F28; 0x399]); (0x1F99, [0x1F29; 0x399]);
   (0x1F9A, [0x1F2A; 0x399]); (0x1F9B, [0x1F2B; 0x399]); (0x1F9C, [0x1F2C; 0x399]);
   (0x1F9D, [0x1F2D; 0x399]); (0x1F9E, [0x1F2E; 0x399]); (0x1F9F, [0x1F2F; 0x399]);
   (0x1FA0, [0x1F68; 0x399]); (0x1FA1, [0x1F69; 0x399]); (0x1FA2, [0x1F6A; 0x399]);
   (0x1FA3, [0x1F6B; 0x399]); (0x1FA4, [0x1F6C; 0x399]); (0x1FA5, [0x1F6D; 0x399]);
   (0x1FA6, [0x1F6E; 0x399]); (0x1FA7, [0x1F6F; 0x399]); (0x1FA8, [0x1F68; 0x399]);
   (0x1FA9, [0x1F69; 0x399]); (0x1FAA, [0x1F6A; 0x399]); (0x1FAB, [0x1F6B; 0x399]);
   (0x1FAC, [0x1F6C; 0x399]); (0x1FAD, [0x1F6D; 0x399]); (0x1FAE, [0x1F6E; 0x399]);
   (0x1FAF, [0x1F6F; 0x399]); (0x1FB2, [0x1FBA; 0x399]); (0x1FB3, [0x391; 0x399]);
   (0x1FB4, [0x386; 0x399]); (0x1FB6, [0x391; 0x342]); (0x1FB7, [0x391; 0x342; 0x399]);
   (0x1FBC, [0x391; 0x399]); (0x1FC2, [0x1FCA; 0x399]); (0x1FC3, [0x397; 0x399]);
   (0x1FC4, [0x389; 0x399]); (0x1FC6, [0x397; 0x342]); (0x1FC7, [0x397; 0x342; 0x399]);
   (0x1FCC, [0x397; 0x399]); (0x1FD2, [0x399; 0x308; 0x300]);
   (0x1FD3, [0x399; 0x308; 0x301]); (0x1FD6, [0x399; 0x342]);
   (0x1FD7, [0x399; 0x308; 0x342]); (0x1FE2, [0x3A5; 0x308; 0x300]);
   (0x1FE3, [0x3A5; 0x308; 0x301]); (0x1FE4, [0x3A1; 0x313]); (0x1FE6, [0x3A5; 0x342]);
   (0x1FE7, [0x3A5; 0x308; 0x342]); (0x1FF2, [0x1FFA; 0x399]); (0x1FF3, [0x3A9; 0x399]);
   (0x1FF4, [0x38F; 0x399]); (0x1FF6, [0x3A9; 0x342]); (0x1FF7, [0x3A9; 0x342; 0x399]);
   (0x1FFC, [0x3A9; 0x399]); (0xFB00, [0x46; 0x46]); (0xFB01, [0x46; 0x49]);
   (0xFB02, [0x46; 0x4C]); (0xFB03, [0x46; 0x46; 0x49]); (0xFB04, [0x46; 0x46; 0x4C]);
   (0xFB05, [0x53; 0x54]); (0xFB06, [0x53; 0x54]); (0xFB13, [0x544; 0x546]);
   (0xFB14, [0x544; 0x535]); (0xFB15, [0x544; 0x53B]); (0xFB16, [0x54E; 0x546]);
   (0xFB17, [0x544; 0x53D])]%N.

Definition expandRange (r : N * N * N * N) : list (N * list N) :=
  let '(lo, hi, step, tlo) := r in
  map (fun k => (lo + N.of_nat k * step, [tlo + N.of_nat k * step]))
      (seq 0 (S (N.to_nat ((hi - lo) / step)))).

Definition caseTable : list (N * list N) :=
  specialCasing ++ flat_map expandRange simpleCaseRanges.

Fixpoint assoc (c : N) (t : list (N * list N)) : option (list N) :=
  match t with
  | [] => None
  | (k, u) :: t' => if k =? c then Some u else assoc c t'
  end.

(** Upper-case image of one code point; a code point without an entry is
    its own image. *)
Definition toUppercase (c : N) : list N :=
  match assoc c caseTable with
  | Some u => u
  | None => [c]
  end.

(** [s.toUpperCase()]: every code point is replaced by its image. *)
Definition toUpperCase (s : jsstring) : jsstring := flat_map toUppercase s.

(** In a closed table no code point of an image has an entry of its own. *)
Definition table_closed (t : list (N * list N)) : bool :=
  forallb (fun e => forallb (fun d => bool_decide (assoc d t = None)) (snd e)) t.

(** [s.replace(new RegExp(pat, 'g'), rep)] for a pattern made of literal
    characters only (no character of the substitution table is a regular
    expression metacharacter) and not empty: the occurrences of [pat] are
    found from left to right, without overlap, and each is replaced by
    [rep].  [skip] counts the characters of a matched occurrence still to be
    passed over. *)
Fixpoint startsWith (pat s : jsstring) : bool :=
  match pat, s with
  | [], _ => true
  | _ :: _, [] => false
  | p :: pat', c :: s' => (p =? c) && startsWith pat' s'
  end.

Fixpoint replace_from (pat rep : jsstring) (skip : nat) (s : jsstring) : jsstring :=
  match s with
  | [] => []
  | c :: t =>
      match skip with
      | S k => replace_from pat rep k t
      | O =>
          if startsWith pat s
          then rep ++ replace_from pat rep (length pat - 1) t
          else c :: replace_from pat rep 0 t
      end
  end.

Definition replace_g (pat rep s : jsstring) : jsstring := replace_from pat rep 0 s.

End Unicode.

(** ** The front end: product master, SKU matching, roll-up, totals *)

Module App.
Import JS Unicode.

(** Packaging data of one SKU.  The product form stores every numeric field
    through [parseInt(..) || 0] or [parseFloat(..) || 0], so a field holds a
    number when it is there; [None] is an absent (or null) field. *)
Record ProductConfig : Type := {
  name : option jsstring;
  hsn_code : option jsstring;
  pieces_per_box : option number;
  box_weight_kg : option number;
  box_length_cm : option number;
  box_width_cm : option number;
  box_height_cm : option number
}.

(** Reading a numeric field of a configuration. *)
Definition field (x : option number) : jsval :=
  match x with
  | Some n => VNum n
  | None => VUndefined
  end.

(** [a || b]. *)
Definition js_or (a b : jsval) : jsval := if truthy a then a else b.

Definition defaultBoxConfig : ProductConfig := {|
  name := None;
  hsn_code := None;
  pieces_per_box := Some (ofZ 48);
  box_weight_kg := Some (ofZ 5);
  box_length_cm := Some (ofZ 30);
  box_width_cm := Some (ofZ 25);
  box_height_cm := Some (ofZ 20)
|}.

(** The product master, as [Object.entries(productMaster)] lists it: its
    own properties, in the order the fuzzy scan visits them in.  It is an
    ordinary object (made by [JSON.parse] or by an object literal), so its
    prototype is [Object.prototype]. *)
Definition ProductMaster : Type := list (jsstring * ProductConfig).

(** The own property [k] of the master: the configuration stored under
    [k], if any. *)
Fixpoint master_get (productMaster : ProductMaster) (k : jsstring) : option ProductConfig :=
  match productMaster with
  | [] => None
  | (key, config) :: rest =>
      if decide (key = k) then Some config else master_get rest k
  end.

(** What reading the properties of a configuration gives on a value that
    has none of the numeric ones. *)
Definition noFields (name : option jsstring) : ProductConfig := {|
  name := name; hsn_code := None; pieces_per_box := None; box_weight_kg := None;
  box_length_cm := None; box_width_cm := None; box_height_cm := None
|}.

(** The properties every object inherits from [Object.prototype]: eleven
    functions, each with its [name], and [__proto__], which reads as
    [Object.prototype] itself.  All are truthy, and none has a numeric field
    of a configuration. *)
Definition objectPrototype : list (jsstring * ProductConfig) :=
  [ (lit "constructor", noFields (Some (lit "Object")));
    (lit "__defineGetter__", noFields (Some (lit "__defineGetter__")));
    (lit "__defineSetter__", noFields (Some (lit "__defineSetter__")));
    (lit "hasOwnProperty", noFields (Some (lit "hasOwnProperty")));
    (lit "__lookupGetter__", noFields (Some (lit "__lookupGetter__")));
    (lit "__lookupSetter__", noFields (Some (lit "__lookupSetter__")));
    (lit "isPrototypeOf", noFields (Some (lit "isPrototypeOf")));
    (lit "propertyIsEnumerable", noFields (Some (lit "propertyIsEnumerable")));
    (lit "toString", noFields (Some (lit "toString")));
    (lit "valueOf", noFields (Some (lit "valueOf")));
    (lit "__proto__", noFields None);
    (lit "toLocaleString", noFields (Some (lit "toLocaleString"))) ].

(** [productMaster[k]]: the own property [k], or else the inherited one. *)
Definition master_lookup (productMaster : ProductMaster) (k : jsstring)
  : option ProductConfig :=
  match master_get productMaster k with
  | Some config => Some config
  | None => master_get objectPrototype k
  end.

(** The substitution table of [normalizeSku], as the text of the component
    holds it: each key is two characters, a capital OE ligature (U+0152)
    followed by an accented letter or a sign. *)
Definition greekToEnglish : list (jsstring * jsstring) :=
  [ ([0x152; 0xEB], lit "A"); ([0x152; 0xED], lit "B"); ([0x152; 0xEF], lit "E");
    ([0x152; 0xF1], lit "Z"); ([0x152; 0xF3], lit "H"); ([0x152; 0xF4], lit "I");
    ([0x152; 0xF6], lit "K"); ([0x152; 0xFA], lit "M"); ([0x152; 0xF9], lit "N");
    ([0x152; 0xFC], lit "O"); ([0x152; 0xB0], lit "P"); ([0x152; 0xA7], lit "T");
    ([0x152; 0x2022], lit "Y"); ([0x152; 0xDF], lit "X") ].

(** The two characters of each key are what the UTF-8 bytes CE 91, CE 92,
    ... of a Greek capital give when they are read in the Mac Roman code
    page ("fix Greek characters that OCR sometimes produces").  This is the
    table with the bytes of the keys read as UTF-8: fourteen Greek capitals
    and the Latin capitals they look like. *)
Definition greekToEnglish_decoded : list (jsstring * jsstring) :=
  [ ([0x391], lit "A"); ([0x392], lit "B"); ([0x395], lit "E"); ([0x396], lit "Z");
    ([0x397], lit "H"); ([0x399], lit "I"); ([0x39A], lit "K"); ([0x39C], lit "M");
    ([0x39D], lit "N"); ([0x39F], lit "O"); ([0x3A1], lit "P"); ([0x3A4], lit "T");
    ([0x3A5], lit "Y"); ([0x3A7], lit "X") ].

(** The loop of [normalizeSku] over the entries of a table. *)
Definition substitute (table : list (jsstring * jsstring)) (s : jsstring) : jsstring :=
  fold_left (fun normalized '(greek, english) => replace_g greek english normalized)
            table s.

Definition normalizeSku_with (table : list (jsstring * jsstring)) (sku : jsval)
  : result jsstring :=
  if negb (truthy sku) then Ok []
  else match sku with
       | VStr s => Ok (substitute table (toUpperCase s))
       | _ => Throw TypeError   (* no [toUpperCase] method *)
       end.

Definition normalizeSku : jsval -> result jsstring := normalizeSku_with greekToEnglish.

Inductive MatchType : Type := Exact | Normalized | Fuzzy | Default.

Section Reconciliation.
Context {RT : Runtime}.

(** The matching part of the callback of [recalculateItems]: [sku] is
    [item.sku]. *)
Definition matchSku (productMaster : ProductMaster) (sku : jsval)
  : result (ProductConfig * MatchType) :=
  normalizedSku ← normalizeSku sku;
  let config := master_lookup productMaster (ToString sku) in
  let matchType := Exact in
  let '(config, matchType) :=
    match config with
    | None => (master_lookup productMaster normalizedSku, Normalized)
    | Some _ => (config, matchType)
    end in
  '(config, matchType) ←
    match config with
    | None =>
        found ← array_find
                  (fun '(key, _) =>
                     n ← normalizeSku (VStr key);
                     Ok (bool_decide (n = normalizedSku)))
                  productMaster;
        Ok (match found with
            | Some (_, c) => (Some c, Fuzzy)
            | None => (config, matchType)
            end)
    | Some _ => Ok (config, matchType)
    end;
  Ok (match config with
      | None => (defaultBoxConfig, Default)
      | Some c => (c, matchType)
      end).

(** The values the roll-up uses. *)
Definition piecesPerBox (config : ProductConfig) : jsval :=
  js_or (field (pieces_per_box config)) (field (pieces_per_box defaultBoxConfig)).

Definition boxWeight (config : ProductConfig) : jsval :=
  js_or (field (box_weight_kg config)) (field (box_weight_kg defaultBoxConfig)).

Definition boxLength (config : ProductConfig) : jsval :=
  js_or (field (box_length_cm config)) (field (box_length_cm defaultBoxConfig)).

Definition boxWidth (config : ProductConfig) : jsval :=
  js_or (field (box_width_cm config)) (field (box_width_cm defaultBoxConfig)).

Definition boxHeight (config : ProductConfig) : jsval :=
  js_or (field (box_height_cm config)) (field (box_height_cm defaultBoxConfig)).

(** The two characters that stand between the dimensions in the template
    literal of [box_dimensions], as the text of the component holds them: a
    square-root sign (U+221A) and an o with acute accent (U+00F3), which is
    how the UTF-8 bytes C3 97 of the multiplication sign read in the Mac
    Roman code page. *)
Definition dimensionSeparator : jsstring := [0x221A; 0xF3].

(** The template literal of [box_dimensions]. *)
Definition box_dimensions_of (config : ProductConfig) : jsstring :=
  ToString (boxLength config) ++ dimensionSeparator ++ ToString (boxWidth config)
    ++ dimensionSeparator ++ ToString (boxHeight config).

Definition numBoxes (config : ProductConfig) (item : obj) : number :=
  Math_ceil (js_div (get item "quantity") (piecesPerBox config)).

(** The object the callback returns: the properties of [item], then the
    five computed ones, a later property replacing an earlier one of the
    same name. *)
Definition enrich (config : ProductConfig) (item : obj) : obj :=
  <["total_weight" := VNum (js_mul (VNum (numBoxes config item)) (boxWeight config))]>
  (<["num_boxes" := VNum (numBoxes config item)]>
  (<["box_dimensions" := VStr (box_dimensions_of config)]>
  (<["box_weight_kg" := boxWeight config]>
  (<["pieces_per_box" := piecesPerBox config]> item)))).

Definition processItem (productMaster : ProductMaster) (item : obj) : result obj :=
  '(config, _) ← matchSku productMaster (get item "sku");
  Ok (enrich config item).

(** [recalculateItems(lineItems)]: [extractedLineItems] is
    [extractedData?.line_items] of the component state; the result is the
    new [processedItems]. *)
Definition recalculateItems (productMaster : ProductMaster)
    (extractedLineItems : option (list obj)) (lineItems : option (list obj))
  : result (list obj) :=
  let sourceItems :=
    match lineItems with
    | Some l => l
    | None => match extractedLineItems with Some l => l | None => [] end
    end in
  array_map (processItem productMaster) sourceItems.

Record Totals : Type := {
  quantity : jsval;
  boxes : jsval;
  weight : jsval;
  value : jsval
}.

(** [processedItems.reduce(..., { quantity: 0, boxes: 0, weight: 0, value: 0 })]. *)
Definition totals (processedItems : list obj) : Totals :=
  fold_left
    (fun acc item => {|
       quantity := js_add (quantity acc) (get item "quantity");
       boxes := js_add (boxes acc) (get item "num_boxes");
       weight := js_add (weight acc) (get item "total_weight");
       value := js_add (value acc) (get item "taxable_value")
     |})
    processedItems
    {| quantity := VNum (ofZ 0); boxes := VNum (ofZ 0);
       weight := VNum (ofZ 0); value := VNum (ofZ 0) |}.

(** One reconciliation pass: the enriched items, and the totals the
    component then derives from them. *)
Definition reconcile (productMaster : ProductMaster) (lineItems : list obj)
  : result (list obj * Totals) :=
  processedItems ← recalculateItems productMaster None (Some lineItems);
  Ok (processedItems, totals processedItems).
End Reconciliation.

End App.

(** ** The back end: invoice history *)

Module Server.
Import JS.

(** What a request body and the stored file hold: JSON values. *)
#[warnings="-register-all"] Inductive json : Type :=
  | JNull
  | JBool (b : bool)
  | JNum (n : number)
  | JStr (s : jsstring)
  | JArr (items : list json)
  | JObj (fields : list (string * json)).

(** An invoice of the history: the properties of the posted entry. *)
Abbreviation invoice := (gmap string json).

(** [invoices.json]: [None] while the file does not exist ([readJSON] then
    returns [null]), else the stored array, newest first. *)
Definition InvoiceFile : Type := option (list invoice).

(** [{ id: Date.now(), ...req.body, created_at: new Date().toISOString() }]:
    an [id] of the body replaces the time stamp, and [created_at] replaces a
    [created_at] of the body. *)
Definition newInvoice (now : number) (iso : jsstring) (body : invoice) : invoice :=
  <["created_at" := JStr iso]> (body ∪ {["id" := JNum now]}).

(** [app.post('/api/invoices')]: the new content of the file and the
    invoice sent back. *)
Definition postInvoice (now : number) (iso : jsstring) (body : invoice)
    (file : InvoiceFile) : InvoiceFile * invoice :=
  let invoices := match file with Some l => l | None => [] end in
  let invoices := newInvoice now iso body :: invoices in
  let invoices := if (100 <? length invoices)%nat then take 100 invoices else invoices in
  (Some invoices, newInvoice now iso body).

(** [app.get('/api/invoices')]. *)
Definition getInvoices (file : InvoiceFile) : list invoice :=
  match file with Some l => l | None => [] end.

End Server.

(** ** Further built-ins: strict equality, [parseInt], the order of properties *)

Module Builtins.
Import JS.

(** [a === b] on the values of line items. *)
Definition strict_eq (a b : jsval) : bool :=
  match a, b with
  | VUndefined, VUndefined => true
  | VNull, VNull => true
  | VNum x, VNum y => num_eqb x y
  | VStr s, VStr t => bool_decide (s = t)
  | _, _ => false
  end.

(** White space and line terminators, which [parseInt] passes over. *)
Definition isWhiteSpace (c : N) : bool :=
  existsb (N.eqb c)
    [0x9; 0xA; 0xB; 0xC; 0xD; 0x20; 0xA0; 0x1680; 0x2000; 0x2001; 0x2002; 0x2003;
     0x2004; 0x2005; 0x2006; 0x2007; 0x2008; 0x2009; 0x200A; 0x2028; 0x2029;
     0x202F; 0x205F; 0x3000; 0xFEFF].

Fixpoint trimStart (s : jsstring) : jsstring :=
  match s with
  | c :: t => if isWhiteSpace c then trimStart t else s
  | [] => []
  end.

(** The value of a digit or letter as a digit of a radix up to 36. *)
Definition digitValue (c : N) : option N :=
  if (48 <=? c) && (c <=? 57) then Some (c - 48)
  else if (97 <=? c) && (c <=? 122) then Some (c - 87)
  else if (65 <=? c) && (c <=? 90) then Some (c - 55)
  else None.

(** The number written by the longest prefix of [s] made of digits of the
    radix [R]; [acc] is [None] as long as no digit was read. *)
Fixpoint readRadix (R : N) (acc : option N) (s : jsstring) : option N :=
  match s with
  | [] => acc
  | c :: t =>
      match digitValue c with
      | Some d =>
          if d <? R
          then readRadix R (Some (R * (match acc with Some a => a | None => 0 end) + d)) t
          else acc
      | None => acc
      end
  end.

(** [parseInt(s)], without a radix argument: leading white space, a sign,
    a [0x] or [0X] prefix for radix 16, then the digits; [NaN] when there is
    no digit.  The result is the double nearest to the integer written, and
    the negative zero for a zero after a minus sign. *)
Definition parseInt (s : jsstring) : number :=
  let s := trimStart s in
  let '(negative, s) :=
    match s with
    | 45 :: t => (true, t)
    | 43 :: t => (false, t)
    | _ => (false, s)
    end in
  let '(R, s) :=
    match s with
    | 48 :: x :: t => if (x =? 120) || (x =? 88) then (16, t) else (10, s)
    | _ => (10, s)
    end in
  match readRadix R None s with
  | None => NaN
  | Some v =>
      if negative : bool
      then (if v =? 0 then NegZero else ofZ (- Z.of_N v))
      else ofZ (Z.of_N v)
  end.

(** An object, as the list of its entries in the order [Object.entries]
    gives them: the keys that are array indices first, in ascending order,
    then the other keys in the order they were created. *)
Definition isDigit (c : N) : bool := (48 <=? c) && (c <=? 57).

Fixpoint decimalValue (acc : N) (s : jsstring) : N :=
  match s with
  | [] => acc
  | c :: t => decimalValue (10 * acc + (c - 48)) t
  end.

(** A key is an array index when it is the decimal notation, without
    leading zero, of an integer below [2^32 - 1]. *)
Definition arrayIndex (k : jsstring) : option N :=
  match k with
  | [] => None
  | c :: t =>
      if forallb isDigit k && (negb (c =? 48) || bool_decide (t = []))
      then if decimalValue 0 k <? 4294967295 then Some (decimalValue 0 k) else None
      else None
  end.

Section Entries.
Context {A : Type}.

Definition has_key (k : jsstring) (o : list (jsstring * A)) : bool :=
  existsb (fun e => bool_decide (fst e = k)) o.

Fixpoint replace_value (k : jsstring) (v : A) (o : list (jsstring * A))
  : list (jsstring * A) :=
  match o with
  | [] => []
  | (k', v') :: rest =>
      if decide (k' = k) then (k', v) :: rest else (k', v') :: replace_value k v rest
  end.

Fixpoint insert_index (i : N) (k : jsstring) (v : A) (o : list (jsstring * A))
  : list (jsstring * A) :=
  match o with
  | [] => [(k, v)]
  | (k', v') :: rest =>
      match arrayIndex k' with
      | Some j => if j <? i then (k', v') :: insert_index i k v rest else (k, v) :: o
      | None => (k, v) :: o
      end
  end.

(** [o[k] = v]: an existing property keeps its place; a new one is put
    among the array indices, or at the end. *)
Definition set_property (k : jsstring) (v : A) (o : list (jsstring * A))
  : list (jsstring * A) :=
  if has_key k o then replace_value k v o
  else match arrayIndex k with
       | Some i => insert_index i k v o
       | None => o ++ [(k, v)]
       end.

(** [delete o[k]]. *)
Definition delete_property (k : jsstring) (o : list (jsstring * A))
  : list (jsstring * A) :=
  List.filter (fun e => negb (bool_decide (fst e = k))) o.
End Entries.

End Builtins.

(** ** The front end: editing the product master *)

Module Catalog.
Import JS App Builtins.

(** The state of the product form; the numeric inputs are stored through
    [parseInt(..) || 0] and [parseFloat(..) || 0]. *)
Record FormData : Type := {
  sku : jsstring;
  name : jsstring;
  pieces_per_box : number;
  box_weight_kg : number;
  box_length_cm : number;
  box_width_cm : number;
  box_height_cm : number
}.

Inductive Toast : Type :=
  | ToastError (message : string)
  | ToastSuccess (message : string).

(** [productData] of [saveProduct]. *)
Definition productData (formData : FormData) : ProductConfig := {|
  App.name := Some (name formData);
  App.hsn_code := None;
  App.pieces_per_box := Some (pieces_per_box formData);
  App.box_weight_kg := Some (box_weight_kg formData);
  App.box_length_cm := Some (box_length_cm formData);
  App.box_width_cm := Some (box_width_cm formData);
  App.box_height_cm := Some (box_height_cm formData)
|}.

(** [saveProduct]: the product master afterwards and the toast shown.
    [{ ...productMaster, [formData.sku]: productData }] has the entries of
    [productMaster] with the property [formData.sku] set. *)
Definition saveProduct (productMaster : ProductMaster) (editingSku : option jsstring)
    (formData : FormData) : ProductMaster * Toast :=
  if negb (truthy (VStr (sku formData)))
  then (productMaster, ToastError "SKU is required")
  else
    let updated := set_property (sku formData) (productData formData) productMaster in
    (updated,
     ToastSuccess (match editingSku with
                   | Some (_ :: _) => "Product updated!"
                   | _ => "Product added!"
                   end)).

(** [deleteProduct(sku)]; [confirmed] is the answer to the dialog. *)
Definition deleteProduct (productMaster : ProductMaster) (confirmed : bool)
    (sku : jsstring) : ProductMaster * option Toast :=
  if negb confirmed then (productMaster, None)
  else (delete_property sku productMaster, Some (ToastSuccess "Product deleted!")).

End Catalog.

(** ** The API client: products read from the database *)

Module Api.
Import JS App Builtins.

(** A row of the [products] table. *)
Record ProductRow : Type := {
  sku : jsstring;
  name : option jsstring;
  hsn_code : option jsstring;
  pieces_per_box : option number;
  box_weight_kg : option number;
  box_length_cm : option number;
  box_width_cm : option number;
  box_height_cm : option number
}.

(** The object [getProducts] stores under [p.sku]. *)
Definition rowConfig (p : ProductRow) : ProductConfig := {|
  App.name := name p;
  App.hsn_code := hsn_code p;
  App.pieces_per_box := pieces_per_box p;
  App.box_weight_kg := box_weight_kg p;
  App.box_length_cm := box_length_cm p;
  App.box_width_cm := box_width_cm p;
  App.box_height_cm := box_height_cm p
|}.

(** The object the reduction of [getProducts] builds: its own properties,
    and the object the reduction has made its prototype, if any ([None]: the
    prototype is [Object.prototype], as for every object literal). *)
Record Products : Type := {
  entries : ProductMaster;
  prototype : option ProductConfig
}.

(** [acc[p.sku] = {...}] on an accumulator that began as [{}].  For the key
    [__proto__], which is never an own property of the accumulator, the
    assignment calls the setter inherited from [Object.prototype]: the object
    on the right becomes the prototype of the accumulator, and no property is
    created. *)
Definition assignRow (acc : Products) (p : ProductRow) : Products :=
  if decide (sku p = lit "__proto__")
  then {| entries := entries acc; prototype := Some (rowConfig p) |}
  else {| entries := set_property (sku p) (rowConfig p) (entries acc);
          prototype := prototype acc |}.

(** [data.reduce((acc, p) => { acc[p.sku] = {...}; return acc }, {})] of
    [getProducts]: the rows turned into a product master. *)
Definition getProducts_reduce (data : list ProductRow) : Products :=
  fold_left assignRow data {| entries := []; prototype := None |}.

End Api.

(** ** The front end: history and exported files *)

Module History.
Import JS Unicode App Builtins.

Section HistoryList.
(** An entry of the history and its [invoice_number] (a string, a number,
    null or absent). *)
Context {Entry : Type} (invoice_number : Entry -> jsval).

(** The list part of [saveToHistory]: [historyEntry] is [None] when there is
    no extracted data; the result is the new [invoiceHistory]. *)
Definition saveToHistory (invoiceHistory : list Entry) (historyEntry : option Entry)
  : list Entry :=
  match historyEntry with
  | None => invoiceHistory
  | Some entry =>
      if existsb (fun h => strict_eq (invoice_number h) (invoice_number entry))
                 invoiceHistory
      then invoiceHistory
      else take 50 (entry :: invoiceHistory)
  end.
End HistoryList.

Section Exports.
Context {RT : Runtime}.

Record ExcelTotals : Type := {
  qty : jsval;
  boxes : jsval;
  weight : jsval;
  value : jsval
}.

(** The totals of [exportHistoryExcel]. *)
Definition exportHistoryExcel_totals (items : list obj) : ExcelTotals :=
  fold_left
    (fun acc item => {|
       qty := js_add (qty acc) (js_or (get item "quantity") (VNum (ofZ 0)));
       boxes := js_add (boxes acc) (js_or (get item "num_boxes") (VNum (ofZ 0)));
       weight := js_add (weight acc) (js_or (get item "total_weight") (VNum (ofZ 0)));
       value := js_add (value acc) (js_or (get item "taxable_value") (VNum (ofZ 0)))
     |})
    items
    {| qty := VNum (ofZ 0); boxes := VNum (ofZ 0);
       weight := VNum (ofZ 0); value := VNum (ofZ 0) |}.

(** The totals of [exportHistoryCSV]: quantity, boxes, weight. *)
Definition exportHistoryCSV_totals (items : list obj) : jsval * jsval * jsval :=
  fold_left
    (fun '(q, b, w) item =>
       (js_add q (js_or (get item "quantity") (VNum (ofZ 0))),
        js_add b (js_or (get item "num_boxes") (VNum (ofZ 0))),
        js_add w (js_or (get item "total_weight") (VNum (ofZ 0)))))
    items
    (VNum (ofZ 0), VNum (ofZ 0), VNum (ofZ 0)).

(** [x.replace(/\//g, '_')]. *)
Definition replaceSlashes (s : jsstring) : jsstring := replace_g [47] [95] s.

(** The file name of [generateCSV], [generateExcel] and [generatePDF]:
    [`Report_${extractedData.invoice.number.replace(/\//g, '_')}` + ext];
    a number that is not a string has no [replace]. *)
Definition reportFileName (number : jsval) (ext : jsstring) : result jsstring :=
  match number with
  | VStr s => Ok (lit "Report_" ++ replaceSlashes s ++ ext)
  | _ => Throw TypeError
  end.

(** The file name of [exportHistoryCSV]:
    [`Report_${entry.invoice_number?.replace(/\//g, '_')}.csv`]. *)
Definition historyFileName (invoice_number : jsval) : result jsstring :=
  match invoice_number with
  | VStr s => Ok (lit "Report_" ++ replaceSlashes s ++ lit ".csv")
  | VUndefined | VNull => Ok (lit "Report_" ++ ToString VUndefined ++ lit ".csv")
  | VNum _ => Throw TypeError
  end.

(** The description column of the CSV files: between two double quotes
    (character 34), [item.description?.replace(..) || ''], where the
    replacement doubles every double quote of the description. *)
Definition csvDescription (description : jsval) : result jsstring :=
  match description with
  | VStr s =>
      Ok ([34] ++ ToString (js_or (VStr (replace_g [34] [34; 34] s)) (VStr [])) ++ [34])
  | VUndefined | VNull => Ok ([34] ++ ToString (js_or VUndefined (VStr [])) ++ [34])
  | VNum _ => Throw TypeError
  end.
End Exports.

End History.

(** ** The back end: products and single invoices *)

Module Backend.
Import JS Builtins Server.

(** [products.json]: [None] while the file does not exist, else the stored
    object, from SKU to the posted product. *)
Definition ProductsFile : Type := option (gmap jsstring json).

(** [app.get('/api/products')]. *)
Definition getProducts (file : ProductsFile) : gmap jsstring json :=
  match file with Some products => products | None => ∅ end.

(** What [express.json()] hands to a handler as [req.body]: an object or an
    array; a request with any other JSON text is answered with status 400
    before the handler runs. *)
Definition parsedBody (body : json) : bool :=
  match body with
  | JObj _ | JArr _ => true
  | _ => false
  end.

(** [products[sku] = req.body] on the object read from the file.  For the
    key [__proto__], when the object has no own property of that name, the
    assignment calls the setter inherited from [Object.prototype]: the body
    becomes the prototype of the object, and the own properties, which are
    what [JSON.stringify] writes, stay as they are. *)
Definition assignProduct (sku : jsstring) (body : json) (products : gmap jsstring json)
  : gmap jsstring json :=
  if decide (sku = lit "__proto__")
  then match products !! sku with
       | Some _ => <[sku := body]> products
       | None => products
       end
  else <[sku := body]> products.

(** [app.put('/api/products/:sku')]. *)
Definition putProduct (sku : jsstring) (body : json) (file : ProductsFile) : ProductsFile :=
  let products := match file with Some products => products | None => ∅ end in
  Some (assignProduct sku body products).

(** [app.delete('/api/products/:sku')]. *)
Definition deleteProduct (sku : jsstring) (file : ProductsFile) : ProductsFile :=
  let products := match file with Some products => products | None => ∅ end in
  Some (delete sku products).

(** [inv.id === n] for a number [n]. *)
Definition id_is (n : number) (inv : invoice) : bool :=
  match inv !! "id" with
  | Some (JNum m) => num_eqb m n
  | _ => false
  end.

Inductive InvoiceResponse : Type :=
  | Found (inv : invoice)
  | NotFound.

(** [app.get('/api/invoices/:id')]: the invoice, or status 404. *)
Definition getInvoice (id : jsstring) (file : InvoiceFile) : InvoiceResponse :=
  let invoices := match file with Some l => l | None => [] end in
  match find (id_is (parseInt id)) invoices with
  | Some invoice => Found invoice
  | None => NotFound
  end.

End Backend.


(** ** Vocabulary of the statements *)

Import JS Unicode App.

(** A code point that is its own upper-case image. *)
Definition upper_fixed (c : N) : Prop := toUppercase c = [c].

(** One entry of a table of single characters, applied to one character,
    and the whole table applied to it. *)
Definition char_step (ge : jsstring * jsstring) (c : N) : N :=
  match ge with
  | ([g], [e]) => if g =? c then e else c
  | _ => c
  end.

Definition subst_char (table : list (jsstring * jsstring)) (c : N) : N :=
  fold_left (fun acc ge => char_step ge acc) table c.

Definition single_chars (ge : jsstring * jsstring) : Prop :=
  length (fst ge) = 1%nat /\ length (snd ge) = 1%nat.

(** Every replacement of the table is its own upper case and is left alone
    by the table. *)
Definition replacement_stable (table : list (jsstring * jsstring)) : bool :=
  forallb (fun e => bool_decide (toUpperCase e = e /\ map (subst_char table) e = e))
          (map snd table).

(** The normal form of a string: upper case, then the table. *)
Definition normalized_string (s : jsstring) : jsstring :=
  substitute greekToEnglish (toUpperCase s).

(** The test the fuzzy scan applies to an entry of the master. *)
Definition same_normal_form (n : jsstring) (entry : jsstring * ProductConfig) : bool :=
  bool_decide (normalized_string (fst entry) = n).

(** [pat] occurs somewhere in [s]. *)
Fixpoint occurs (pat s : jsstring) : bool :=
  match s with
  | [] => startsWith pat []
  | _ :: t => startsWith pat s || occurs pat t
  end.

(** Global replacement of the two characters [a b] by [r]. *)
Definition replace_pair (a b r : N) (s : jsstring) : jsstring :=
  replace_g [a; b] [r] s.

(** The name of a property that every object inherits. *)
Definition inherited (k : jsstring) : bool :=
  existsb (fun e => bool_decide (fst e = k)) objectPrototype.

(** The properties the callback of [recalculateItems] computes. *)
Definition enrichment_fields : list string :=
  ["pieces_per_box"; "box_weight_kg"; "box_dimensions"; "num_boxes"; "total_weight"]%string.

(** [n] is the ceiling of [x]: the integer with [n - 1 < x <= n]. *)
Definition is_ceiling (n : Z) (x : Q) : Prop :=
  (inject_Z (n - 1) < x)%Q /\ (x <= inject_Z n)%Q.

(** The value the roll-up uses for a numeric field [x] of a configuration
    whose default is [d]: the default when the field is absent, [NaN] or a
    zero, and the field itself otherwise. *)
Definition resolved (x : option number) (d : Z) : number :=
  match x with
  | Some (Fin q H) => if (Qnum q =? 0)%Z then ofZ d else Fin q H
  | Some (Inf s) => Inf s
  | Some NegZero | Some NaN | None => ofZ d
  end.

(** A zero of either sign. *)
Definition is_zero (v : jsval) : bool := Builtins.strict_eq v (VNum (ofZ 0)).

(** A number that is neither an infinity nor [NaN]. *)
Definition finite_number (n : number) : bool :=
  match n with
  | Fin _ _ | NegZero => true
  | _ => false
  end.

Definition not_number (v : jsval) : bool :=
  match v with VNum _ => false | _ => true end.

Definition not_string (v : jsval) : bool :=
  match v with VStr _ => false | _ => true end.

(** The [sku] of the item is a string, null or absent. *)
Definition sku_ok (item : obj) : Prop := not_number (get item "sku") = true.

(** The extraction contract for a line item: [sku] is a string, null or
    absent; [quantity] and [taxable_value] are numbers, null or absent. *)
Definition isLineItem (item : obj) : Prop :=
  not_number (get item "sku") = true
  /\ not_string (get item "quantity") = true
  /\ not_string (get item "taxable_value") = true.

Section TotalsVocabulary.
Context {RT : Runtime}.

Definition zeroTotals : Totals :=
  {| quantity := VNum (ofZ 0); boxes := VNum (ofZ 0);
     weight := VNum (ofZ 0); value := VNum (ofZ 0) |}.

(** One step of the reduction of [totals]. *)
Definition addItem (acc : Totals) (item : obj) : Totals :=
  {| quantity := js_add (quantity acc) (get item "quantity");
     boxes := js_add (boxes acc) (get item "num_boxes");
     weight := js_add (weight acc) (get item "total_weight");
     value := js_add (value acc) (get item "taxable_value") |}.
End TotalsVocabulary.

(** *** An engine for the examples: [Number::toString] and [StringToNumber] *)

(** The decimal digits of a natural number. *)
Definition decimal (z : Z) : jsstring := lit (NilEmpty.string_of_int (Z.to_int z)).

Definition pow10 (k : Z) : Q := (inject_Z 10 ^ k)%Q.

(** The integer [n] with [10^(n-1) <= x < 10^n], for a positive [x]. *)
Definition decimalExponent (x : Q) : Z :=
  if Qle_bool 1 x then Z.of_nat (length (decimal (Qfloor x)))
  else (1 - Z.of_nat (length (decimal (Qceiling (/ x) - 1))))%Z.

(** Whether [s * 10^(n-k)] is read back as the double [x]. *)
Definition readsBack (x : Q) (n k s : Z) : bool :=
  Qsame (nearest (inject_Z s * pow10 (n - k))) x.

(** The digits of the shortest decimal that is read back as [x]: [k] digits
    are tried for [k = 1, 2, ...]; of the two integers around
    [x / 10^(n-k)] the one nearer to it is taken when both are read back as
    [x].  The result is the integer [s] of the digits and the exponent [n]. *)
Fixpoint shortest (fuel : nat) (x : Q) (n k : Z) : Z * Z :=
  match fuel with
  | O => (Qfloor (x / pow10 (n - k)), n)
  | S fuel' =>
      let y := (x / pow10 (n - k))%Q in
      let lo := Qfloor y in
      let hi := (lo + 1)%Z in
      let okLo := readsBack x n k lo && (10 ^ (k - 1) <=? lo)%Z in
      let okHi := readsBack x n k hi in
      let s :=
        if okLo && okHi
        then match Qcompare (y - inject_Z lo) (inject_Z hi - y) with
             | Lt => Some lo
             | Gt => Some hi
             | Eq => Some (if Z.even lo then lo else hi)
             end
        else if okLo then Some lo
        else if okHi then Some hi
        else None in
      match s with
      | Some s => if (s =? 10 ^ k)%Z then (10 ^ (k - 1), n + 1)%Z else (s, n)
      | None => shortest fuel' x n (k + 1)%Z
      end
  end.

Definition zeros (n : Z) : jsstring := repeat 48 (Z.to_nat n).

(** The text of a positive double, from the digits [s] (without trailing
    zeros) and the exponent [n]. *)
Definition writeDigits (s n : Z) : jsstring :=
  let d := decimal s in
  let k := Z.of_nat (length d) in
  if ((k <=? n) && (n <=? 21))%Z then d ++ zeros (n - k)
  else if ((0 <? n) && (n <=? 21))%Z
       then take (Z.to_nat n) d ++ lit "." ++ drop (Z.to_nat n) d
  else if ((-6 <? n) && (n <=? 0))%Z then lit "0." ++ zeros (- n) ++ d
  else take 1 d ++ (if (k =? 1)%Z then [] else lit "." ++ drop 1 d)
         ++ lit "e" ++ (if (0 <? n - 1)%Z then lit "+" else lit "-")
         ++ decimal (Z.abs (n - 1)).

Fixpoint stripZeros (fuel : nat) (s : Z) : Z :=
  match fuel with
  | O => s
  | S fuel' => if ((s mod 10 =? 0) && negb (s =? 0))%Z then stripZeros fuel' (s / 10)%Z else s
  end.

Definition writeNumber (n : number) : jsstring :=
  match n with
  | NaN => lit "NaN"
  | Inf false => lit "Infinity"
  | Inf true => lit "-Infinity"
  | NegZero => lit "0"
  | Fin q _ =>
      if (Qnum q =? 0)%Z then lit "0"
      else let x := Qabs q in
           let '(s, n) := shortest 17 x (decimalExponent x) 1 in
           (if (Qnum q <? 0)%Z then lit "-" else []) ++ writeDigits (stripZeros 17 s) n
  end.

(** [StringToNumber]: white space around, then nothing (0), [Infinity]
    with an optional sign, a decimal literal with an optional sign, fraction
    and exponent, or an unsigned literal in radix 16, 8 or 2; any other text
    is [NaN]. *)
Definition isSpace (c : N) : bool :=
  existsb (N.eqb c)
    [0x9; 0xA; 0xB; 0xC; 0xD; 0x20; 0xA0; 0x1680; 0x2000; 0x2001; 0x2002; 0x2003;
     0x2004; 0x2005; 0x2006; 0x2007; 0x2008; 0x2009; 0x200A; 0x2028; 0x2029;
     0x202F; 0x205F; 0x3000; 0xFEFF].

Fixpoint dropSpaces (s : jsstring) : jsstring :=
  match s with
  | c :: t => if isSpace c then dropSpaces t else s
  | [] => []
  end.

Definition trim (s : jsstring) : jsstring := rev (dropSpaces (rev (dropSpaces s))).

(** The digits at the front of [s] in radix 10, their number, and the rest. *)
Fixpoint readDecimal (acc : Z) (count : Z) (s : jsstring) : Z * Z * jsstring :=
  match s with
  | c :: t =>
      if (48 <=? c) && (c <=? 57)
      then readDecimal (10 * acc + Z.of_N (c - 48))%Z (count + 1)%Z t
      else (acc, count, s)
  | [] => (acc, count, [])
  end.

Definition hexValue (c : N) : option Z :=
  if (48 <=? c) && (c <=? 57) then Some (Z.of_N (c - 48))
  else if (97 <=? c) && (c <=? 102) then Some (Z.of_N (c - 87))
  else if (65 <=? c) && (c <=? 70) then Some (Z.of_N (c - 55))
  else None.

Fixpoint readRadixAll (R : Z) (acc : Z) (s : jsstring) : option Z :=
  match s with
  | [] => Some acc
  | c :: t =>
      match hexValue c with
      | Some d => if (d <? R)%Z then readRadixAll R (R * acc + d)%Z t else None
      | None => None
      end
  end.

Definition readUnsignedDecimal (s : jsstring) : option Q :=
  let '(int, ni, rest) := readDecimal 0 0 s in
  let '(frac, nf, rest) :=
    match rest with
    | 46 :: t => readDecimal 0 0 t
    | _ => (0%Z, 0%Z, rest)
    end in
  if ((ni + nf =? 0)%Z) then None
  else
    let mantissa := (inject_Z int + inject_Z frac / pow10 nf)%Q in
    match rest with
    | [] => Some mantissa
    | e :: t =>
        if (e =? 101) || (e =? 69)
        then let '(neg, t) :=
               match t with
               | 45 :: u => (true, u)
               | 43 :: u => (false, u)
               | _ => (false, t)
               end in
             match readDecimal 0 0 t with
             | (ex, ne, []) =>
                 if (ne =? 0)%Z then None
                 else Some (mantissa * pow10 (if neg : bool then - ex else ex))%Q
             | _ => None
             end
        else None
    end.

Definition signedZero (negative : bool) (x : Q) : number :=
  if (Qnum x =? 0)%Z then (if negative then NegZero else ofZ 0)
  else round (if negative then - x else x)%Q.

Definition readNumber (s : jsstring) : number :=
  let s := trim s in
  match s with
  | [] => ofZ 0
  | 48 :: x :: t =>
      if (x =? 120) || (x =? 88)
      then match t, readRadixAll 16 0 t with _ :: _, Some v => ofZ v | _, _ => NaN end
      else if (x =? 111) || (x =? 79)
      then match t, readRadixAll 8 0 t with _ :: _, Some v => ofZ v | _, _ => NaN end
      else if (x =? 98) || (x =? 66)
      then match t, readRadixAll 2 0 t with _ :: _, Some v => ofZ v | _, _ => NaN end
      else match readUnsignedDecimal s with Some q => signedZero false q | None => NaN end
  | _ =>
      let '(neg, u) :=
        match s with
        | 45 :: u => (true, u)
        | 43 :: u => (false, u)
        | _ => (false, s)
        end in
      if bool_decide (u = lit "Infinity") then Inf neg
      else match readUnsignedDecimal u with
           | Some q => signedZero neg q
           | None => NaN
           end
  end.

Definition exampleRuntime : Runtime := {|
  StringToNumber := readNumber;
  NumberToString := writeNumber
|}.


(** Data of the examples. *)
Definition productConfig (ppb w l b h : Z) : ProductConfig := {|
  name := None; hsn_code := None;
  pieces_per_box := Some (ofZ ppb); box_weight_kg := Some (ofZ w);
  box_length_cm := Some (ofZ l); box_width_cm := Some (ofZ b);
  box_height_cm := Some (ofZ h)
|}.

Definition lineItem (sku : string) (q v : Z) : obj :=
  <["sku" := VStr (lit sku)]>
    (<["quantity" := VNum (ofZ q)]> (<["taxable_value" := VNum (ofZ v)]> ∅)).

Definition sampleMaster : ProductMaster :=
  [(lit "PROD-001", productConfig 50 4 30 20 15)].

(** A configuration whose [pieces_per_box] is negative, and nothing else
    set. *)
Definition negativeConfig : ProductConfig := {|
  name := None; hsn_code := None;
  pieces_per_box := Some (ofZ (-5)); box_weight_kg := None;
  box_length_cm := None; box_width_cm := None; box_height_cm := None
|}.

(** A configuration with 3 pieces a box and a box weight of one tenth. *)
Definition tenthConfig : ProductConfig := {|
  name := None; hsn_code := None;
  pieces_per_box := Some (ofZ 3); box_weight_kg := Some (round (1 # 10));
  box_length_cm := None; box_width_cm := None; box_height_cm := None
|}.

(** A configuration with 0.29 pieces a box. *)
Definition fractionConfig : ProductConfig := {|
  name := None; hsn_code := None;
  pieces_per_box := Some (round (29 # 100)); box_weight_kg := None;
  box_length_cm := None; box_width_cm := None; box_height_cm := None
|}.


(** A line item without [quantity], and one without [sku]. *)
Definition itemWithoutQuantity : obj := {["sku" := VStr (lit "X-1")]}.

Definition itemWithoutSku : obj :=
  <["quantity" := VNum (ofZ 10)]> {["taxable_value" := VNum (ofZ 100)]}.

Definition sampleItems : list obj :=
  [lineItem "prod-001" 120 1000; itemWithoutQuantity; itemWithoutSku].

(** ** Vocabulary of the further statements *)

(** The upper case of an ASCII character. *)
Definition asciiUpper (c : N) : N :=
  if (97 <=? c) && (c <=? 122) then c - 32 else c.

(** What [Forall] checks on the first 128 code points. *)
Definition ascii_normal (c : N) : bool :=
  bool_decide (toUppercase c = [asciiUpper c]) && negb (asciiUpper c =? 0x152).

(** No key of the table occurs in [s]. *)
Definition no_key_occurs (s : jsstring) : Prop :=
  forall key : jsstring, In key (map fst greekToEnglish) -> occurs key s = false.

(** No two entries of a history have [===] invoice numbers: no entry has the
    number of an entry before it. *)
Fixpoint distinct_numbers {Entry : Type} (invoice_number : Entry -> jsval)
    (history : list Entry) : Prop :=
  match history with
  | [] => True
  | entry :: older =>
      (forall h, In h older ->
         Builtins.strict_eq (invoice_number h) (invoice_number entry) = false)
      /\ distinct_numbers invoice_number older
  end.

(** The steps of the reductions of [exportHistoryExcel] and
    [exportHistoryCSV]. *)
Definition excelStep `{RT : Runtime} (acc : History.ExcelTotals) (item : obj)
  : History.ExcelTotals :=
  {| History.qty := js_add (History.qty acc) (js_or (get item "quantity") (VNum (ofZ 0)));
     History.boxes := js_add (History.boxes acc) (js_or (get item "num_boxes") (VNum (ofZ 0)));
     History.weight :=
       js_add (History.weight acc) (js_or (get item "total_weight") (VNum (ofZ 0)));
     History.value :=
       js_add (History.value acc) (js_or (get item "taxable_value") (VNum (ofZ 0))) |}.

Definition csvStep `{RT : Runtime} (acc : jsval * jsval * jsval)
  : obj -> jsval * jsval * jsval :=
  let '(q, b, w) := acc in
  fun item =>
    (js_add q (js_or (get item "quantity") (VNum (ofZ 0))),
     js_add b (js_or (get item "num_boxes") (VNum (ofZ 0))),
     js_add w (js_or (get item "total_weight") (VNum (ofZ 0)))).

(** A value that is a finite number. *)
Definition is_finite (v : jsval) : bool :=
  match v with
  | VNum n => finite_number n
  | _ => false
  end.

(** A value that is a number other than the negative zero. *)
Definition not_negative_zero (v : jsval) : bool :=
  match v with
  | VNum NegZero => false
  | VNum _ => true
  | _ => false
  end.

(** The four numeric properties of a processed item are finite numbers. *)
Definition finite_item (item : obj) : Prop :=
  is_finite (get item "quantity") = true /\ is_finite (get item "num_boxes") = true
  /\ is_finite (get item "total_weight") = true
  /\ is_finite (get item "taxable_value") = true.




(** Reading a quoted CSV field back: the text between the quotes, with every
    pair of double quotes standing for one; [None] when the field is not of
    that form. *)
Fixpoint unquote_body (s : jsstring) : option jsstring :=
  match s with
  | [] => None
  | c :: t =>
      if c =? 34
      then match t with
           | [] => Some []
           | d :: t' => if d =? 34 then option_map (cons 34) (unquote_body t') else None
           end
      else option_map (cons c) (unquote_body t)
  end.

Definition csv_unquote (field : jsstring) : option jsstring :=
  match field with
  | c :: t => if c =? 34 then unquote_body t else None
  | [] => None
  end.

(** A series of POST requests to [/api/invoices], each with the time and the
    time stamp of its handling and its body, applied in order to the file. *)
Definition postAll (requests : list (number * jsstring * Server.invoice))
    (file : Server.InvoiceFile) : Server.InvoiceFile :=
  fold_left (fun f '(now, iso, body) => fst (Server.postInvoice now iso body f))
            requests file.

(** The invoice a request creates. *)
Definition created (request : number * jsstring * Server.invoice) : Server.invoice :=
  let '(now, iso, body) := request in Server.newInvoice now iso body.

(** A filled product form. *)
Definition sampleForm : Catalog.FormData := {|
  Catalog.sku := lit "42";
  Catalog.name := lit "Soap";
  Catalog.pieces_per_box := ofZ 24;
  Catalog.box_weight_kg := ofZ 6;
  Catalog.box_length_cm := ofZ 40;
  Catalog.box_width_cm := ofZ 30;
  Catalog.box_height_cm := ofZ 20
|}.

(** A processed item with finite numbers, a body and two requests. *)
Definition processedSample : obj :=
  <["quantity" := VNum (ofZ 120)]>
    (<["num_boxes" := VNum (ofZ 3)]>
       (<["total_weight" := VNum (ofZ 12)]> {["taxable_value" := VNum (ofZ 1000)]})).

Definition sampleBody : Server.invoice :=
  {["invoice_number" := Server.JStr (lit "INV/1")]}.

Definition sampleRequests : list (number * jsstring * Server.invoice) :=
  [(ofZ 1, lit "t1", sampleBody); (ofZ 2, lit "t2", sampleBody)].

(** Two rows of the products table with one SKU. *)
Definition sampleRow (ppb : Z) : Api.ProductRow := {|
  Api.sku := lit "PROD-001"; Api.name := None; Api.hsn_code := None;
  Api.pieces_per_box := Some (ofZ ppb); Api.box_weight_kg := Some (ofZ 4);
  Api.box_length_cm := None; Api.box_width_cm := None; Api.box_height_cm := None
|}.

Definition sampleRows : list Api.ProductRow := [sampleRow 50; sampleRow 60].

(** A JSON value that [JSON.stringify] writes and [JSON.parse] then reads
    back as it is: its numbers are finite and none is the negative zero (an
    infinity is written as [null], and the negative zero as [0]). *)
Fixpoint written_as_is (v : Server.json) : bool :=
  match v with
  | Server.JNum (Fin _ _) => true
  | Server.JNum _ => false
  | Server.JArr items => forallb written_as_is items
  | Server.JObj fields => forallb (fun field => written_as_is (snd field)) fields
  | _ => true
  end.

Definition invoice_written_as_is (inv : Server.invoice) : bool :=
  forallb (fun field => written_as_is (snd field)) (map_to_list inv).

(** A product as the client sends it, a body with an [id] of its own, and a
    row of the products table whose SKU is [__proto__]. *)
Definition sampleProduct : Server.json :=
  Server.JObj [("name", Server.JStr (lit "Soap")); ("pieces_per_box", Server.JNum (ofZ 24))].

Definition bodyWithId : Server.invoice :=
  <["id" := Server.JNum (ofZ 7)]> sampleBody.

Definition protoRow : Api.ProductRow := {|
  Api.sku := lit "__proto__"; Api.name := Some (lit "Soap"); Api.hsn_code := None;
  Api.pieces_per_box := Some (ofZ 24); Api.box_weight_kg := None;
  Api.box_length_cm := None; Api.box_width_cm := None; Api.box_height_cm := None
|}.

(** ** Doubles *)

Section DoubleArithmetic.
Local Open Scope Z_scope.
Local Open Scope Q_scope.

Lemma pow2_pos k : 0 < 2 ^ k.
Proof. apply Qpower_0_lt. reflexivity. Qed.

Lemma pow2_add a b : 2 ^ (a + b) == 2 ^ a * 2 ^ b.
Proof. apply Qpower_plus. discriminate. Qed.

Lemma pow2_le a b : (a <= b)%Z -> 2 ^ a <= 2 ^ b.
Proof. intros H. apply Qpower_le_compat_l; [exact H | discriminate]. Qed.

Lemma pow2_lt a b : (a < b)%Z -> 2 ^ a < 2 ^ b.
Proof. intros H. apply Qpower_lt_compat_l; [exact H | reflexivity]. Qed.

Lemma pow2_Z k : (0 <= k)%Z -> inject_Z (2 ^ k) == 2 ^ k.
Proof. intros H. now rewrite Zpower_Qpower. Qed.

Lemma pow2_opp k : 2 ^ (- k) == / 2 ^ k.
Proof. apply Qpower_opp. Qed.

Lemma pow2_inv_l k : 2 ^ (- k) * 2 ^ k == 1.
Proof. rewrite <- pow2_add. now replace (- k + k)%Z with 0%Z by lia. Qed.

Lemma Qinv_le a b : 0 < a -> a <= b -> / b <= / a.
Proof.
  intros Ha Hab. assert (Hb : 0 < b) by lra.
  apply Qle_shift_inv_l; [exact Ha|].
  setoid_replace (/ b * a) with (a / b) using relation Qeq by (unfold Qdiv; ring).
  apply Qle_shift_div_r; [exact Hb | lra].
Qed.

Lemma Qinv_lt a b : 0 < a -> a < b -> / b < / a.
Proof.
  intros Ha Hab. assert (Hb : 0 < b) by lra. apply -> Qinv_lt_contravar; assumption.
Qed.

Lemma Qlog2_spec x : 0 < x -> 2 ^ Qlog2 x <= x /\ x < 2 ^ (Qlog2 x + 1).
Proof.
  intros Hx. unfold Qlog2. destruct (Qle_bool 1 x) eqn:E.
  - apply Qle_bool_iff in E.
    assert (HN : (1 <= Qfloor x)%Z).
    { change 1%Z with (Qfloor 1). now apply Qfloor_resp_le. }
    pose proof (Z.log2_spec (Qfloor x) ltac:(lia)) as [L1 L2].
    pose proof (Z.log2_nonneg (Qfloor x)) as L0.
    pose proof (Qfloor_le x) as F1. pose proof (Qlt_floor x) as F2.
    rewrite <- !pow2_Z by lia. split.
    + rewrite Zle_Qle in L1. lra.
    + replace (Z.succ (Z.log2 (Qfloor x))) with (Z.log2 (Qfloor x) + 1)%Z in L2 by lia.
      assert (L3 : (Qfloor x + 1 <= 2 ^ (Z.log2 (Qfloor x) + 1))%Z) by lia.
      rewrite Zle_Qle in L3. lra.
  - assert (E' : x < 1).
    { apply Qnot_le_lt. intros H. apply Qle_bool_iff in H. congruence. }
    set (y := / x). assert (Hy : 1 < y).
    { subst y. apply Qlt_shift_inv_l; [exact Hx | lra]. }
    assert (Hxy : x == / y) by (subst y; now rewrite Qinv_involutive).
    pose proof (Qle_ceiling y) as C1. pose proof (Qceiling_lt y) as C2.
    assert (HN : (1 < Qceiling y)%Z).
    { rewrite Zlt_Qlt. change (inject_Z 1) with 1. lra. }
    pose proof (Z.log2_up_spec (Qceiling y) HN) as [L1 L2].
    pose proof (Z.log2_up_pos (Qceiling y) HN) as L0.
    set (j := Z.log2_up (Qceiling y)) in *.
    replace (- j + 1)%Z with (- (j - 1))%Z by lia. rewrite !pow2_opp, Hxy.
    pose proof (pow2_pos j) as P1. pose proof (pow2_pos (j - 1)) as P2.
    split.
    + apply Qinv_le; [lra|]. rewrite <- pow2_Z by lia. rewrite Zle_Qle in L2. lra.
    + apply Qinv_lt; [exact P2|]. rewrite <- pow2_Z by lia.
      replace (Z.pred j) with (j - 1)%Z in L1 by lia.
      assert (L3 : (2 ^ (j - 1) <= Qceiling y - 1)%Z) by lia.
      rewrite Zle_Qle in L3. lra.
Qed.

Lemma Qlog2_unique x a : 2 ^ a <= x -> x < 2 ^ (a + 1) -> Qlog2 x = a.
Proof.
  intros H1 H2. pose proof (pow2_pos a) as Pa.
  destruct (Qlog2_spec x ltac:(lra)) as [S1 S2].
  assert (A : (Qlog2 x < a + 1)%Z).
  { apply (Qpower_lt_compat_l_inv 2); [lra | reflexivity]. }
  assert (B : (a < Qlog2 x + 1)%Z).
  { apply (Qpower_lt_compat_l_inv 2); [lra | reflexivity]. }
  lia.
Qed.

Lemma rne_Z x m : x == inject_Z m -> rne x = m.
Proof.
  intros H. unfold rne. rewrite (Qfloor_comp x (inject_Z m) H), Qfloor_Z.
  assert (G : Qcompare (x - inject_Z m) (1 # 2) = Lt) by (apply -> Qlt_alt; lra).
  now rewrite G.
Qed.

Lemma rne_floor x : (Qfloor x <= rne x <= Qfloor x + 1)%Z.
Proof.
  unfold rne. destruct (Qcompare _ _); [destruct (Z.even _)|..]; lia.
Qed.

Lemma rne_ge x k : inject_Z k <= x -> (k <= rne x)%Z.
Proof.
  intros H. apply Qfloor_resp_le in H. rewrite Qfloor_Z in H.
  pose proof (rne_floor x). lia.
Qed.

Lemma rne_le x k : x <= inject_Z k -> (rne x <= k)%Z.
Proof.
  intros H. destruct (Z.eq_dec (Qfloor x) k) as [E|E].
  - assert (Hx : x == inject_Z k).
    { pose proof (Qfloor_le x) as F. rewrite E in F. lra. }
    rewrite (rne_Z x k Hx). lia.
  - pose proof (Qfloor_resp_le _ _ H) as F. rewrite Qfloor_Z in F.
    pose proof (rne_floor x). lia.
Qed.

Lemma rne_above_half x k : inject_Z k + (1 # 2) < x -> (k + 1 <= rne x)%Z.
Proof.
  intros H. assert (F : (k <= Qfloor x)%Z).
  { rewrite <- (Qfloor_Z k). apply Qfloor_resp_le. lra. }
  destruct (Z.eq_dec (Qfloor x) k) as [E|E]; [|pose proof (rne_floor x); lia].
  unfold rne. rewrite E.
  assert (G : Qcompare (x - inject_Z k) (1 # 2) = Gt).
  { apply -> Qgt_alt. lra. }
  rewrite G. lia.
Qed.

Lemma nearest_eq x :
  nearest x == inject_Z (rne (x / 2 ^ ulp_exponent x)) * 2 ^ ulp_exponent x.
Proof. unfold nearest. apply Qred_correct. Qed.

Lemma div_pow2 x m u : x == inject_Z m * 2 ^ u -> x / 2 ^ u == inject_Z m.
Proof.
  intros H. rewrite H. pose proof (pow2_pos u). field. lra.
Qed.

(** A number on the grid of its own exponent is its own nearest. *)
Lemma nearest_grid x m : x == inject_Z m * 2 ^ ulp_exponent x -> nearest x == x.
Proof.
  intros H. rewrite nearest_eq, (rne_Z _ m); [now rewrite <- H|].
  now apply div_pow2.
Qed.

Lemma Qsame_spec a b : Qsame a b = true <-> a = b.
Proof.
  unfold Qsame. rewrite andb_true_iff, Z.eqb_eq, Pos.eqb_eq.
  destruct a, b; cbn. split; [intros [-> ->]; reflexivity | intros [= -> ->]; auto].
Qed.

Lemma double_intro q :
  Qred q = q -> nearest q == q -> Qabs q < 2 ^ 1024 -> double q = true.
Proof.
  intros Hr Hn Ha. unfold double. apply andb_true_iff. split.
  - apply Qsame_spec. transitivity (Qred q); [|exact Hr].
    unfold nearest in *. apply Qred_complete. now rewrite Qred_correct in Hn.
  - apply negb_true_iff. destruct (Qle_bool _ _) eqn:E; [|reflexivity].
    apply Qle_bool_iff in E. lra.
Qed.

Lemma double_elim q :
  double q = true -> Qred q = q /\ nearest q = q /\ Qabs q < 2 ^ 1024.
Proof.
  unfold double. rewrite andb_true_iff, negb_true_iff. intros [H1 H2].
  apply Qsame_spec in H1. split; [|split; [exact H1|]].
  - rewrite <- H1 at 1. unfold nearest. rewrite Qred_involutive. exact H1.
  - apply Qnot_le_lt. intros H. apply Qle_bool_iff in H. congruence.
Qed.

Lemma finite_double v : double v = true -> exists H, finite v = Fin v H.
Proof.
  intros H. unfold finite.
  assert (G : forall b (e : double v = b), b = true -> exists H, finite_if v b e = Fin v H).
  { intros b e Hb. destruct b; [cbn; eauto | discriminate]. }
  now apply G.
Qed.

Lemma Fin_eq q H1 H2 : Fin q H1 = Fin q H2.
Proof. f_equal. apply Eqdep_dec.UIP_dec. apply Bool.bool_dec. Qed.

Lemma Qabs_inject_Z z : Qabs (inject_Z z) = inject_Z (Z.abs z).
Proof. reflexivity. Qed.

Lemma Qabs_pow2 u : Qabs (2 ^ u) == 2 ^ u.
Proof. apply Qabs_pos. pose proof (pow2_pos u). lra. Qed.

Lemma Qabs_scaled m u : Qabs (inject_Z m * 2 ^ u) == inject_Z (Z.abs m) * 2 ^ u.
Proof. now rewrite Qabs_Qmult, Qabs_pow2, Qabs_inject_Z. Qed.

Lemma Qabs_zero x : Qabs x == 0 -> x == 0.
Proof.
  intros H. pose proof (Qabs_Qle_condition x 0) as [C _].
  destruct C as [C1 C2]; [rewrite H; lra | lra].
Qed.

Lemma Qabs_pos_lt x : ~ x == 0 -> 0 < Qabs x.
Proof.
  intros H. pose proof (Qabs_nonneg x) as N.
  destruct (Qeq_dec (Qabs x) 0) as [E|E]; [now apply Qabs_zero in E | lra].
Qed.

Lemma ulp_exponent_scaled m u :
  m <> 0%Z ->
  ulp_exponent (inject_Z m * 2 ^ u) = (Z.max (Z.log2 (Z.abs m) + u) (-1022) - 52)%Z.
Proof.
  intros Hm. unfold ulp_exponent. f_equal. f_equal.
  pose proof (Z.log2_spec (Z.abs m) ltac:(lia)) as [L1 L2].
  pose proof (pow2_pos u) as Pu.
  apply Qlog2_unique; rewrite Qabs_scaled.
  - rewrite pow2_add, <- (pow2_Z (Z.log2 (Z.abs m))) by apply Z.log2_nonneg.
    apply Qmult_le_compat_r; [|lra]. now rewrite <- Zle_Qle.
  - replace (Z.log2 (Z.abs m) + u + 1)%Z with (Z.succ (Z.log2 (Z.abs m)) + u)%Z by lia.
    rewrite pow2_add, <- (pow2_Z (Z.succ (Z.log2 (Z.abs m))))
      by (pose proof (Z.log2_nonneg (Z.abs m)); lia).
    apply Qmult_lt_compat_r; [exact Pu|]. now rewrite <- Zlt_Qlt.
Qed.

Lemma ulp_exponent_comp x y : x == y -> ulp_exponent x = ulp_exponent y.
Proof.
  intros H. unfold ulp_exponent. f_equal. f_equal.
  destruct (Qeq_dec x 0) as [E|E].
  - assert (Ey : y == 0) by now rewrite <- H.
    assert (Z0 : forall z, z == 0 -> Qlog2 (Qabs z) = 0%Z).
    { intros [[|n|n] d] Hz; [reflexivity | exfalso; unfold Qeq in Hz; cbn in Hz; lia ..]. }
    now rewrite (Z0 x E), (Z0 y Ey).
  - assert (Px : 0 < Qabs x) by now apply Qabs_pos_lt.
    destruct (Qlog2_spec _ Px) as [S1 S2].
    symmetry. apply Qlog2_unique; now rewrite <- H.
Qed.

Lemma rne_comp x y : x == y -> rne x = rne y.
Proof.
  intros H. unfold rne. rewrite (Qfloor_comp x y H).
  assert (E : x - inject_Z (Qfloor y) == y - inject_Z (Qfloor y)) by now rewrite H.
  now rewrite (Qcompare_comp _ _ E (1 # 2) (1 # 2) (Qeq_refl _)).
Qed.

Lemma nearest_comp x y : x == y -> nearest x = nearest y.
Proof.
  intros H. unfold nearest. apply Qred_complete.
  rewrite (ulp_exponent_comp x y H).
  assert (E : x / 2 ^ ulp_exponent y == y / 2 ^ ulp_exponent y) by now rewrite H.
  now rewrite (rne_comp _ _ E).
Qed.

Lemma nearest_canon x : Qred (nearest x) = nearest x.
Proof. unfold nearest. apply Qred_involutive. Qed.

Lemma ulp_exponent_ge x :
  (-1074 <= ulp_exponent x)%Z /\ (Qlog2 (Qabs x) - 52 <= ulp_exponent x)%Z.
Proof. unfold ulp_exponent. lia. Qed.

(** The scaled number is below [2^53] in absolute value. *)
Lemma scaled_bound x :
  ~ x == 0 ->
  - inject_Z (2 ^ 53) <= x / 2 ^ ulp_exponent x <= inject_Z (2 ^ 53).
Proof.
  intros Hx. pose proof (Qabs_pos_lt x Hx) as Px.
  destruct (Qlog2_spec _ Px) as [_ S2].
  destruct (ulp_exponent_ge x) as [_ U]. set (u := ulp_exponent x) in *.
  pose proof (pow2_pos u) as Pu.
  apply Qabs_Qle_condition.
  unfold Qdiv. rewrite Qabs_Qmult, Qabs_Qinv, Qabs_pow2.
  apply Qle_shift_div_r; [exact Pu|].
  rewrite pow2_Z by lia. rewrite <- pow2_add.
  apply Qle_trans with (2 ^ (Qlog2 (Qabs x) + 1)); [lra|]. apply pow2_le. lia.
Qed.

Lemma rne_scaled_bound x :
  ~ x == 0 -> (- 2 ^ 53 <= rne (x / 2 ^ ulp_exponent x) <= 2 ^ 53)%Z.
Proof.
  intros Hx. destruct (scaled_bound x Hx) as [B1 B2]. split.
  - apply rne_ge. now rewrite inject_Z_opp.
  - now apply rne_le.
Qed.

Lemma rne_zero x : x == 0 -> rne x = 0%Z.
Proof. intros H. now apply rne_Z. Qed.

(** Rounding twice is rounding once. *)
Lemma nearest_nearest x : nearest (nearest x) == nearest x.
Proof.
  set (u := ulp_exponent x). set (m := rne (x / 2 ^ u)).
  assert (Hv : nearest x == inject_Z m * 2 ^ u) by apply nearest_eq.
  destruct (Z.eq_dec m 0%Z) as [Hm|Hm].
  - assert (E : nearest x = nearest 0).
    { rewrite <- (nearest_canon x), <- (nearest_canon 0). apply Qred_complete.
      rewrite Hv, Hm. change (nearest 0) with 0. ring. }
    rewrite E. reflexivity.
  - assert (Hx : ~ x == 0).
    { intros Hx. apply Hm. subst m. apply rne_zero. rewrite Hx. unfold Qdiv. ring. }
    pose proof (rne_scaled_bound x Hx) as B. fold u in B. fold m in B.
    destruct (ulp_exponent_ge x) as [U _]. fold u in U.
    pose proof (Z.log2_nonneg (Z.abs m)) as A0.
    assert (A53 : (Z.log2 (Z.abs m) <= 53)%Z).
    { change 53%Z with (Z.log2 (2 ^ 53)). apply Z.log2_le_mono. lia. }
    assert (Hu : ulp_exponent (nearest x)
                 = (Z.max (Z.log2 (Z.abs m) + u) (-1022) - 52)%Z).
    { rewrite (ulp_exponent_comp _ _ Hv). now apply ulp_exponent_scaled. }
    destruct (Z.eq_dec (Z.log2 (Z.abs m)) 53%Z) as [A|A].
    + assert (Em : Z.abs m = (2 ^ 53)%Z).
      { pose proof (Z.log2_spec (Z.abs m) ltac:(lia)) as [L1 _]. rewrite A in L1. lia. }
      apply (nearest_grid _ (m / 2)). rewrite Hu, A.
      replace (Z.max (53 + u) (-1022) - 52)%Z with (1 + u)%Z by lia.
      rewrite Hv, pow2_add. change (2 ^ 1) with 2.
      assert (E2 : m = (2 * (m / 2))%Z).
      { destruct (Z.abs_eq_or_opp m) as [E|E]; rewrite Em in E.
        - rewrite <- E. reflexivity.
        - assert (m = (- 2 ^ 53)%Z) as -> by lia. reflexivity. }
      rewrite E2 at 1. rewrite inject_Z_mult. change (inject_Z 2) with 2. ring.
    + set (u' := (Z.max (Z.log2 (Z.abs m) + u) (-1022) - 52)%Z) in *.
      assert (Hu' : (u' <= u)%Z) by lia.
      apply (nearest_grid _ (m * 2 ^ (u - u'))). rewrite Hu.
      rewrite Hv, inject_Z_mult, pow2_Z by lia.
      rewrite <- Qmult_assoc, <- pow2_add. now replace (u - u' + u')%Z with u by lia.
Qed.

Lemma nearest_double x : Qabs (nearest x) < 2 ^ 1024 -> double (nearest x) = true.
Proof.
  intros H. apply double_intro; [apply nearest_canon | apply nearest_nearest | exact H].
Qed.

Lemma round_comp x y : x == y -> round x = round y.
Proof.
  intros H. unfold round. rewrite (nearest_comp x y H).
  assert (E : (Qnum x <? 0)%Z = (Qnum y <? 0)%Z).
  { destruct x as [n d], y as [n' d']. unfold Qeq in H. cbn in *.
    destruct (Z.ltb_spec n 0), (Z.ltb_spec n' 0); try reflexivity; nia. }
  now rewrite E.
Qed.

(** A double is what rounding it gives. *)
Lemma round_double q (H : double q = true) : round q = Fin q H.
Proof.
  destruct (double_elim q H) as (_ & Hn & Ha). unfold round. rewrite Hn.
  assert (E1 : Qle_bool (2 ^ 1024) (Qabs q) = false).
  { destruct (Qle_bool _ _) eqn:E; [|reflexivity]. apply Qle_bool_iff in E. lra. }
  assert (E2 : ((Qnum q =? 0)%Z && (Qnum q <? 0)%Z) = false).
  { destruct (Z.eqb_spec (Qnum q) 0) as [->|]; reflexivity. }
  rewrite E1, E2. destruct (finite_double q H) as [H' ->]. apply Fin_eq.
Qed.

Lemma pow2_1024_large z : (Z.abs z <= 2 ^ 53)%Z -> Qabs (inject_Z z) < 2 ^ 1024.
Proof.
  intros H. rewrite Qabs_inject_Z. rewrite Zle_Qle in H.
  rewrite (pow2_Z 53) in H by lia. pose proof (pow2_lt 53 1024 ltac:(lia)). lra.
Qed.

Lemma Qred_inject_Z z : Qred (inject_Z z) = inject_Z z.
Proof. apply Qred_iff. cbn. apply Z.gcd_1_r. Qed.

(** The integers up to [2^53] are doubles. *)
Lemma integer_double z : (Z.abs z <= 2 ^ 53)%Z -> double (inject_Z z) = true.
Proof.
  intros Hz. apply double_intro; [apply Qred_inject_Z | | now apply pow2_1024_large].
  destruct (Z.eq_dec z 0%Z) as [->|Hz0]; [reflexivity|].
  assert (Hs : inject_Z z == inject_Z z * 2 ^ 0) by (change (2 ^ 0) with 1; ring).
  assert (Hu : ulp_exponent (inject_Z z) = (Z.log2 (Z.abs z) - 52)%Z).
  { rewrite (ulp_exponent_comp _ _ Hs), ulp_exponent_scaled by exact Hz0.
    pose proof (Z.log2_nonneg (Z.abs z)). lia. }
  assert (A53 : (Z.log2 (Z.abs z) <= 53)%Z).
  { change 53%Z with (Z.log2 (2 ^ 53)). now apply Z.log2_le_mono. }
  destruct (Z.eq_dec (Z.log2 (Z.abs z)) 53%Z) as [A|A].
  - assert (Em : Z.abs z = (2 ^ 53)%Z).
    { pose proof (Z.log2_spec (Z.abs z) ltac:(lia)) as [L1 _]. rewrite A in L1. lia. }
    apply (nearest_grid _ (z / 2)). rewrite Hu, A. change (2 ^ (53 - 52)) with 2.
    assert (E2 : z = (2 * (z / 2))%Z).
    { destruct (Z.abs_eq_or_opp z) as [E|E]; rewrite Em in E.
      - rewrite <- E. reflexivity.
      - assert (z = (- 2 ^ 53)%Z) as -> by lia. reflexivity. }
    rewrite E2 at 1. rewrite inject_Z_mult. change (inject_Z 2) with 2. ring.
  - set (a := Z.log2 (Z.abs z)) in *.
    apply (nearest_grid _ (z * 2 ^ (52 - a))). rewrite Hu.
    rewrite inject_Z_mult, pow2_Z by lia.
    rewrite <- Qmult_assoc, <- pow2_add. replace (52 - a + (a - 52))%Z with 0%Z by lia.
    change (2 ^ 0) with 1. ring.
Qed.

Lemma ofZ_Fin z (H : double (inject_Z z) = true) : ofZ z = Fin (inject_Z z) H.
Proof. apply round_double. Qed.

Lemma ofZ_integer z : (Z.abs z <= 2 ^ 53)%Z -> exists H, ofZ z = Fin (inject_Z z) H.
Proof. intros Hz. exists (integer_double z Hz). apply ofZ_Fin. Qed.

Lemma Qmult_lt_reg_pos a b c : 0 < c -> c * a < c * b -> a < b.
Proof. intros Hc H. now apply (Qmult_lt_l a b c Hc). Qed.

(** The quotient of two integers below [2^53], the first not a multiple of
    the second, rounds to a number above the integer part and up to the next
    integer. *)
Lemma nearest_quotient (q p : Z) :
  (1 <= q < 2 ^ 53)%Z -> (1 <= p < 2 ^ 53)%Z -> (q mod p <> 0)%Z ->
  inject_Z (q / p) < nearest (inject_Z q / inject_Z p)
  /\ nearest (inject_Z q / inject_Z p) <= inject_Z (q / p + 1)
  /\ inject_Z (q / p) < inject_Z q / inject_Z p
  /\ inject_Z q / inject_Z p <= inject_Z (q / p + 1).
Proof.
  intros Hq Hp Hr.
  set (k := (q / p)%Z). set (r := (q mod p)%Z).
  assert (Hqk : q = (p * k + r)%Z) by (apply Z.div_mod; lia).
  assert (Hr' : (1 <= r < p)%Z) by (pose proof (Z.mod_pos_bound q p ltac:(lia)); lia).
  assert (Hk : (0 <= k)%Z) by (apply Z.div_pos; lia).
  set (x := inject_Z q / inject_Z p).
  assert (Pp : 0 < inject_Z p) by (rewrite <- (Zlt_Qlt 0); lia).
  assert (Pq1 : 1 <= inject_Z q) by (rewrite <- (Zle_Qle 1); lia).
  assert (Pq2 : inject_Z q < 2 ^ 53).
  { rewrite <- (pow2_Z 53) by lia. rewrite <- Zlt_Qlt. lia. }
  assert (Pp2 : inject_Z p < 2 ^ 53).
  { rewrite <- (pow2_Z 53) by lia. rewrite <- Zlt_Qlt. lia. }
  assert (Pp1 : 1 <= inject_Z p) by (rewrite <- (Zle_Qle 1); lia).
  assert (Pr1 : 1 <= inject_Z r) by (rewrite <- (Zle_Qle 1); lia).
  assert (Hxp : x * inject_Z p == inject_Z q) by (subst x; field; lra).
  assert (Hxk : x * inject_Z p == inject_Z k * inject_Z p + inject_Z r).
  { rewrite Hxp, Hqk, inject_Z_plus, inject_Z_mult. ring. }
  assert (Px : 0 < x) by (subst x; apply Qlt_shift_div_l; lra).
  assert (Ax : Qabs x == x) by (apply Qabs_pos; lra).
  assert (Xk : inject_Z k < x).
  { apply (Qmult_lt_reg_pos _ _ (inject_Z p) Pp). lra. }
  assert (Xk1 : x < inject_Z (k + 1)).
  { apply (Qmult_lt_reg_pos _ _ (inject_Z p) Pp). rewrite inject_Z_plus.
    change (inject_Z 1) with 1. assert (inject_Z r < inject_Z p) by (rewrite <- Zlt_Qlt; lia).
    lra. }
  destruct (Qlog2_spec (Qabs x) ltac:(lra)) as [S1 S2].
  set (e := Qlog2 (Qabs x)) in *.
  assert (Xq : x <= inject_Z q).
  { subst x. apply Qle_shift_div_r; [exact Pp|]. nra. }
  assert (E1 : (e < 53)%Z).
  { apply (Qpower_lt_compat_l_inv 2); [lra | reflexivity]. }
  assert (Xlow : 2 ^ (-53) < x).
  { change (2 ^ (-53)) with (/ 2 ^ 53). apply Qlt_shift_inv_r; [apply pow2_pos|].
    assert (x * inject_Z p < x * 2 ^ 53) by (apply Qmult_lt_l; lra). lra. }
  assert (E2 : (-53 < e + 1)%Z).
  { apply (Qpower_lt_compat_l_inv 2); [lra | reflexivity]. }
  assert (Hu : ulp_exponent x = (e - 52)%Z) by (unfold ulp_exponent; fold e; lia).
  set (u := (e - 52)%Z) in *.
  set (w := (2 ^ (- u))%Z).
  assert (Hw : inject_Z w == 2 ^ (- u)) by (subst w; apply pow2_Z; lia).
  assert (Pw : 0 < inject_Z w) by (rewrite Hw; apply pow2_pos).
  assert (Wu : inject_Z w * 2 ^ u == 1) by (rewrite Hw; apply pow2_inv_l).
  assert (Hs : x / 2 ^ u == x * inject_Z w).
  { pose proof (pow2_pos u). rewrite <- (Qmult_1_r (x / 2 ^ u)), <- Wu. field. lra. }
  assert (Hp2w : inject_Z p < 2 * inject_Z w).
  { apply (Qmult_lt_reg_pos _ _ (2 ^ e) (pow2_pos e)).
    assert (T : 2 ^ e * (2 * inject_Z w) == 2 ^ 53).
    { rewrite Hw. setoid_replace (2 ^ e * (2 * 2 ^ (- u))) with (2 ^ e * 2 ^ 1 * 2 ^ (- u)) using relation Qeq
        by (change (2 ^ 1) with 2; ring).
      rewrite <- !pow2_add. now replace (e + 1 + - u)%Z with 53%Z by lia. }
    rewrite T. assert (2 ^ e * inject_Z p <= x * inject_Z p).
    { apply Qmult_le_compat_r; lra. }
    lra. }
  pose proof (nearest_eq x) as Hv. rewrite Hu in Hv.
  set (m := rne (x / 2 ^ u)) in *.
  assert (M1 : (k * w + 1 <= m)%Z).
  { subst m. apply rne_above_half. rewrite Hs, inject_Z_mult.
    apply (Qmult_lt_reg_pos _ _ (inject_Z p) Pp).
    setoid_replace (inject_Z p * (x * inject_Z w)) with (x * inject_Z p * inject_Z w) using relation Qeq by ring.
    rewrite Hxk. nra. }
  assert (M2 : (m <= (k + 1) * w)%Z).
  { subst m. apply rne_le. rewrite Hs, inject_Z_mult.
    apply Qmult_le_compat_r; lra. }
  rewrite Zle_Qle in M1, M2. rewrite inject_Z_plus, inject_Z_mult in M1.
  rewrite inject_Z_mult in M2. change (inject_Z 1) with 1 in M1.
  pose proof (pow2_pos u) as Pu.
  split; [|split; [|split; [exact Xk | lra]]]; rewrite Hv.
  - apply Qlt_le_trans with ((inject_Z k * inject_Z w + 1) * 2 ^ u).
    + setoid_replace ((inject_Z k * inject_Z w + 1) * 2 ^ u)
        with (inject_Z k * (inject_Z w * 2 ^ u) + 2 ^ u) using relation Qeq by ring.
      rewrite Wu. lra.
    + apply Qmult_le_compat_r; lra.
  - apply Qle_trans with (inject_Z (k + 1) * inject_Z w * 2 ^ u).
    + apply Qmult_le_compat_r; lra.
    + rewrite <- Qmult_assoc, Wu. lra.
Qed.

Lemma Qceiling_between k y : inject_Z k < y -> y <= inject_Z (k + 1) -> Qceiling y = (k + 1)%Z.
Proof.
  intros H1 H2. pose proof (Qle_ceiling y) as C1.
  apply Qceiling_resp_le in H2. rewrite Qceiling_Z in H2.
  assert (C2 : (k < Qceiling y)%Z) by (rewrite Zlt_Qlt; lra). lia.
Qed.

Lemma round_positive x (H : double (nearest x) = true) :
  0 < nearest x -> round x = Fin (nearest x) H.
Proof.
  intros Hv. destruct (double_elim _ H) as (_ & _ & Ha). unfold round.
  assert (E1 : Qle_bool (2 ^ 1024) (Qabs (nearest x)) = false).
  { destruct (Qle_bool _ _) eqn:E; [|reflexivity]. apply Qle_bool_iff in E. lra. }
  assert (E2 : (Qnum (nearest x) =? 0)%Z = false).
  { apply Z.eqb_neq. intros E. destruct (nearest x) as [n d]. cbn in E. subst n.
    unfold Qlt in Hv. cbn in Hv. lia. }
  rewrite E1, E2. cbn [andb]. destruct (finite_double _ H) as [H' ->]. apply Fin_eq.
Qed.

(** [Math.ceil(q / p)] is the ceiling of the quotient for integers below
    [2^53]. *)
Lemma ceil_div_integers (q p : Z) :
  (0 <= q < 2 ^ 53)%Z -> (1 <= p < 2 ^ 53)%Z ->
  Math_ceil (num_div (ofZ q) (ofZ p)) = ofZ (Qceiling (inject_Z q / inject_Z p)).
Proof.
  intros Hq Hp.
  destruct (ofZ_integer q ltac:(lia)) as [Dq ->].
  destruct (ofZ_integer p ltac:(lia)) as [Dp ->].
  assert (Pp : 0 < inject_Z p) by (rewrite <- (Zlt_Qlt 0); lia).
  unfold num_div. cbn [zero negative Qnum inject_Z].
  destruct (Z.eqb_spec p 0) as [?|_]; [lia|].
  destruct (Z.eqb_spec q 0) as [->|Hq0].
  - cbn [orb]. assert (E : (p <? 0)%Z = false) by (apply Z.ltb_ge; lia). rewrite E.
    assert (C : inject_Z 0 / inject_Z p == inject_Z 0) by (field; lra).
    rewrite (Qceiling_comp _ _ C), Qceiling_Z. reflexivity.
  - destruct (Z.eq_dec (q mod p) 0%Z) as [Hr|Hr].
    + assert (Hqk : q = (p * (q / p))%Z) by (pose proof (Z.div_mod q p ltac:(lia)); lia).
      set (k := (q / p)%Z) in *.
      assert (Hk : (1 <= k < 2 ^ 53)%Z) by nia.
      assert (C : inject_Z q / inject_Z p == inject_Z k).
      { rewrite Hqk at 1. rewrite inject_Z_mult. field. lra. }
      rewrite (round_comp _ _ C), (Qceiling_comp _ _ C), Qceiling_Z.
      fold (ofZ k). destruct (ofZ_integer k ltac:(lia)) as [Dk ->].
      cbn [Math_ceil]. rewrite Qceiling_Z.
      destruct (Z.eqb_spec k 0) as [?|_]; [lia | apply ofZ_Fin].
    + destruct (nearest_quotient q p ltac:(lia) Hp Hr) as (V1 & V2 & X1 & X2).
      set (x := inject_Z q / inject_Z p) in *. set (k := (q / p)%Z) in *.
      assert (Hk : (0 <= k < 2 ^ 53)%Z).
      { split; [apply Z.div_pos; lia|]. apply Z.div_lt_upper_bound; nia. }
      assert (V0 : 0 < nearest x).
      { assert (0 <= inject_Z k) by (rewrite <- (Zle_Qle 0); lia). lra. }
      assert (Dv : double (nearest x) = true).
      { apply nearest_double. rewrite Qabs_pos by lra.
        pose proof (pow2_1024_large (k + 1) ltac:(lia)) as L.
        rewrite Qabs_inject_Z, Z.abs_eq in L by lia. lra. }
      rewrite (round_positive x Dv V0). cbn [Math_ceil].
      rewrite (Qceiling_between k _ V1 V2), (Qceiling_between k x X1 X2).
      destruct (Z.eqb_spec (k + 1) 0) as [?|_]; [lia | reflexivity].
Qed.


(** The only double with numerator 0 is the positive zero. *)
Lemma double_zero q : double q = true -> Qnum q = 0%Z -> q = 0.
Proof.
  intros H Hq. destruct (double_elim q H) as (Hr & _ & _).
  destruct q as [n d]. cbn in Hq. subst n. rewrite <- Hr. reflexivity.
Qed.

Lemma ofZ_0 : exists H, ofZ 0 = Fin 0 H.
Proof. exact (ofZ_integer 0 ltac:(lia)). Qed.

Lemma ofZ_2 : exists H, ofZ 2 = Fin (inject_Z 2) H.
Proof. exact (ofZ_integer 2 ltac:(lia)). Qed.

(** [0 + x] is [x], and the positive zero for the negative one. *)
Lemma num_add_0_l (x : number) :
  num_add (ofZ 0) x = match x with NegZero => ofZ 0 | _ => x end.
Proof.
  destruct ofZ_0 as [H0 E0]. rewrite E0.
  destruct x as [q H| | |]; try reflexivity. cbn [num_add].
  assert (E : 0 + q == q) by ring. rewrite (round_comp _ _ E). apply round_double.
Qed.

(** Adding a number twice to 0 gives twice what adding it once gives. *)
Lemma num_add_twice (x : number) :
  num_add (num_add (ofZ 0) x) x = num_mul (ofZ 2) (num_add (ofZ 0) x).
Proof.
  rewrite num_add_0_l. destruct ofZ_0 as [H0 E0]. destruct ofZ_2 as [H2 E2].
  destruct x as [q H| |s|]; rewrite ?E2.
  - cbn [num_add num_mul zero negative Qnum inject_Z]. cbn [Z.eqb orb Z.ltb Z.compare xorb].
    destruct (Z.eqb_spec (Qnum q) 0) as [Hq|Hq].
    + rewrite (double_zero q H Hq). cbn [Qnum Z.ltb Z.compare signed_zero].
      assert (E : 0 + 0 == inject_Z 0) by reflexivity. now rewrite (round_comp _ _ E).
    + apply round_comp. change (inject_Z 2) with 2. ring.
  - rewrite E0. cbn. symmetry. exact E0.
  - cbn. now rewrite Bool.eqb_reflx.
  - reflexivity.
Qed.


(** A double is a multiple of [2^-1074]. *)
Lemma double_grid q : double q = true -> exists k : Z, q == inject_Z k * 2 ^ (-1074).
Proof.
  intros H. destruct (double_elim q H) as (_ & Hn & _).
  pose proof (nearest_eq q) as E. rewrite Hn in E.
  destruct (ulp_exponent_ge q) as [U _]. set (u := ulp_exponent q) in *.
  set (m := rne (q / 2 ^ u)) in *.
  exists (m * 2 ^ (u + 1074))%Z.
  rewrite inject_Z_mult, pow2_Z by lia.
  assert (P : 2 ^ u == 2 ^ (u + 1074) * 2 ^ (-1074)).
  { rewrite <- pow2_add. replace (u + 1074 + -1074)%Z with u by lia. reflexivity. }
  rewrite E, P. ring.
Qed.

Lemma finite_not_NegZero v : finite v <> NegZero.
Proof.
  unfold finite.
  assert (G : forall b (e : double v = b), finite_if v b e <> NegZero)
    by (intros b e; destruct b; discriminate).
  apply G.
Qed.

(** The sum of two doubles is a multiple of [2^-1074]: it does not round to
    the negative zero. *)
Lemma add_not_NegZero x y :
  double x = true -> double y = true -> round (x + y) <> NegZero.
Proof.
  intros Hx Hy. unfold round.
  destruct (Qle_bool _ _); [discriminate|].
  destruct ((Qnum (nearest (x + y)) =? 0)%Z && (Qnum (x + y) <? 0)%Z) eqn:E;
    [|apply finite_not_NegZero].
  exfalso. apply andb_true_iff in E as [E1 E2].
  apply Z.eqb_eq in E1. apply Z.ltb_lt in E2.
  assert (Zneg : x + y < 0).
  { clear E1. revert E2. generalize (x + y). intros [n d] E2.
    unfold Qlt. cbn in *. lia. }
  set (z := x + y) in *.
  destruct (double_grid x Hx) as [kx Gx]. destruct (double_grid y Hy) as [ky Gy].
  assert (Gz : z == inject_Z (kx + ky) * 2 ^ (-1074)).
  { unfold z. rewrite Gx, Gy, inject_Z_plus. ring. }
  pose proof (pow2_pos (-1074)) as P.
  assert (K : (kx + ky <= -1)%Z).
  { destruct (Z_le_gt_dec 0 (kx + ky)) as [L|L]; [|lia]. exfalso.
    assert (N : 0 <= inject_Z (kx + ky)) by (change 0 with (inject_Z 0); now rewrite <- Zle_Qle).
    pose proof (Qmult_le_0_compat _ _ N (Qlt_le_weak _ _ P)). lra. }
  assert (B : z <= - 2 ^ (-1074)).
  { rewrite Gz.
    assert (N : inject_Z (kx + ky) <= inject_Z (-1)) by now rewrite <- Zle_Qle.
    pose proof (Qmult_le_compat_r _ _ (2 ^ (-1074)) N (Qlt_le_weak _ _ P)) as M.
    change (inject_Z (-1)) with (-(1)) in M. lra. }
  assert (A : Qabs z == - z) by (apply Qabs_neg; lra).
  set (u := ulp_exponent z).
  pose proof (pow2_pos u) as Pu.
  assert (C : z <= - 2 ^ u).
  { unfold u, ulp_exponent. destruct (Z.max_spec (Qlog2 (Qabs z)) (-1022)) as [[L ->]|[L ->]].
    - exact B.
    - assert (Pz : 0 < Qabs z) by lra.
      destruct (Qlog2_spec _ Pz) as [S1 _].
      pose proof (pow2_le (Qlog2 (Qabs z) - 52) (Qlog2 (Qabs z)) ltac:(lia)). lra. }
  assert (M : (rne (z / 2 ^ u) <= -1)%Z).
  { apply rne_le. apply Qle_shift_div_r; [exact Pu|].
    change (inject_Z (-1)) with (-(1)). lra. }
  pose proof (nearest_eq z) as N. fold u in N.
  assert (V : nearest z == 0).
  { destruct (nearest z) as [n d]. cbn in E1. subst n. reflexivity. }
  rewrite V in N.
  assert (N' : inject_Z (rne (z / 2 ^ u)) <= inject_Z (-1)) by now rewrite <- Zle_Qle.
  pose proof (Qmult_le_compat_r _ _ (2 ^ u) N' (Qlt_le_weak _ _ Pu)) as M'.
  change (inject_Z (-1)) with (-(1)) in M'. lra.
Qed.

(** Adding a finite number to a number that is not the negative zero does
    not give the negative zero. *)
Lemma num_add_not_NegZero (a b : number) :
  a <> NegZero -> num_add a b <> NegZero.
Proof.
  intros Ha. destruct a as [x Hx| |s|]; destruct b as [y Hy| |t|];
    try discriminate; try congruence; cbn [num_add].
  - now apply add_not_NegZero.
  - destruct (Bool.eqb s t); discriminate.
Qed.

(** Adding the positive zero or the negative one to a number that is not
    the negative zero gives the same. *)
Lemma num_add_zeros (a : number) :
  a <> NegZero -> num_add a (ofZ 0) = num_add a NegZero.
Proof.
  intros Ha. destruct ofZ_0 as [H0 ->].
  destruct a as [x Hx| |s|]; try reflexivity; [|congruence].
  cbn [num_add]. assert (E : x + 0 == x) by ring.
  rewrite (round_comp _ _ E). apply round_double.
Qed.

End DoubleArithmetic.

(** ** Upper-casing *)

Lemma caseTable_closed : table_closed caseTable = true.
Proof. vm_compute. reflexivity. Qed.

Lemma assoc_In c t u : assoc c t = Some u -> In (c, u) t.
Proof.
  induction t as [|[k v] t IH]; simpl; [discriminate|].
  destruct (N.eqb_spec k c) as [->|_]; [intros [= ->]; now left | right; auto].
Qed.

Lemma closed_table_image (t : list (N * list N)) :
  table_closed t = true ->
  forall c u d, assoc c t = Some u -> In d u -> assoc d t = None.
Proof.
  unfold table_closed. intros H c u d E Hd. apply assoc_In in E.
  rewrite forallb_forall in H. specialize (H _ E). cbn [snd] in H.
  rewrite forallb_forall in H. specialize (H _ Hd).
  now apply bool_decide_eq_true in H.
Qed.

(** An image of [toUppercase] consists of code points that are their own
    image. *)
Lemma toUppercase_image c d : In d (toUppercase c) -> toUppercase d = [d].
Proof.
  unfold toUppercase at 1.
  destruct (assoc c caseTable) as [u|] eqn:E.
  - intros Hd. unfold toUppercase.
    rewrite (closed_table_image caseTable caseTable_closed c u d E Hd).
    reflexivity.
  - intros [<-|[]]. unfold toUppercase. rewrite E. reflexivity.
Qed.

Lemma toUpperCase_fixed s : Forall upper_fixed s -> toUpperCase s = s.
Proof.
  induction 1 as [|c s Hc _ IH]; [reflexivity|].
  unfold toUpperCase in *. simpl. rewrite Hc, IH. reflexivity.
Qed.

Lemma toUpperCase_upper s : Forall upper_fixed (toUpperCase s).
Proof.
  apply List.Forall_forall. intros d Hd. unfold toUpperCase in Hd.
  apply in_flat_map in Hd as (c & _ & Hd). exact (toUppercase_image c d Hd).
Qed.

(** ** Global replacement *)

(** With a pattern and a replacement of one character each, global
    replacement acts character by character. *)
Lemma replace_g_single g e s :
  replace_g [g] [e] s = map (fun c => if g =? c then e else c) s.
Proof.
  unfold replace_g. induction s as [|c s IH]; [reflexivity|].
  cbn [replace_from startsWith map length Nat.sub].
  destruct (g =? c); cbn; now rewrite IH.
Qed.

Lemma substitute_single table s :
  Forall single_chars table -> substitute table s = map (subst_char table) s.
Proof.
  intros H. revert s. induction H as [|[g e] table [Hg He] _ IH]; intros s.
  - cbn. now rewrite map_id.
  - destruct g as [|g [|]]; try discriminate. destruct e as [|e [|]]; try discriminate.
    unfold substitute in *. cbn [fold_left]. rewrite IH, replace_g_single, map_map.
    reflexivity.
Qed.

(** A character leaves the table unchanged or as one of the replacements. *)
Lemma subst_char_cases table c :
  subst_char table c = c \/ In [subst_char table c] (map snd table).
Proof.
  revert c. induction table as [|[g e] table IH]; intros c; [now left|].
  unfold subst_char in *. cbn [fold_left map snd].
  destruct (IH (char_step (g, e) c)) as [H|H]; [|right; now right].
  rewrite H. unfold char_step.
  destruct g as [|g [|]]; auto. destruct e as [|e [|]]; auto.
  destruct (g =? c); [right; now left | now left].
Qed.

Lemma greekToEnglish_decoded_single : Forall single_chars greekToEnglish_decoded.
Proof. repeat constructor. Qed.

Lemma greekToEnglish_decoded_stable : replacement_stable greekToEnglish_decoded = true.
Proof. vm_compute. reflexivity. Qed.

Lemma replacement_stable_In table e :
  replacement_stable table = true -> In [e] (map snd table) ->
  upper_fixed e /\ subst_char table e = e.
Proof.
  unfold replacement_stable. rewrite forallb_forall. intros H He.
  specialize (H _ He). apply bool_decide_eq_true in H as [Hu Hs].
  unfold toUpperCase in Hu. cbn [flat_map] in Hu. rewrite app_nil_r in Hu.
  cbn [map] in Hs. split; [exact Hu | congruence].
Qed.

Section SingleCharacterTable.
Variable table : list (jsstring * jsstring).
Hypothesis table_single : Forall single_chars table.
Hypothesis table_stable : replacement_stable table = true.

Lemma subst_char_idem c : subst_char table (subst_char table c) = subst_char table c.
Proof.
  destruct (subst_char_cases table c) as [H|H]; [now rewrite !H|].
  now apply (replacement_stable_In table).
Qed.

Lemma subst_char_upper c : upper_fixed c -> upper_fixed (subst_char table c).
Proof.
  intros Hc. destruct (subst_char_cases table c) as [H|H]; [now rewrite H|].
  now apply (replacement_stable_In table).
Qed.

Lemma normalizeSku_with_string s :
  normalizeSku_with table (VStr s) = Ok (map (subst_char table) (toUpperCase s)).
Proof.
  unfold normalizeSku_with. destruct s as [|c s]; [reflexivity|].
  cbn [truthy negb]. now rewrite substitute_single.
Qed.

Lemma normalizeSku_with_idem s :
  let n := map (subst_char table) (toUpperCase s) in
  normalizeSku_with table (VStr n) = Ok n.
Proof.
  intros n. rewrite normalizeSku_with_string. f_equal.
  rewrite toUpperCase_fixed.
  - subst n. rewrite map_map. apply map_ext. intros c. apply subst_char_idem.
  - subst n. apply List.Forall_forall. intros d Hd.
    apply in_map_iff in Hd as (c & <- & Hc). apply subst_char_upper.
    pose proof (toUpperCase_upper s) as H. rewrite List.Forall_forall in H. auto.
Qed.
End SingleCharacterTable.


(** ** The table with two-character keys *)


Lemma replace_g_absent pat rep s : occurs pat s = false -> replace_g pat rep s = s.
Proof.
  unfold replace_g. induction s as [|c s IH]; [reflexivity|].
  cbn [occurs replace_from]. intros H. apply orb_false_iff in H as [H1 H2].
  rewrite H1. f_equal. auto.
Qed.

Lemma replace_from_Forall (P : N -> Prop) pat rep s k :
  Forall P rep -> Forall P s -> Forall P (replace_from pat rep k s).
Proof.
  intros Hr Hs. revert k. induction Hs as [|c s Hc Hs IH]; intros k; [constructor|].
  cbn [replace_from]. destruct k; [|apply IH].
  destruct (startsWith pat (c :: s)).
  - apply Forall_app. split; [exact Hr | apply IH].
  - constructor; [exact Hc | apply IH].
Qed.

(** A key whose second character has an upper-case image other than itself
    does not occur in an upper-cased string. *)
Lemma occurs_lower a x s :
  ~ upper_fixed x -> Forall upper_fixed s -> occurs [a; x] s = false.
Proof.
  intros Hx Hs. induction Hs as [|c s Hc Hs IH]; [reflexivity|].
  cbn [occurs]. rewrite IH, orb_false_r. cbn [startsWith].
  destruct (a =? c); [|reflexivity]. cbn [andb].
  destruct Hs as [|d s Hd _]; [reflexivity|].
  destruct (N.eqb_spec x d) as [->|_]; [contradiction | reflexivity].
Qed.

Section TwoCharacterKey.
Variables a b r : N.
Hypothesis r_not_a : r <> a.
Hypothesis r_not_b : r <> b.

Lemma rep_one c : replace_pair a b r [c] = [c].
Proof. unfold replace_pair, replace_g. cbn. now destruct (a =? c). Qed.

Lemma rep_two c d t :
  replace_pair a b r (c :: d :: t) = if (a =? c) && (b =? d) then r :: replace_pair a b r t else c :: replace_pair a b r (d :: t).
Proof.
  unfold replace_pair, replace_g. cbn [replace_from startsWith length Nat.sub].
  rewrite andb_true_r. destruct ((a =? c) && (b =? d)); reflexivity.
Qed.

Lemma occurs_two (p q c d : N) t :
  occurs [p; q] (c :: d :: t) = (p =? c) && (q =? d) || occurs [p; q] (d :: t).
Proof. cbn [occurs startsWith]. now rewrite andb_true_r. Qed.

Lemma occurs_one (p q c : N) : occurs [p; q] [c] = false.
Proof. cbn. now destruct (p =? c). Qed.

Lemma occurs_tail (p q c : N) t : occurs [p; q] (c :: t) = false -> occurs [p; q] t = false.
Proof. cbn [occurs]. intros H. now apply orb_false_iff in H as [_ H]. Qed.

(** The first character of the result is the replacement or the first
    character of the argument. *)
Lemma rep_head c t : exists h tl, replace_pair a b r (c :: t) = h :: tl /\ (h = r \/ h = c).
Proof.
  destruct t as [|d t]; [rewrite rep_one; eauto|].
  rewrite rep_two. destruct ((a =? c) && (b =? d)); eauto.
Qed.

(** Another two-character key that does not occur, and shares no
    character with the replacement, does not occur afterwards. *)
Lemma occurs_cons_r (p q : N) t :
  r <> p -> occurs [p; q] t = false -> occurs [p; q] (r :: t) = false.
Proof.
  intros Hp Ht. destruct t as [|e t]; [apply occurs_one|].
  rewrite occurs_two, Ht. destruct (N.eqb_spec p r); [congruence | reflexivity].
Qed.

(** Another two-character key that does not occur, and shares no
    character with the replacement, does not occur afterwards. *)
Lemma occurs_rep_other_aux (p q : N) :
  r <> p -> r <> q ->
  forall n s, (length s <= n)%nat ->
  forall c0, occurs [p; q] (c0 :: s) = false -> occurs [p; q] (c0 :: replace_pair a b r s) = false.
Proof.
  intros Hp Hq. induction n as [|n IH]; intros s Hn c0 H.
  - destruct s; [exact H | cbn [length] in *; lia].
  - destruct s as [|c [|d t]]; [exact H | now rewrite rep_one |].
    rewrite rep_two. rewrite occurs_two in H. apply orb_false_iff in H as [H1 H2].
    destruct ((a =? c) && (b =? d)).
    + rewrite occurs_two. destruct (N.eqb_spec q r); [congruence|].
      rewrite andb_false_r. cbn [orb]. apply IH; [cbn [length] in *; lia|].
      apply occurs_cons_r; [exact Hp|]. now apply occurs_tail, occurs_tail in H2.
    + rewrite occurs_two, H1. cbn [orb]. apply IH; [cbn [length] in *; lia | exact H2].
Qed.

Lemma occurs_rep_other (p q : N) s :
  r <> p -> r <> q -> occurs [p; q] s = false -> occurs [p; q] (replace_pair a b r s) = false.
Proof.
  intros Hp Hq H. apply (occurs_tail p q r).
  apply (occurs_rep_other_aux p q Hp Hq (length s)); [lia|].
  now apply occurs_cons_r.
Qed.

(** The key itself does not occur afterwards. *)
Lemma occurs_rep_self_aux :
  forall n s, (length s <= n)%nat ->
  forall c0, c0 <> a -> occurs [a; b] (c0 :: replace_pair a b r s) = false.
Proof.
  induction n as [|n IH]; intros s Hn c0 H0.
  - destruct s; [apply occurs_one | cbn [length] in *; lia].
  - destruct s as [|c [|d t]].
    + apply occurs_one.
    + rewrite rep_one, occurs_two, occurs_one.
      destruct (N.eqb_spec a c0); [congruence | reflexivity].
    + assert (Hc0 : forall tl, occurs [a; b] (c0 :: tl) = occurs [a; b] tl).
      { intros [|h tl]; [apply occurs_one|]. rewrite occurs_two.
        destruct (N.eqb_spec a c0); [congruence | reflexivity]. }
      rewrite Hc0, rep_two.
      destruct ((a =? c) && (b =? d)) eqn:E.
      * apply IH; [cbn [length] in *; lia | exact r_not_a].
      * destruct (N.eqb_spec a c) as [<-|Hc];
          [|apply IH; [cbn [length] in *; lia | congruence]].
        cbn [andb] in E. apply N.eqb_neq in E.
        assert (Hr : occurs [a; b] (replace_pair a b r (d :: t)) = false).
        { apply (occurs_tail a b r). apply IH; [cbn [length] in *; lia | exact r_not_a]. }
        destruct (rep_head d t) as (h & tl & Eh & Hh). rewrite Eh in *.
        rewrite occurs_two, Hr, orb_false_r, N.eqb_refl. cbn [andb].
        apply N.eqb_neq. destruct Hh; congruence.
Qed.

Lemma occurs_rep_self s : occurs [a; b] (replace_pair a b r s) = false.
Proof.
  apply (occurs_tail a b r), (occurs_rep_self_aux (length s)); [lia | exact r_not_a].
Qed.
End TwoCharacterKey.

Ltac not_upper_fixed := let H := fresh in intros H; vm_compute in H; discriminate.
Ltac absent_lower s :=
  rewrite (replace_g_absent _ _ s) by (apply occurs_lower; [not_upper_fixed | assumption]).

(** On an upper-cased string the loop over the two-character keys leaves a
    string that is still upper-cased and in which none of the keys is left;
    the loop leaves that string as it is. *)
Lemma substitute_upper (y : jsstring) :
  Forall upper_fixed y ->
  Forall upper_fixed (substitute greekToEnglish y)
  /\ no_key_occurs (substitute greekToEnglish y)
  /\ substitute greekToEnglish (substitute greekToEnglish y)
     = substitute greekToEnglish y.
Proof.
  intros Hy.
  assert (Hn : substitute greekToEnglish y
               = replace_g [0x152; 0x2022] (lit "Y")
                   (replace_g [0x152; 0xA7] (lit "T")
                      (replace_g [0x152; 0xB0] (lit "P") y))).
  { unfold substitute, greekToEnglish. cbn [fold_left].
    do 10 absent_lower y.
    set (y3 := replace_g [0x152; 0x2022] _ _).
    assert (H3 : Forall upper_fixed y3).
    { subst y3. unfold replace_g.
      repeat (apply replace_from_Forall; [repeat constructor|]). exact Hy. }
    now absent_lower y3. }
  rewrite Hn.
  set (y1 := replace_g [0x152; 0xB0] (lit "P") y).
  set (y2 := replace_g [0x152; 0xA7] (lit "T") y1).
  set (y3 := replace_g [0x152; 0x2022] (lit "Y") y2).
  assert (H3 : Forall upper_fixed y3).
  { subst y3 y2 y1. unfold replace_g.
    repeat (apply replace_from_Forall; [repeat constructor|]). exact Hy. }
  split; [exact H3|].
  assert (O1 : occurs [0x152; 0xB0] y3 = false).
  { subst y3 y2. do 2 (apply occurs_rep_other; try discriminate).
    apply occurs_rep_self; discriminate. }
  assert (O2 : occurs [0x152; 0xA7] y3 = false).
  { subst y3. apply occurs_rep_other; try discriminate.
    apply occurs_rep_self; discriminate. }
  assert (O3 : occurs [0x152; 0x2022] y3 = false).
  { subst y3. apply occurs_rep_self; discriminate. }
  split.
  - intros key Hin. cbn in Hin.
    repeat (destruct Hin as [<-|Hin];
            [first [exact O1 | exact O2 | exact O3
                   | apply occurs_lower; [not_upper_fixed | exact H3]]|]).
    destruct Hin.
  - unfold substitute, greekToEnglish. cbn [fold_left].
    do 10 absent_lower y3.
    rewrite (replace_g_absent _ _ y3 O1), (replace_g_absent _ _ y3 O2),
      (replace_g_absent _ _ y3 O3).
    now absent_lower y3.
Qed.

(** [normalizeSku] on a string. *)
Lemma normalizeSku_string s : normalizeSku (VStr s) = Ok (normalized_string s).
Proof.
  unfold normalizeSku, normalizeSku_with, normalized_string.
  destruct s as [|c s]; reflexivity.
Qed.

Lemma normalized_string_upper s : Forall upper_fixed (normalized_string s).
Proof. apply substitute_upper, toUpperCase_upper. Qed.

Lemma normalized_string_idem s :
  normalized_string (normalized_string s) = normalized_string s.
Proof.
  unfold normalized_string.
  destruct (substitute_upper (toUpperCase s) (toUpperCase_upper s)) as (Hu & _ & Hs).
  now rewrite (toUpperCase_fixed _ Hu).
Qed.

(** With the keys read as Greek capitals [normalizeSku] is idempotent as
    well. *)
Lemma normalizeSku_decoded_idempotent (x : jsstring) :
  exists n, normalizeSku_with greekToEnglish_decoded (VStr x) = Ok n
            /\ normalizeSku_with greekToEnglish_decoded (VStr n) = Ok n.
Proof.
  exists (map (subst_char greekToEnglish_decoded) (toUpperCase x)). split.
  - apply normalizeSku_with_string, greekToEnglish_decoded_single.
  - apply (normalizeSku_with_idem greekToEnglish_decoded greekToEnglish_decoded_single
             greekToEnglish_decoded_stable x).
Qed.


(** ** Roll-up *)

Section Rollup.
Context {RT : Runtime}.

(** What [x || d] evaluates to for a numeric field [x] and the default
    [d]. *)
Lemma js_or_field (x : option number) (d : Z) :
  js_or (field x) (field (Some (ofZ d))) = VNum (resolved x d).
Proof.
  unfold js_or, resolved. destruct x as [[q H| |s|]|]; cbn; try reflexivity.
  now destruct (Qnum q =? 0)%Z.
Qed.

(** The value used is truthy: not a zero and not [NaN]. *)
Lemma resolved_truthy (x : option number) (d : Z) :
  truthy_num (ofZ d) = true -> truthy_num (resolved x d) = true.
Proof.
  intros Hd. unfold resolved. destruct x as [[q H| |s|]|]; try assumption; [|reflexivity].
  destruct (Qnum q =? 0)%Z eqn:E; [assumption|]. cbn. now rewrite E.
Qed.

(** The five properties the callback adds, and the rest of the item. *)
Lemma piecesPerBox_resolved config :
  piecesPerBox config = VNum (resolved (pieces_per_box config) 48).
Proof. exact (js_or_field (pieces_per_box config) 48). Qed.

Lemma boxWeight_resolved config :
  boxWeight config = VNum (resolved (box_weight_kg config) 5).
Proof. exact (js_or_field (box_weight_kg config) 5). Qed.

Lemma boxLength_resolved config :
  boxLength config = VNum (resolved (box_length_cm config) 30).
Proof. exact (js_or_field (box_length_cm config) 30). Qed.

Lemma boxWidth_resolved config :
  boxWidth config = VNum (resolved (box_width_cm config) 25).
Proof. exact (js_or_field (box_width_cm config) 25). Qed.

Lemma boxHeight_resolved config :
  boxHeight config = VNum (resolved (box_height_cm config) 20).
Proof. exact (js_or_field (box_height_cm config) 20). Qed.

Lemma enrich_pieces_per_box config item :
  enrich config item !! "pieces_per_box" = Some (piecesPerBox config).
Proof. unfold enrich. now simplify_map_eq. Qed.

Lemma enrich_box_weight_kg config item :
  enrich config item !! "box_weight_kg" = Some (boxWeight config).
Proof. unfold enrich. now simplify_map_eq. Qed.

Lemma enrich_box_dimensions config item :
  enrich config item !! "box_dimensions" = Some (VStr (box_dimensions_of config)).
Proof. unfold enrich. now simplify_map_eq. Qed.

Lemma enrich_num_boxes config item :
  enrich config item !! "num_boxes" = Some (VNum (numBoxes config item)).
Proof. unfold enrich. now simplify_map_eq. Qed.

Lemma enrich_total_weight config item :
  enrich config item !! "total_weight"
  = Some (VNum (js_mul (VNum (numBoxes config item)) (boxWeight config))).
Proof. unfold enrich. now simplify_map_eq. Qed.

Lemma enrich_other config item (k : string) :
  ~ In k enrichment_fields -> enrich config item !! k = item !! k.
Proof.
  intros Hk. unfold enrich.
  rewrite !lookup_insert_ne; [reflexivity | intros <-; apply Hk; cbn; tauto ..].
Qed.
End Rollup.

(** ** Matching *)

(** The names of the inherited properties are not in upper case, so a
    normal form is none of them. *)
Lemma inherited_names_lower :
  forallb (fun e => negb (bool_decide (toUpperCase (fst e) = fst e))) objectPrototype = true.
Proof. vm_compute. reflexivity. Qed.

Lemma master_get_In (M : ProductMaster) k c : master_get M k = Some c -> In (k, c) M.
Proof.
  induction M as [|[k0 c0] M IH]; cbn; [discriminate|].
  destruct (decide (k0 = k)) as [->|_]; [intros [= ->]; now left | right; auto].
Qed.

Lemma inherited_spec k : inherited k = false <-> master_get objectPrototype k = None.
Proof.
  unfold inherited. induction objectPrototype as [|[k' c] M IH]; cbn; [tauto|].
  destruct (decide (k' = k)) as [->|Hne].
  - rewrite bool_decide_eq_true_2 by reflexivity. cbn. split; discriminate.
  - rewrite bool_decide_eq_false_2 by assumption. cbn. exact IH.
Qed.

Lemma upper_not_inherited n : Forall upper_fixed n -> master_get objectPrototype n = None.
Proof.
  intros Hn. destruct (master_get objectPrototype n) as [c|] eqn:E; [|reflexivity].
  apply master_get_In in E. pose proof inherited_names_lower as H.
  rewrite forallb_forall in H. specialize (H _ E). cbn [fst] in H.
  apply negb_true_iff, bool_decide_eq_false in H. now apply toUpperCase_fixed in Hn.
Qed.

Lemma master_lookup_normalized (M : ProductMaster) s :
  master_lookup M (normalized_string s) = master_get M (normalized_string s).
Proof.
  unfold master_lookup. destruct (master_get M _); [reflexivity|].
  apply upper_not_inherited, normalized_string_upper.
Qed.

Lemma master_lookup_own (M : ProductMaster) k c :
  master_get M k = Some c -> master_lookup M k = Some c.
Proof. intros H. unfold master_lookup. now rewrite H. Qed.

Lemma master_lookup_None (M : ProductMaster) k :
  master_lookup M k = None <-> master_get M k = None /\ inherited k = false.
Proof.
  unfold master_lookup. rewrite inherited_spec.
  destruct (master_get M k); [split; [discriminate | intros [? _]; discriminate] | tauto].
Qed.

Lemma fuzzy_scan (productMaster : ProductMaster) (n : jsstring) :
  array_find (fun '(key, _) => k ← normalizeSku (VStr key); Ok (bool_decide (k = n)))
             productMaster
  = Ok (find (same_normal_form n) productMaster).
Proof.
  induction productMaster as [|[key c] rest IH]; [reflexivity|].
  cbn [array_find find]. rewrite normalizeSku_string.
  unfold same_normal_form at 1. cbn [fst mbind result_mbind bind].
  destruct (bool_decide (normalized_string key = n)); [reflexivity | exact IH].
Qed.



Section Matching.
Context {RT : Runtime}.

(** The four tiers, for a SKU that is a string. *)
Lemma matchSku_string (productMaster : ProductMaster) (s : jsstring) :
  matchSku productMaster (VStr s)
  = Ok match master_lookup productMaster s with
       | Some c => (c, Exact)
       | None =>
           match master_get productMaster (normalized_string s) with
           | Some c => (c, Normalized)
           | None =>
               match find (same_normal_form (normalized_string s)) productMaster with
               | Some (_, c) => (c, Fuzzy)
               | None => (defaultBoxConfig, Default)
               end
           end
       end.
Proof.
  unfold matchSku. rewrite normalizeSku_string. cbn [mbind result_mbind bind ToString].
  rewrite master_lookup_normalized.
  destruct (master_lookup productMaster s) as [c|]; [reflexivity|].
  destruct (master_get productMaster (normalized_string s)) as [c|]; [reflexivity|].
  rewrite fuzzy_scan. cbn [bind].
  destruct (find _ productMaster) as [[k c]|]; reflexivity.
Qed.
End Matching.

(** ** Reconciliation *)

Section Reconcile.
Context {RT : Runtime}.

Lemma normalizeSku_ok (v : jsval) :
  not_number v = true -> exists n, normalizeSku v = Ok n.
Proof.
  destruct v as [| |n|s]; try discriminate; intros _.
  - now exists [].
  - now exists [].
  - exists (normalized_string s). apply normalizeSku_string.
Qed.

Lemma matchSku_ok (productMaster : ProductMaster) (v : jsval) :
  not_number v = true -> exists config tier, matchSku productMaster v = Ok (config, tier).
Proof.
  intros Hv. destruct (normalizeSku_ok v Hv) as [n Hn].
  unfold matchSku. rewrite Hn. cbn [mbind result_mbind bind].
  destruct (master_lookup productMaster (ToString v)); [eauto|].
  destruct (master_lookup productMaster n); [eauto|].
  rewrite fuzzy_scan. cbn [bind].
  destruct (find _ productMaster) as [[k c]|]; eauto.
Qed.

Lemma processItem_ok (productMaster : ProductMaster) (item : obj) :
  sku_ok item ->
  exists config tier,
    matchSku productMaster (get item "sku") = Ok (config, tier)
    /\ processItem productMaster item = Ok (enrich config item).
Proof.
  intros H. destruct (matchSku_ok productMaster _ H) as (config & tier & E).
  exists config, tier. split; [exact E|]. unfold processItem. now rewrite E.
Qed.

Lemma processItem_inv (productMaster : ProductMaster) (item e : obj) :
  processItem productMaster item = Ok e ->
  exists config tier,
    matchSku productMaster (get item "sku") = Ok (config, tier) /\ e = enrich config item.
Proof.
  unfold processItem. destruct (matchSku productMaster (get item "sku")) as [[c t]|] eqn:E;
    cbn; [|discriminate].
  intros [= <-]. eauto.
Qed.

(** [array_map] succeeds when the callback does on every element, and
    then pairs the elements in order. *)
Lemma array_map_Forall2 {A B} (f : A -> result B) (l : list A) (out : list B) :
  array_map f l = Ok out -> Forall2 (fun x y => f x = Ok y) l out.
Proof.
  revert out. induction l as [|x l IH]; intros out; cbn.
  - intros [= <-]. constructor.
  - destruct (f x) as [y|] eqn:E; cbn; [|discriminate].
    destruct (array_map f l) as [ys|]; cbn; [|discriminate].
    intros [= <-]. constructor; auto.
Qed.

Lemma array_map_ok {A B} (f : A -> result B) (l : list A) :
  Forall (fun x => exists y, f x = Ok y) l -> exists out, array_map f l = Ok out.
Proof.
  induction 1 as [|x l [y Hy] _ [ys IH]]; cbn; [eauto|].
  rewrite Hy, IH. cbn. eauto.
Qed.

Lemma recalculateItems_ok (productMaster : ProductMaster) ext (items : list obj) :
  Forall sku_ok items ->
  exists out, recalculateItems productMaster ext (Some items) = Ok out
              /\ Forall2 (fun item e => processItem productMaster item = Ok e) items out.
Proof.
  intros H. unfold recalculateItems.
  destruct (array_map_ok (processItem productMaster) items) as [out Hout].
  - revert H. apply List.Forall_impl. intros item Hi.
    destruct (processItem_ok productMaster item Hi) as (c & t & _ & E). eauto.
  - exists out. split; [exact Hout | now apply array_map_Forall2].
Qed.
End Reconcile.

(** ** Totals *)

Section TotalsFacts.
Context {RT : Runtime}.

Lemma totals_one e : totals [e] = addItem zeroTotals e.
Proof. reflexivity. Qed.

Lemma totals_two e1 e2 : totals [e1; e2] = addItem (addItem zeroTotals e1) e2.
Proof. reflexivity. Qed.

Lemma js_add_number (a : number) (v : jsval) :
  not_string v = true -> js_add (VNum a) v = VNum (num_add a (ToNumber v)).
Proof. destruct v; try discriminate; reflexivity. Qed.

Lemma enrich_get_other config item (k : string) :
  ~ In k enrichment_fields -> get (enrich config item) k = get item k.
Proof. intros Hk. unfold get. now rewrite enrich_other. Qed.
End TotalsFacts.

Section MissingQuantity.
Context {RT : Runtime}.

Lemma totals_fold (l : list obj) : totals l = fold_left addItem l zeroTotals.
Proof. reflexivity. Qed.

(** A column of the totals that only ever receives numbers is [NaN] as
    soon as one of them is. *)
Lemma column_nan (proj : Totals -> jsval) (k : string) (l : list obj) :
  (forall acc e, proj (addItem acc e) = js_add (proj acc) (get e k)) ->
  Forall (fun e => exists n, get e k = VNum n) l ->
  forall acc a, proj acc = VNum a ->
    a = NaN \/ Exists (fun e => get e k = VNum NaN) l ->
    proj (fold_left addItem l acc) = VNum NaN.
Proof.
  intros Hstep HF. induction HF as [|e l [n Hn] _ IH]; intros acc a Ha Hex.
  - destruct Hex as [->|Hex]; [exact Ha | inversion Hex].
  - cbn [fold_left]. apply (IH _ (num_add a n)).
    + now rewrite Hstep, Ha, Hn.
    + destruct Hex as [->|Hex]; [now left|].
      apply Exists_cons in Hex as [Hex|Hex]; [|now right].
      rewrite Hn in Hex. injection Hex as ->. left. now destruct a.
Qed.

Lemma numBoxes_missing_quantity config item :
  get item "quantity" = VUndefined -> numBoxes config item = NaN.
Proof. intros H. unfold numBoxes, js_div. now rewrite H. Qed.
End MissingQuantity.


(** ** The properties *)

Section RollupFacts.
Context {RT : Runtime}.

Lemma get_num_boxes config item :
  get (enrich config item) "num_boxes"
  = VNum (Math_ceil (num_div (ToNumber (get item "quantity"))
                             (resolved (pieces_per_box config) 48))).
Proof.
  unfold get. rewrite enrich_num_boxes. unfold numBoxes, js_div.
  now rewrite piecesPerBox_resolved.
Qed.

Lemma get_total_weight config item :
  get (enrich config item) "total_weight"
  = VNum (num_mul (Math_ceil (num_div (ToNumber (get item "quantity"))
                                      (resolved (pieces_per_box config) 48)))
                  (resolved (box_weight_kg config) 5)).
Proof.
  unfold get. rewrite enrich_total_weight. unfold js_mul, numBoxes, js_div.
  now rewrite piecesPerBox_resolved, boxWeight_resolved.
Qed.

(** 0 divided by a truthy number is a zero, and so is its ceiling. *)
Lemma ceil_zero_div (p : number) :
  truthy_num p = true ->
  Math_ceil (num_div (ofZ 0) p) = NegZero \/ Math_ceil (num_div (ofZ 0) p) = ofZ 0.
Proof.
  destruct ofZ_0 as [H0 E0]. rewrite E0.
  destruct p as [y Hy| |s|]; try discriminate; cbn [truthy_num num_div zero negative Qnum].
  - intros Hp. apply negb_true_iff in Hp. rewrite Hp. cbn [Z.eqb Z.ltb Z.compare xorb].
    destruct (Qnum y <? 0)%Z; cbn [signed_zero Math_ceil]; [now left|].
    right. rewrite E0. cbn [Math_ceil]. exact E0.
  - intros _. cbn [Z.ltb Z.compare xorb].
    destruct s; cbn [signed_zero Math_ceil]; [now left|].
    right. rewrite E0. cbn [Math_ceil]. exact E0.
Qed.

(** A zero times a finite number is a zero. *)
Lemma zero_mul_finite (z w : number) :
  z = NegZero \/ z = ofZ 0 -> finite_number w = true ->
  num_mul z w = NegZero \/ num_mul z w = ofZ 0.
Proof.
  destruct ofZ_0 as [H0 E0]. rewrite !E0. intros [->| ->] Hw;
    destruct w as [y Hy| |s|]; try discriminate; cbn [num_mul zero negative Qnum Z.eqb orb];
    rewrite ?orb_true_r;
    match goal with |- context [signed_zero ?b] => destruct b end;
    cbn [signed_zero]; rewrite ?E0; auto.
Qed.

Lemma zero_is_zero (z : number) :
  z = NegZero \/ z = ofZ 0 -> is_zero (VNum z) = true.
Proof.
  unfold is_zero. destruct ofZ_0 as [H0 E0]. rewrite !E0. now intros [->| ->].
Qed.
End RollupFacts.

(** C1.  For every configuration and every item whose quantity is a
    non-negative integer [q], [num_boxes] is [Math.ceil] of [q] divided by the
    resolved [pieces_per_box], and [total_weight] is [num_boxes] times the
    resolved [box_weight_kg], both in double arithmetic.  When the resolved
    [pieces_per_box] is a positive integer and both it and [q] are below
    [2^53], [num_boxes] is exactly the ceiling of the quotient.  For [q = 0],
    [num_boxes] is 0, and so is [total_weight] for a finite box weight; 100
    pieces at 48 per box make 3 boxes. *)
Theorem rollup_boxes_and_weight `{RT : Runtime} (config : ProductConfig) (item : obj) (q : N) :
  get item "quantity" = VNum (ofZ (Z.of_N q)) ->
  get (enrich config item) "num_boxes"
  = VNum (Math_ceil (num_div (ofZ (Z.of_N q)) (resolved (pieces_per_box config) 48)))
  /\ get (enrich config item) "total_weight"
     = VNum (num_mul (Math_ceil (num_div (ofZ (Z.of_N q))
                                         (resolved (pieces_per_box config) 48)))
                     (resolved (box_weight_kg config) 5))
  /\ (forall p : Z,
        (1 <= p < 2 ^ 53)%Z -> (Z.of_N q < 2 ^ 53)%Z ->
        resolved (pieces_per_box config) 48 = ofZ p ->
        exists n : Z,
          is_ceiling n (inject_Z (Z.of_N q) / inject_Z p)
          /\ get (enrich config item) "num_boxes" = VNum (ofZ n)
          /\ get (enrich config item) "total_weight"
             = VNum (num_mul (ofZ n) (resolved (box_weight_kg config) 5)))
  /\ (q = 0 ->
        is_zero (get (enrich config item) "num_boxes") = true
        /\ (finite_number (resolved (box_weight_kg config) 5) = true ->
            is_zero (get (enrich config item) "total_weight") = true))
  /\ (q = 100 -> resolved (pieces_per_box config) 48 = ofZ 48 ->
        get (enrich config item) "num_boxes" = VNum (ofZ 3)).
Proof.
  intros Hq. rewrite get_num_boxes, get_total_weight, Hq. cbn [ToNumber].
  split; [reflexivity|]. split; [reflexivity|]. split; [|split].
  - intros p Hp Hq53 Ep. rewrite Ep.
    rewrite (ceil_div_integers (Z.of_N q) p) by lia.
    exists (Qceiling (inject_Z (Z.of_N q) / inject_Z p)).
    split; [|split; reflexivity].
    split; [apply Qceiling_lt | apply Qle_ceiling].
  - intros ->. change (Z.of_N 0) with 0%Z.
    assert (Hp : truthy_num (resolved (pieces_per_box config) 48) = true)
      by (apply resolved_truthy; vm_compute; reflexivity).
    pose proof (ceil_zero_div _ Hp) as Hz.
    split; [now apply zero_is_zero|].
    intros Hw. apply zero_is_zero. now apply zero_mul_finite.
  - intros -> ->. vm_compute. reflexivity.
Qed.

(** C2, as the code has it.  For every configuration, each of the five
    numeric fields that is absent, [NaN] or a zero is replaced, whatever the
    other fields hold, by the value of the default configuration (48, 5, 30,
    25, 20) before the roll-up is computed; any other value of the field, a
    positive one and a negative one alike, is used as it is. *)
Theorem rollup_uses_resolved_fields `{RT : Runtime} (config : ProductConfig) (item : obj) :
  piecesPerBox config = VNum (resolved (pieces_per_box config) 48)
  /\ boxWeight config = VNum (resolved (box_weight_kg config) 5)
  /\ boxLength config = VNum (resolved (box_length_cm config) 30)
  /\ boxWidth config = VNum (resolved (box_width_cm config) 25)
  /\ boxHeight config = VNum (resolved (box_height_cm config) 20)
  /\ get (enrich config item) "pieces_per_box"
     = VNum (resolved (pieces_per_box config) 48)
  /\ get (enrich config item) "box_weight_kg"
     = VNum (resolved (box_weight_kg config) 5)
  /\ get (enrich config item) "box_dimensions"
     = VStr (NumberToString (resolved (box_length_cm config) 30) ++ dimensionSeparator
             ++ NumberToString (resolved (box_width_cm config) 25) ++ dimensionSeparator
             ++ NumberToString (resolved (box_height_cm config) 20))
  /\ get (enrich config item) "num_boxes"
     = VNum (Math_ceil (num_div (ToNumber (get item "quantity"))
                                (resolved (pieces_per_box config) 48)))
  /\ get (enrich config item) "total_weight"
     = VNum (num_mul (Math_ceil (num_div (ToNumber (get item "quantity"))
                                         (resolved (pieces_per_box config) 48)))
                     (resolved (box_weight_kg config) 5))
  /\ (forall (x : option number) (d : Z),
        x = None \/ x = Some NaN \/ x = Some (ofZ 0) \/ x = Some NegZero ->
        resolved x d = ofZ d)
  /\ (forall (q : Q) (H : double q = true) (d : Z),
        ~ (q == 0)%Q -> resolved (Some (Fin q H)) d = Fin q H)
  /\ (forall (s : bool) (d : Z), resolved (Some (Inf s)) d = Inf s).
Proof.
  pose proof (piecesPerBox_resolved config) as Hp.
  pose proof (boxWeight_resolved config) as Hw.
  pose proof (boxLength_resolved config) as Hl.
  pose proof (boxWidth_resolved config) as Hb.
  pose proof (boxHeight_resolved config) as Hh.
  rewrite get_num_boxes, get_total_weight. unfold get.
  rewrite enrich_pieces_per_box, enrich_box_weight_kg, enrich_box_dimensions.
  unfold box_dimensions_of. rewrite Hp, Hw, Hl, Hb, Hh.
  cbn [ToNumber ToString].
  repeat (split; [reflexivity|]). split; [|split].
  - intros x d [-> | [-> | [-> | ->] ] ]; reflexivity.
  - intros q H d Hq. unfold resolved.
    destruct (Z.eqb_spec (Qnum q) 0) as [E|_]; [|reflexivity].
    exfalso. apply Hq. destruct q as [n k]. cbn in E. subst n. reflexivity.
  - reflexivity.
Qed.

(** C2 as stated fails on a negative field: -5 pieces per box is not
    positive, yet it is used as it is, and 100 pieces then make -20 boxes. *)
Lemma negative_pieces_per_box_is_used :
  pieces_per_box negativeConfig = Some (ofZ (-5))
  /\ negative (ofZ (-5)) = true
  /\ piecesPerBox negativeConfig = VNum (ofZ (-5))
  /\ piecesPerBox negativeConfig <> VNum (ofZ 48)
  /\ get (enrich (RT := exampleRuntime) negativeConfig (lineItem "X-1" 100 0))
         "pieces_per_box" = VNum (ofZ (-5))
  /\ get (enrich (RT := exampleRuntime) negativeConfig (lineItem "X-1" 100 0))
         "num_boxes" = VNum (ofZ (-20)).
Proof.
  split; [reflexivity|]. split; [reflexivity|]. split; [vm_compute; reflexivity|].
  split; [vm_compute; discriminate|]. split; vm_compute; reflexivity.
Qed.



(** C4.  A SKU that is a key of the master resolves at the exact tier, to
    the configuration stored under it. *)
Theorem match_exact `{RT : Runtime} (M : ProductMaster) (s : jsstring) (c : ProductConfig) :
  master_get M s = Some c ->
  matchSku M (VStr s) = Ok (c, Exact).
Proof. intros H. now rewrite matchSku_string, (master_lookup_own M s c H). Qed.

(** C6, as the code has it.  Reconciliation does not raise, whatever the
    master holds, for line items whose SKU is a string, null or absent; an
    item without a quantity gets [NaN] as [num_boxes] and [total_weight], and
    the box and weight totals of a list with such an item are [NaN]. *)
Theorem reconcile_never_raises `{RT : Runtime} (M : ProductMaster) (items : list obj) :
  Forall sku_ok items ->
  exists out : list obj,
    reconcile M items = Ok (out, totals out)
    /\ length out = length items
    /\ (forall (i : nat) (item e : obj),
          items !! i = Some item -> out !! i = Some e ->
          get item "quantity" = VUndefined ->
          get e "num_boxes" = VNum NaN /\ get e "total_weight" = VNum NaN)
    /\ (Exists (fun item => get item "quantity" = VUndefined) items ->
          boxes (totals out) = VNum NaN /\ weight (totals out) = VNum NaN).
Proof.
  intros H. destruct (recalculateItems_ok M None items H) as (out & Hout & HF).
  exists out. split; [unfold reconcile; now rewrite Hout|].
  split; [symmetry; eapply Forall2_length, HF|].
  assert (Hitem : forall item e, processItem M item = Ok e ->
            get item "quantity" = VUndefined ->
            get e "num_boxes" = VNum NaN /\ get e "total_weight" = VNum NaN).
  { intros item e Hp Hq. destruct (processItem_inv M item e Hp) as (c & t & _ & ->).
    unfold get. rewrite enrich_num_boxes, enrich_total_weight.
    now rewrite (numBoxes_missing_quantity c item Hq). }
  assert (Hnum : Forall (fun e => (exists n, get e "num_boxes" = VNum n)
                                  /\ (exists n, get e "total_weight" = VNum n)) out).
  { clear -HF. induction HF as [|item e items out Hp _ IH]; constructor; [|exact IH].
    destruct (processItem_inv M item e Hp) as (c & t & _ & ->).
    unfold get. rewrite enrich_num_boxes, enrich_total_weight. eauto. }
  split.
  - intros i item e Hi He. destruct (Forall2_lookup_l _ _ _ _ _ HF Hi) as (e' & He' & Hp).
    rewrite He in He'. injection He' as <-. now apply Hitem.
  - intros Hex.
    assert (Hout' : Exists (fun e => get e "num_boxes" = VNum NaN
                                     /\ get e "total_weight" = VNum NaN) out).
    { clear -HF Hex Hitem. induction HF as [|item e items out Hp _ IH]; [inversion Hex|].
      apply Exists_cons in Hex as [Hq|Hex]; [left; now apply (Hitem item) | right; auto]. }
    rewrite totals_fold. split.
    + apply (column_nan boxes "num_boxes" out) with (a := ofZ 0); auto.
      * revert Hnum. apply List.Forall_impl. tauto.
      * right. revert Hout'. apply List.Exists_impl. tauto.
    + apply (column_nan weight "total_weight" out) with (a := ofZ 0); auto.
      * revert Hnum. apply List.Forall_impl. tauto.
      * right. revert Hout'. apply List.Exists_impl. tauto.
Qed.

(** C6 as stated fails: a line item without [quantity] and one without
    [sku] are both reconciled without an exception; the first gets [NaN]
    boxes and weight, and [NaN] totals. *)
Lemma missing_fields_are_not_reported :
  itemWithoutQuantity !! "quantity" = None
  /\ (exists e : obj,
        reconcile (RT := exampleRuntime) sampleMaster [itemWithoutQuantity]
        = Ok ([e], {| quantity := VNum NaN; boxes := VNum NaN;
                      weight := VNum NaN; value := VNum NaN |})
        /\ get e "num_boxes" = VNum NaN
        /\ get e "total_weight" = VNum NaN)
  /\ itemWithoutSku !! "sku" = None
  /\ (exists e : obj,
        reconcile (RT := exampleRuntime) sampleMaster [itemWithoutSku]
        = Ok ([e], {| quantity := VNum (ofZ 10); boxes := VNum (ofZ 1);
                      weight := VNum (ofZ 5); value := VNum (ofZ 100) |}))
  /\ (forall x : exn,
        reconcile (RT := exampleRuntime) sampleMaster [itemWithoutQuantity] <> Throw x
        /\ reconcile (RT := exampleRuntime) sampleMaster [itemWithoutSku] <> Throw x).
Proof.
  assert (E1 : reconcile (RT := exampleRuntime) sampleMaster [itemWithoutQuantity]
               = Ok ([enrich (RT := exampleRuntime) defaultBoxConfig itemWithoutQuantity],
                     {| quantity := VNum NaN; boxes := VNum NaN;
                        weight := VNum NaN; value := VNum NaN |}))
    by (vm_compute; reflexivity).
  assert (E2 : reconcile (RT := exampleRuntime) sampleMaster [itemWithoutSku]
               = Ok ([enrich (RT := exampleRuntime) defaultBoxConfig itemWithoutSku],
                     {| quantity := VNum (ofZ 10); boxes := VNum (ofZ 1);
                        weight := VNum (ofZ 5); value := VNum (ofZ 100) |}))
    by (vm_compute; reflexivity).
  split; [reflexivity|]. split.
  { eexists. split; [exact E1|]. split; vm_compute; reflexivity. }
  split; [reflexivity|]. split; [eexists; exact E2|].
  intros x. rewrite E1, E2. split; discriminate.
Qed.

(** C7.  The totals are sums over the processed items: they start from 0,
    and every further item adds its quantity, [num_boxes], [total_weight] and
    [taxable_value] to the four totals.  For every line item (its quantity and
    taxable value numbers, or missing) the totals of reconciling it alone are
    0 plus the quantity and the taxable value of the item and 0 plus the
    [num_boxes] and the [total_weight] computed for it, and reconciling it
    twice in one list gives totals that are twice those, field by field. *)
Theorem totals_double `{RT : Runtime} (M : ProductMaster) (item : obj) :
  isLineItem item ->
  totals [] = {| quantity := VNum (ofZ 0); boxes := VNum (ofZ 0);
                 weight := VNum (ofZ 0); value := VNum (ofZ 0) |}
  /\ (forall (l : list obj) (x : obj),
        totals (l ++ [x])
        = {| quantity := js_add (quantity (totals l)) (get x "quantity");
             boxes := js_add (boxes (totals l)) (get x "num_boxes");
             weight := js_add (weight (totals l)) (get x "total_weight");
             value := js_add (value (totals l)) (get x "taxable_value") |})
  /\ reconcile M [] = Ok ([], totals [])
  /\ exists (e : obj) (q b w v : number),
       processItem M item = Ok e
       /\ reconcile M [item]
          = Ok ([e], {| quantity := VNum q; boxes := VNum b;
                        weight := VNum w; value := VNum v |})
       /\ get e "quantity" = get item "quantity"
       /\ get e "taxable_value" = get item "taxable_value"
       /\ q = num_add (ofZ 0) (ToNumber (get item "quantity"))
       /\ VNum b = js_add (VNum (ofZ 0)) (get e "num_boxes")
       /\ VNum w = js_add (VNum (ofZ 0)) (get e "total_weight")
       /\ v = num_add (ofZ 0) (ToNumber (get item "taxable_value"))
       /\ reconcile M [item; item]
          = Ok ([e; e], {| quantity := VNum (num_mul (ofZ 2) q);
                           boxes := VNum (num_mul (ofZ 2) b);
                           weight := VNum (num_mul (ofZ 2) w);
                           value := VNum (num_mul (ofZ 2) v) |}).
Proof.
  intros (Hs & Hq & Hv). split; [reflexivity|].
  split; [intros l x; unfold totals; now rewrite fold_left_app|].
  split; [reflexivity|].
  destruct (processItem_ok M item Hs) as (config & tier & _ & Hp).
  exists (enrich config item),
    (num_add (ofZ 0) (ToNumber (get item "quantity"))),
    (num_add (ofZ 0) (numBoxes config item)),
    (num_add (ofZ 0) (js_mul (VNum (numBoxes config item)) (boxWeight config))),
    (num_add (ofZ 0) (ToNumber (get item "taxable_value"))).
  assert (Eq : get (enrich config item) "quantity" = get item "quantity").
  { apply enrich_get_other. cbn. intros [H|[H|[H|[H|[H|[]]]]]]; discriminate. }
  assert (Ev : get (enrich config item) "taxable_value" = get item "taxable_value").
  { apply enrich_get_other. cbn. intros [H|[H|[H|[H|[H|[]]]]]]; discriminate. }
  assert (Eb : get (enrich config item) "num_boxes" = VNum (numBoxes config item)).
  { unfold get. now rewrite enrich_num_boxes. }
  assert (Ew : get (enrich config item) "total_weight"
               = VNum (js_mul (VNum (numBoxes config item)) (boxWeight config))).
  { unfold get. now rewrite enrich_total_weight. }
  split; [exact Hp|].
  unfold reconcile, recalculateItems. cbn [array_map]. rewrite Hp.
  cbn [mbind result_mbind bind]. rewrite totals_one, totals_two. unfold addItem.
  rewrite Eq, Ev, Eb, Ew. cbn [quantity boxes weight value zeroTotals].
  rewrite !js_add_number by (assumption || reflexivity).
  cbn [ToNumber]. rewrite !num_add_twice. repeat split; reflexivity.
Qed.

(** C8.  [normalizeSku] is idempotent on strings: normalising a string
    gives a string that normalising leaves as it is; for [null] and for an
    absent ([undefined]) SKU it gives the empty string.  The last part says
    that idempotence does not depend on how the keys of the table are read:
    it holds for the keys read as Greek capitals as well. *)
Theorem normalizeSku_idempotent :
  (forall x : jsstring,
      exists n, normalizeSku (VStr x) = Ok n /\ normalizeSku (VStr n) = Ok n)
  /\ normalizeSku VNull = Ok []
  /\ normalizeSku VUndefined = Ok []
  /\ (forall x : jsstring,
        exists n, normalizeSku_with greekToEnglish_decoded (VStr x) = Ok n
                  /\ normalizeSku_with greekToEnglish_decoded (VStr n) = Ok n).
Proof.
  split; [|split; [reflexivity | split; [reflexivity|]]].
  - intros x. exists (normalized_string x). split.
    + apply normalizeSku_string.
    + rewrite normalizeSku_string. f_equal. apply normalized_string_idem.
  - exact normalizeSku_decoded_idempotent.
Qed.

(** C9.  For line items whose SKU is a string, null or absent,
    [recalculateItems] returns one enriched item per raw item, in the same
    order; the item at a position is computed from the raw item at that
    position and the master alone (the same raw item gives the same enriched
    item at any position of any list); it has the five computed properties,
    and every other property is as in the raw item. *)
Theorem recalculateItems_frame `{RT : Runtime}
    (M : ProductMaster) (ext : option (list obj)) (items : list obj) :
  Forall sku_ok items ->
  exists out : list obj,
    recalculateItems M ext (Some items) = Ok out
    /\ length out = length items
    /\ forall (i : nat) (item : obj), items !! i = Some item ->
         exists (config : ProductConfig) (tier : MatchType),
           matchSku M (get item "sku") = Ok (config, tier)
           /\ processItem M item = Ok (enrich config item)
           /\ out !! i = Some (enrich config item)
           /\ (forall (ext' : option (list obj)) (items' out' : list obj) (j : nat),
                 recalculateItems M ext' (Some items') = Ok out' ->
                 items' !! j = Some item -> out' !! j = Some (enrich config item))
           /\ (forall k : string, ~ In k enrichment_fields ->
                 enrich config item !! k = item !! k)
           /\ enrich config item !! "pieces_per_box" = Some (piecesPerBox config)
           /\ enrich config item !! "box_weight_kg" = Some (boxWeight config)
           /\ enrich config item !! "box_dimensions" = Some (VStr (box_dimensions_of config))
           /\ enrich config item !! "num_boxes" = Some (VNum (numBoxes config item))
           /\ enrich config item !! "total_weight"
              = Some (VNum (js_mul (VNum (numBoxes config item)) (boxWeight config))).
Proof.
  intros H. destruct (recalculateItems_ok M ext items H) as (out & Hout & HF).
  exists out. split; [exact Hout|]. split; [symmetry; eapply Forall2_length, HF|].
  intros i item Hi.
  destruct (Forall2_lookup_l _ _ _ _ _ HF Hi) as (e & He & Hp).
  destruct (processItem_inv M item e Hp) as (config & tier & Hm & ->).
  exists config, tier.
  repeat split; auto using enrich_other, enrich_pieces_per_box, enrich_box_weight_kg,
    enrich_box_dimensions, enrich_num_boxes, enrich_total_weight.
  intros ext' items' out' j Hout' Hj.
  apply array_map_Forall2 in Hout'.
  destruct (Forall2_lookup_l _ _ _ _ _ Hout' Hj) as (e' & He' & Hp').
  rewrite Hp in Hp'. now injection Hp' as <-.
Qed.


(** ** Invoice history *)

(** C10.  After a POST to [/api/invoices], whatever the file held before,
    the stored list has at most 100 entries, begins with the invoice just
    created, and is the list made of that invoice followed by the previous
    entries, cut after 100: the previous entries keep their order, moved down
    by one place, and those that no longer fit are gone. *)
Theorem postInvoice_history
    (now : number) (iso : jsstring) (body : Server.invoice) (file : Server.InvoiceFile) :
  exists l : list Server.invoice,
    Server.postInvoice now iso body file = (Some l, Server.newInvoice now iso body)
    /\ (length l <= 100)%nat
    /\ l !! 0%nat = Some (Server.newInvoice now iso body)
    /\ l = take 100 (Server.newInvoice now iso body :: Server.getInvoices file)
    /\ (forall i : nat, (i < 99)%nat -> l !! S i = Server.getInvoices file !! i)
    /\ (forall i : nat, (99 <= i)%nat -> l !! S i = None).
Proof.
  set (inv := Server.newInvoice now iso body).
  set (old := Server.getInvoices file).
  assert (E : Server.postInvoice now iso body file = (Some (take 100 (inv :: old)), inv)).
  { unfold Server.postInvoice. fold inv.
    replace (match file with Some l => l | None => [] end) with old by reflexivity.
    destruct (100 <? length (inv :: old))%nat eqn:L; [reflexivity|].
    apply Nat.ltb_ge in L. now rewrite take_ge. }
  exists (take 100 (inv :: old)). split; [exact E|].
  split; [rewrite length_take; lia|]. split; [reflexivity|]. split; [reflexivity|]. split.
  - intros i Hi. rewrite lookup_take_lt by lia. reflexivity.
  - intros i Hi. apply lookup_take_ge. lia.
Qed.


(** ** The statements at concrete inputs *)

Lemma rollup_boxes_and_weight_witness :
  get (lineItem "PROD-001" 100 0) "quantity" = VNum (ofZ (Z.of_N 100))
  /\ get (enrich (RT := exampleRuntime) defaultBoxConfig (lineItem "PROD-001" 100 0))
         "num_boxes"
     = VNum (Math_ceil (num_div (ofZ (Z.of_N 100))
                                (resolved (pieces_per_box defaultBoxConfig) 48)))
  /\ get (enrich (RT := exampleRuntime) defaultBoxConfig (lineItem "PROD-001" 100 0))
         "total_weight"
     = VNum (num_mul (Math_ceil (num_div (ofZ (Z.of_N 100))
                                         (resolved (pieces_per_box defaultBoxConfig) 48)))
                     (resolved (box_weight_kg defaultBoxConfig) 5))
  /\ (forall p : Z,
        (1 <= p < 2 ^ 53)%Z -> (Z.of_N 100 < 2 ^ 53)%Z ->
        resolved (pieces_per_box defaultBoxConfig) 48 = ofZ p ->
        exists n : Z,
          is_ceiling n (inject_Z (Z.of_N 100) / inject_Z p)
          /\ get (enrich (RT := exampleRuntime) defaultBoxConfig
                    (lineItem "PROD-001" 100 0)) "num_boxes" = VNum (ofZ n)
          /\ get (enrich (RT := exampleRuntime) defaultBoxConfig
                    (lineItem "PROD-001" 100 0)) "total_weight"
             = VNum (num_mul (ofZ n) (resolved (box_weight_kg defaultBoxConfig) 5)))
  /\ (100 = 0 ->
        is_zero (get (enrich (RT := exampleRuntime) defaultBoxConfig
                        (lineItem "PROD-001" 100 0)) "num_boxes") = true
        /\ (finite_number (resolved (box_weight_kg defaultBoxConfig) 5) = true ->
            is_zero (get (enrich (RT := exampleRuntime) defaultBoxConfig
                            (lineItem "PROD-001" 100 0)) "total_weight") = true))
  /\ (100 = 100 -> resolved (pieces_per_box defaultBoxConfig) 48 = ofZ 48 ->
        get (enrich (RT := exampleRuntime) defaultBoxConfig (lineItem "PROD-001" 100 0))
            "num_boxes" = VNum (ofZ 3)).
Proof.
  split; [reflexivity|].
  apply (rollup_boxes_and_weight (RT := exampleRuntime) defaultBoxConfig
           (lineItem "PROD-001" 100 0) 100).
  reflexivity.
Defined.

Lemma match_exact_witness :
  master_get sampleMaster (lit "PROD-001") = Some (productConfig 50 4 30 20 15)
  /\ matchSku (RT := exampleRuntime) sampleMaster (VStr (lit "PROD-001"))
     = Ok (productConfig 50 4 30 20 15, Exact).
Proof.
  split; [reflexivity|].
  apply (match_exact (RT := exampleRuntime) sampleMaster (lit "PROD-001")
           (productConfig 50 4 30 20 15)).
  reflexivity.
Defined.



Lemma reconcile_never_raises_witness :
  Forall sku_ok sampleItems
  /\ exists out : list obj,
       reconcile (RT := exampleRuntime) sampleMaster sampleItems
       = Ok (out, totals (RT := exampleRuntime) out)
       /\ length out = length sampleItems
       /\ (forall (i : nat) (item e : obj),
             sampleItems !! i = Some item -> out !! i = Some e ->
             get item "quantity" = VUndefined ->
             get e "num_boxes" = VNum NaN /\ get e "total_weight" = VNum NaN)
       /\ (Exists (fun item => get item "quantity" = VUndefined) sampleItems ->
             boxes (totals (RT := exampleRuntime) out) = VNum NaN
             /\ weight (totals (RT := exampleRuntime) out) = VNum NaN).
Proof.
  assert (H : Forall sku_ok sampleItems) by (repeat constructor).
  split; [exact H|].
  exact (reconcile_never_raises (RT := exampleRuntime) sampleMaster sampleItems H).
Defined.

Lemma totals_double_witness :
  isLineItem (lineItem "PROD-001" 120 1000)
  /\ totals (RT := exampleRuntime) []
     = {| quantity := VNum (ofZ 0); boxes := VNum (ofZ 0);
          weight := VNum (ofZ 0); value := VNum (ofZ 0) |}
  /\ (forall (l : list obj) (x : obj),
        totals (RT := exampleRuntime) (l ++ [x])
        = {| quantity := js_add (RT := exampleRuntime)
                           (quantity (totals (RT := exampleRuntime) l)) (get x "quantity");
             boxes := js_add (RT := exampleRuntime)
                        (boxes (totals (RT := exampleRuntime) l)) (get x "num_boxes");
             weight := js_add (RT := exampleRuntime)
                         (weight (totals (RT := exampleRuntime) l)) (get x "total_weight");
             value := js_add (RT := exampleRuntime)
                        (value (totals (RT := exampleRuntime) l)) (get x "taxable_value") |})
  /\ reconcile (RT := exampleRuntime) sampleMaster [] = Ok ([], totals (RT := exampleRuntime) [])
  /\ exists (e : obj) (q b w v : number),
       processItem (RT := exampleRuntime) sampleMaster (lineItem "PROD-001" 120 1000) = Ok e
       /\ reconcile (RT := exampleRuntime) sampleMaster [lineItem "PROD-001" 120 1000]
          = Ok ([e], {| quantity := VNum q; boxes := VNum b;
                        weight := VNum w; value := VNum v |})
       /\ get e "quantity" = get (lineItem "PROD-001" 120 1000) "quantity"
       /\ get e "taxable_value" = get (lineItem "PROD-001" 120 1000) "taxable_value"
       /\ q = num_add (ofZ 0)
                (ToNumber (RT := exampleRuntime) (get (lineItem "PROD-001" 120 1000) "quantity"))
       /\ VNum b = js_add (RT := exampleRuntime) (VNum (ofZ 0)) (get e "num_boxes")
       /\ VNum w = js_add (RT := exampleRuntime) (VNum (ofZ 0)) (get e "total_weight")
       /\ v = num_add (ofZ 0)
                (ToNumber (RT := exampleRuntime)
                   (get (lineItem "PROD-001" 120 1000) "taxable_value"))
       /\ reconcile (RT := exampleRuntime) sampleMaster
            [lineItem "PROD-001" 120 1000; lineItem "PROD-001" 120 1000]
          = Ok ([e; e], {| quantity := VNum (num_mul (ofZ 2) q);
                           boxes := VNum (num_mul (ofZ 2) b);
                           weight := VNum (num_mul (ofZ 2) w);
                           value := VNum (num_mul (ofZ 2) v) |}).
Proof.
  assert (H : isLineItem (lineItem "PROD-001" 120 1000)) by (repeat split).
  split; [exact H|].
  exact (totals_double (RT := exampleRuntime) sampleMaster
           (lineItem "PROD-001" 120 1000) H).
Defined.

Lemma recalculateItems_frame_witness :
  Forall sku_ok sampleItems
  /\ exists out : list obj,
       recalculateItems (RT := exampleRuntime) sampleMaster None (Some sampleItems) = Ok out
       /\ length out = length sampleItems
       /\ forall (i : nat) (item : obj), sampleItems !! i = Some item ->
            exists (config : ProductConfig) (tier : MatchType),
              matchSku (RT := exampleRuntime) sampleMaster (get item "sku")
              = Ok (config, tier)
              /\ processItem (RT := exampleRuntime) sampleMaster item
                 = Ok (enrich (RT := exampleRuntime) config item)
              /\ out !! i = Some (enrich (RT := exampleRuntime) config item)
              /\ (forall (ext' : option (list obj)) (items' out' : list obj) (j : nat),
                    recalculateItems (RT := exampleRuntime) sampleMaster ext' (Some items')
                    = Ok out' ->
                    items' !! j = Some item ->
                    out' !! j = Some (enrich (RT := exampleRuntime) config item))
              /\ (forall k : string, ~ In k enrichment_fields ->
                    enrich (RT := exampleRuntime) config item !! k = item !! k)
              /\ enrich (RT := exampleRuntime) config item !! "pieces_per_box"
                 = Some (piecesPerBox config)
              /\ enrich (RT := exampleRuntime) config item !! "box_weight_kg"
                 = Some (boxWeight config)
              /\ enrich (RT := exampleRuntime) config item !! "box_dimensions"
                 = Some (VStr (box_dimensions_of (RT := exampleRuntime) config))
              /\ enrich (RT := exampleRuntime) config item !! "num_boxes"
                 = Some (VNum (numBoxes (RT := exampleRuntime) config item))
              /\ enrich (RT := exampleRuntime) config item !! "total_weight"
                 = Some (VNum (js_mul (RT := exampleRuntime)
                                 (VNum (numBoxes (RT := exampleRuntime) config item))
                                 (boxWeight config))).
Proof.
  assert (H : Forall sku_ok sampleItems) by (repeat constructor).
  split; [exact H|].
  exact (recalculateItems_frame (RT := exampleRuntime) sampleMaster None sampleItems H).
Defined.

(** ** Two invoices, end to end *)

(** 120 pieces of a product packed by 50, 4 kg a box. *)
Example known_sku_scenario :
  exists e : obj,
    reconcile (RT := exampleRuntime) sampleMaster [lineItem "PROD-001" 120 1000]
    = Ok ([e], {| quantity := VNum (ofZ 120); boxes := VNum (ofZ 3);
                  weight := VNum (ofZ 12); value := VNum (ofZ 1000) |})
    /\ get e "num_boxes" = VNum (ofZ 3)
    /\ get e "total_weight" = VNum (ofZ 12)
    /\ get e "box_dimensions"
       = VStr (lit "30" ++ dimensionSeparator ++ lit "20" ++ dimensionSeparator ++ lit "15").
Proof.
  exists (enrich (RT := exampleRuntime) (productConfig 50 4 30 20 15)
            (lineItem "PROD-001" 120 1000)).
  repeat split; vm_compute; reflexivity.
Qed.

(** 48 pieces of a product the master does not know. *)
Example unknown_sku_scenario :
  matchSku (RT := exampleRuntime) sampleMaster (VStr (lit "XYZ-999"))
  = Ok (defaultBoxConfig, Default)
  /\ exists e : obj,
       recalculateItems (RT := exampleRuntime) sampleMaster None
         (Some [lineItem "XYZ-999" 48 0]) = Ok [e]
       /\ get e "pieces_per_box" = VNum (ofZ 48)
       /\ get e "num_boxes" = VNum (ofZ 1)
       /\ get e "total_weight" = VNum (ofZ 5).
Proof.
  split; [vm_compute; reflexivity|].
  exists (enrich (RT := exampleRuntime) defaultBoxConfig (lineItem "XYZ-999" 48 0)).
  repeat split; vm_compute; reflexivity.
Qed.

(** Upper-casing: a Latin and a Greek small letter, the sharp s (two
    letters), a digit, a Deseret letter outside the Basic Multilingual Plane. *)
Example upper_case_samples :
  toUpperCase (lit "a") = lit "A"
  /\ toUpperCase [0x3B1] = [0x391]
  /\ toUpperCase [0xDF] = lit "SS"
  /\ toUpperCase (lit "7") = lit "7"
  /\ toUpperCase [0x10428] = [0x10400].
Proof. repeat split; vm_compute; reflexivity. Qed.

(** Global replacement goes from left to right and does not look at a
    character twice. *)
Example replace_samples :
  replace_g (lit "aa") (lit "b") (lit "aaa-aaaa") = lit "ba-bb"
  /\ replace_g [0x391] (lit "A") ([0x391] ++ lit "B" ++ [0x391]) = lit "ABA".
Proof. repeat split; vm_compute; reflexivity. Qed.

(** Numbers as the example runtime writes them, and strings as it reads
    them. *)
Example written_numbers :
  NumberToString (Runtime := exampleRuntime) (ofZ 30) = lit "30"
  /\ NumberToString (Runtime := exampleRuntime) (round (9 # 2)) = lit "4.5"
  /\ NumberToString (Runtime := exampleRuntime) (round (-1 # 8)) = lit "-0.125"
  /\ NumberToString (Runtime := exampleRuntime) (round (1 # 10)) = lit "0.1"
  /\ NumberToString (Runtime := exampleRuntime)
       (num_add (round (1 # 10)) (round (2 # 10))) = lit "0.30000000000000004"
  /\ NumberToString (Runtime := exampleRuntime) (ofZ (10 ^ 21)) = lit "1e+21"
  /\ NumberToString (Runtime := exampleRuntime) (ofZ 123456789012345678901)
     = lit "123456789012345680000"
  /\ NumberToString (Runtime := exampleRuntime) (round (1 # 10 ^ 7)) = lit "1e-7"
  /\ NumberToString (Runtime := exampleRuntime) NegZero = lit "0"
  /\ NumberToString (Runtime := exampleRuntime) (Inf true) = lit "-Infinity"
  /\ StringToNumber (Runtime := exampleRuntime) (lit " 12.5 ") = round (25 # 2)
  /\ StringToNumber (Runtime := exampleRuntime) [] = ofZ 0
  /\ StringToNumber (Runtime := exampleRuntime) (lit "1e999") = Inf false
  /\ StringToNumber (Runtime := exampleRuntime) (lit "0x1F") = ofZ 31
  /\ StringToNumber (Runtime := exampleRuntime) (lit "-0") = NegZero
  /\ StringToNumber (Runtime := exampleRuntime) (lit "12px") = NaN.
Proof. repeat split; vm_compute; reflexivity. Qed.

(** The arithmetic is that of doubles.  Three boxes of a tenth of a
    kilogram weigh 0.30000000000000004, which is not the double nearest to
    three tenths; 145 pieces at 0.29 a box make 501 boxes, as the quotient of
    the doubles is just above 500; the sum of two numbers near the largest
    double is infinite; above [2^53] not every integer is a double; and 0
    times an infinity is [NaN]. *)
Example double_arithmetic :
  get (enrich (RT := exampleRuntime) tenthConfig (lineItem "X-1" 7 0)) "num_boxes"
  = VNum (ofZ 3)
  /\ get (enrich (RT := exampleRuntime) tenthConfig (lineItem "X-1" 7 0)) "total_weight"
     = VNum (round (5404319552844596 # 2 ^ 54))
  /\ round (5404319552844596 # 2 ^ 54) <> round (3 # 10)
  /\ NumberToString (Runtime := exampleRuntime) (num_mul (ofZ 3) (round (1 # 10)))
     = lit "0.30000000000000004"
  /\ get (enrich (RT := exampleRuntime) fractionConfig (lineItem "X-1" 145 0)) "num_boxes"
     = VNum (ofZ 501)
  /\ is_ceiling 500 (145 / (29 # 100))
  /\ num_add (ofZ (10 ^ 308)) (ofZ (10 ^ 308)) = Inf false
  /\ ofZ (2 ^ 53 + 1) = ofZ (2 ^ 53)
  /\ num_mul (ofZ 0) (Inf false) = NaN
  /\ num_div (ofZ 1) (ofZ 0) = Inf false
  /\ num_div (ofZ 0) (ofZ 0) = NaN.
Proof.
  repeat split; try (vm_compute; reflexivity); vm_compute; discriminate.
Qed.

(** A key of the table, as the source file holds it, is read for a Latin
    capital, in lower-case text; a Greek capital is not a key, and stays. *)
Example greek_sku_scenario :
  normalizeSku (VStr ([0x152; 0xB0] ++ lit "rod-001")) = Ok (lit "PROD-001")
  /\ matchSku (RT := exampleRuntime) sampleMaster (VStr ([0x152; 0xB0] ++ lit "rod-001"))
     = Ok (productConfig 50 4 30 20 15, Normalized)
  /\ normalizeSku (VStr ([0x3A1] ++ lit "rod-001")) = Ok ([0x3A1] ++ lit "ROD-001")
  /\ matchSku (RT := exampleRuntime) sampleMaster (VStr ([0x3A1] ++ lit "rod-001"))
     = Ok (defaultBoxConfig, Default)
  /\ normalizeSku_with greekToEnglish_decoded (VStr ([0x3A1] ++ lit "rod-001"))
     = Ok (lit "PROD-001").
Proof. repeat split; vm_compute; reflexivity. Qed.

(** The name of an inherited property is found in any master, the empty
    one too: the lookup gives the inherited value, which has no packaging
    field, at the exact tier. *)
Example inherited_sku_scenario :
  matchSku (RT := exampleRuntime) [] (VStr (lit "constructor"))
  = Ok (noFields (Some (lit "Object")), Exact)
  /\ matchSku (RT := exampleRuntime) [] (VStr (lit "valueOf"))
     = Ok (noFields (Some (lit "valueOf")), Exact)
  /\ matchSku (RT := exampleRuntime) [] (VStr (lit "tostring"))
     = Ok (defaultBoxConfig, Default)
  /\ exists e : obj,
       recalculateItems (RT := exampleRuntime) [] None
         (Some [lineItem "constructor" 100 0]) = Ok [e]
       /\ get e "pieces_per_box" = VNum (ofZ 48)
       /\ get e "num_boxes" = VNum (ofZ 3).
Proof.
  repeat split; try (vm_compute; reflexivity).
  exists (enrich (RT := exampleRuntime) (noFields (Some (lit "Object")))
            (lineItem "constructor" 100 0)).
  repeat split; vm_compute; reflexivity.
Qed.

(** A SKU that is a number has no [toUpperCase]: the call throws. *)
Example numeric_sku_throws :
  recalculateItems (RT := exampleRuntime) sampleMaster None
    (Some [ <["sku" := VNum (ofZ 12345)]> (lineItem "" 1 1) ]) = Throw TypeError.
Proof. vm_compute. reflexivity. Qed.

(** ** More on [normalizeSku] *)

Lemma ascii_normal_all : forallb ascii_normal (map N.of_nat (seq 0 128)) = true.
Proof. vm_compute. reflexivity. Qed.

Lemma ascii_normal_lt c :
  c < 128 -> toUppercase c = [asciiUpper c] /\ asciiUpper c <> 0x152.
Proof.
  intros Hc. pose proof ascii_normal_all as H. rewrite forallb_forall in H.
  assert (Hin : In c (map N.of_nat (seq 0 128))).
  { apply in_map_iff. exists (N.to_nat c). split; [apply N2Nat.id|].
    apply in_seq. lia. }
  specialize (H c Hin). unfold ascii_normal in H. apply andb_true_iff in H as [H1 H2].
  apply bool_decide_eq_true in H1. apply negb_true_iff, N.eqb_neq in H2. now split.
Qed.

(** A key does not occur in a string that does not have its first
    character. *)
Lemma occurs_without_first (a : N) (rest s : jsstring) :
  Forall (fun c => c <> a) s -> occurs (a :: rest) s = false.
Proof.
  induction 1 as [|c s Hc _ IH]; [reflexivity|].
  cbn [occurs startsWith]. rewrite IH, orb_false_r.
  destruct (N.eqb_spec a c) as [->|_]; [contradiction | reflexivity].
Qed.

(** A table none of whose keys occurs leaves the string as it is. *)
Lemma substitute_absent (table : list (jsstring * jsstring)) (s : jsstring) :
  (forall key, In key (map fst table) -> occurs key s = false) ->
  substitute table s = s.
Proof.
  unfold substitute. induction table as [|[g e] table IH]; intros H; [reflexivity|].
  cbn [fold_left]. rewrite replace_g_absent by (apply H; now left).
  apply IH. intros key Hk. apply H. now right.
Qed.

Lemma keys_first_character :
  Forall (fun key => exists rest, key = 0x152 :: rest) (map fst greekToEnglish).
Proof. repeat constructor; eexists; reflexivity. Qed.

(** X1.  What [normalizeSku] returns for a string is in upper case (upper
    casing leaves it as it is) and none of the fourteen keys of the table, as
    the source file holds them, occurs in it.  A Greek capital is not such a
    key, and [normalizeSku] leaves it as it is. *)
Theorem normalizeSku_result_canonical (x : jsstring) :
  (exists n : jsstring,
     normalizeSku (VStr x) = Ok n
     /\ toUpperCase n = n
     /\ forall key : jsstring, In key (map fst greekToEnglish) -> occurs key n = false)
  /\ (forall greek : jsstring, In greek (map fst greekToEnglish_decoded) ->
        normalizeSku (VStr greek) = Ok greek).
Proof.
  split.
  - exists (normalized_string x). split; [apply normalizeSku_string|].
    destruct (substitute_upper (toUpperCase x) (toUpperCase_upper x)) as (Hu & Hk & _).
    split; [now apply toUpperCase_fixed | exact Hk].
  - intros greek H. cbn in H.
    repeat (destruct H as [<-|H]; [vm_compute; reflexivity|]). destruct H.
Qed.

(** X2.  On a SKU made of ASCII characters [normalizeSku] does nothing but
    turn the letters a to z into A to Z. *)
Theorem normalizeSku_ascii (x : jsstring) :
  Forall (fun c => c < 128) x ->
  normalizeSku (VStr x) = Ok (map asciiUpper x).
Proof.
  intros H. rewrite normalizeSku_string. f_equal. unfold normalized_string.
  assert (Hu : toUpperCase x = map asciiUpper x).
  { unfold toUpperCase. induction H as [|c x Hc _ IH]; [reflexivity|].
    destruct (ascii_normal_lt c Hc) as [Hu _].
    cbn [flat_map map]. now rewrite Hu, IH. }
  rewrite Hu. apply substitute_absent. intros key Hk.
  pose proof keys_first_character as HF. rewrite List.Forall_forall in HF.
  destruct (HF key Hk) as [rest ->]. apply occurs_without_first.
  apply List.Forall_forall. intros d Hd. apply in_map_iff in Hd as (c & <- & Hc).
  rewrite List.Forall_forall in H. exact (proj2 (ascii_normal_lt c (H c Hc))).
Qed.

Lemma normalizeSku_ascii_witness :
  Forall (fun c => c < 128) (lit "prod-001 x")
  /\ normalizeSku (VStr (lit "prod-001 x")) = Ok (map asciiUpper (lit "prod-001 x")).
Proof.
  assert (H : Forall (fun c => c < 128) (lit "prod-001 x"))
    by (repeat constructor).
  split; [exact H | exact (normalizeSku_ascii (lit "prod-001 x") H)].
Defined.

(** ** More on matching and on a second pass *)

Lemma find_first_match {A} (f : A -> bool) (pre post : list A) (x : A) :
  (forall y, In y pre -> f y = false) -> f x = true ->
  find f (pre ++ x :: post) = Some x.
Proof.
  intros Hpre Hx. induction pre as [|y pre IH]; cbn.
  - now rewrite Hx.
  - rewrite (Hpre y) by now left. apply IH. intros z Hz. apply Hpre. now right.
Qed.

(** X3.  When the master has nothing under the SKU (neither a key nor an
    inherited property) and nothing under its normal form, the fuzzy tier
    takes the first entry, in the order of the entries of the master, whose
    key has the normal form of the SKU: entries after it with the same normal
    form are not looked at. *)
Theorem match_fuzzy_first `{RT : Runtime}
    (pre post : ProductMaster) (k s n : jsstring) (c : ProductConfig) :
  normalizeSku (VStr s) = Ok n ->
  master_lookup (pre ++ (k, c) :: post) s = None ->
  master_lookup (pre ++ (k, c) :: post) n = None ->
  normalizeSku (VStr k) = Ok n ->
  (forall k', In k' (map fst pre) -> normalizeSku (VStr k') <> Ok n) ->
  matchSku (pre ++ (k, c) :: post) (VStr s) = Ok (c, Fuzzy).
Proof.
  intros Hn Hs Hns Hk Hpre. rewrite normalizeSku_string in Hn. injection Hn as <-.
  rewrite normalizeSku_string in Hk. injection Hk as Hk.
  rewrite master_lookup_normalized in Hns.
  rewrite matchSku_string, Hs, Hns.
  rewrite (find_first_match _ pre post (k, c)); [reflexivity| |].
  - intros [k' c'] Hin. unfold same_normal_form. cbn [fst].
    apply bool_decide_eq_false. intros E. apply (Hpre k').
    + apply in_map_iff. now exists (k', c').
    + rewrite normalizeSku_string. now f_equal.
  - unfold same_normal_form. cbn [fst]. now apply bool_decide_eq_true.
Qed.

Section SecondPass.
Context {RT : Runtime}.

Lemma enrich_get_sku config item : get (enrich config item) "sku" = get item "sku".
Proof. apply enrich_get_other. cbn. intros [H|[H|[H|[H|[H|[]]]]]]; discriminate. Qed.

Lemma enrich_get_quantity config item :
  get (enrich config item) "quantity" = get item "quantity".
Proof. apply enrich_get_other. cbn. intros [H|[H|[H|[H|[H|[]]]]]]; discriminate. Qed.

Lemma numBoxes_enrich config item :
  numBoxes config (enrich config item) = numBoxes config item.
Proof. unfold numBoxes. now rewrite enrich_get_quantity. Qed.

(** Enriching an enriched item with the same configuration changes
    nothing. *)
Lemma enrich_enrich config item : enrich config (enrich config item) = enrich config item.
Proof.
  apply map_eq. intros k.
  destruct (decide (k = "pieces_per_box")) as [->|H1];
    [now rewrite !enrich_pieces_per_box|].
  destruct (decide (k = "box_weight_kg")) as [->|H2];
    [now rewrite !enrich_box_weight_kg|].
  destruct (decide (k = "box_dimensions")) as [->|H3];
    [now rewrite !enrich_box_dimensions|].
  destruct (decide (k = "num_boxes")) as [->|H4];
    [now rewrite !enrich_num_boxes, numBoxes_enrich|].
  destruct (decide (k = "total_weight")) as [->|H5];
    [now rewrite !enrich_total_weight, numBoxes_enrich|].
  apply enrich_other. cbn. intros [H|[H|[H|[H|[H|[]]]]]]; congruence.
Qed.

Lemma processItem_again (productMaster : ProductMaster) (item e : obj) :
  processItem productMaster item = Ok e -> processItem productMaster e = Ok e.
Proof.
  intros H. destruct (processItem_inv productMaster item e H) as (c & t & Hm & ->).
  unfold processItem. rewrite enrich_get_sku, Hm. cbn. now rewrite enrich_enrich.
Qed.
End SecondPass.

(** X4.  A second pass over processed items, with the same master, gives
    the same processed items: [recalculateItems] applied to its own result
    returns it. *)
Theorem recalculateItems_again `{RT : Runtime}
    (M : ProductMaster) (ext ext' : option (list obj)) (items out : list obj) :
  recalculateItems M ext (Some items) = Ok out ->
  recalculateItems M ext' (Some out) = Ok out.
Proof.
  unfold recalculateItems. intros H. apply array_map_Forall2 in H.
  induction H as [|item e items out Hp _ IH]; [reflexivity|].
  cbn [array_map]. rewrite (processItem_again M item e Hp). cbn. now rewrite IH.
Qed.

Lemma recalculateItems_again_witness :
  recalculateItems (RT := exampleRuntime) sampleMaster None
    (Some [lineItem "PROD-001" 120 1000])
  = Ok [enrich (RT := exampleRuntime) (productConfig 50 4 30 20 15)
          (lineItem "PROD-001" 120 1000)]
  /\ recalculateItems (RT := exampleRuntime) sampleMaster None
       (Some [enrich (RT := exampleRuntime) (productConfig 50 4 30 20 15)
                (lineItem "PROD-001" 120 1000)])
     = Ok [enrich (RT := exampleRuntime) (productConfig 50 4 30 20 15)
             (lineItem "PROD-001" 120 1000)].
Proof.
  assert (H : recalculateItems (RT := exampleRuntime) sampleMaster None
                (Some [lineItem "PROD-001" 120 1000])
              = Ok [enrich (RT := exampleRuntime) (productConfig 50 4 30 20 15)
                      (lineItem "PROD-001" 120 1000)]).
  { assert (Hm : matchSku (RT := exampleRuntime) sampleMaster
                   (get (lineItem "PROD-001" 120 1000) "sku")
                 = Ok (productConfig 50 4 30 20 15, Exact)) by (vm_compute; reflexivity).
    unfold recalculateItems, processItem. cbn [array_map]. rewrite Hm. reflexivity. }
  split; [exact H|].
  exact (recalculateItems_again (RT := exampleRuntime) sampleMaster None None _ _ H).
Defined.

Lemma match_fuzzy_first_witness :
  normalizeSku (VStr (lit "ab-1")) = Ok (lit "AB-1")
  /\ master_lookup ([(lit "x", defaultBoxConfig)]
                    ++ (lit "Ab-1", productConfig 50 4 30 20 15)
                    :: [(lit "aB-1", defaultBoxConfig)]) (lit "ab-1") = None
  /\ master_lookup ([(lit "x", defaultBoxConfig)]
                    ++ (lit "Ab-1", productConfig 50 4 30 20 15)
                    :: [(lit "aB-1", defaultBoxConfig)]) (lit "AB-1") = None
  /\ normalizeSku (VStr (lit "Ab-1")) = Ok (lit "AB-1")
  /\ (forall k', In k' (map fst [(lit "x", defaultBoxConfig)]) ->
        normalizeSku (VStr k') <> Ok (lit "AB-1"))
  /\ matchSku (RT := exampleRuntime)
       ([(lit "x", defaultBoxConfig)]
          ++ (lit "Ab-1", productConfig 50 4 30 20 15)
          :: [(lit "aB-1", defaultBoxConfig)]) (VStr (lit "ab-1"))
     = Ok (productConfig 50 4 30 20 15, Fuzzy).
Proof.
  assert (H1 : normalizeSku (VStr (lit "ab-1")) = Ok (lit "AB-1"))
    by (vm_compute; reflexivity).
  assert (H2 : master_lookup ([(lit "x", defaultBoxConfig)]
                 ++ (lit "Ab-1", productConfig 50 4 30 20 15)
                 :: [(lit "aB-1", defaultBoxConfig)]) (lit "ab-1") = None)
    by reflexivity.
  assert (H3 : master_lookup ([(lit "x", defaultBoxConfig)]
                 ++ (lit "Ab-1", productConfig 50 4 30 20 15)
                 :: [(lit "aB-1", defaultBoxConfig)]) (lit "AB-1") = None)
    by reflexivity.
  assert (H4 : normalizeSku (VStr (lit "Ab-1")) = Ok (lit "AB-1"))
    by (vm_compute; reflexivity).
  assert (H5 : forall k', In k' (map fst [(lit "x", defaultBoxConfig)]) ->
                 normalizeSku (VStr k') <> Ok (lit "AB-1")).
  { intros k' [<-|[]]. vm_compute. discriminate. }
  repeat (split; [assumption|]).
  exact (match_fuzzy_first (RT := exampleRuntime) _ _ _ _ _ _ H1 H2 H3 H4 H5).
Defined.

(** ** Editing the product master *)

Section EntriesFacts.
Import Builtins.

Lemma has_key_master_get (M : ProductMaster) k :
  has_key k M = false <-> master_get M k = None.
Proof.
  induction M as [|[k' c] M IH]; cbn; [tauto|].
  destruct (decide (k' = k)) as [->|Hne].
  - rewrite bool_decide_eq_true_2 by reflexivity. cbn. split; discriminate.
  - rewrite bool_decide_eq_false_2 by assumption. cbn. exact IH.
Qed.

Lemma master_get_replace_value (M : ProductMaster) k v k' :
  master_get (replace_value k v M) k'
  = if decide (k' = k) then (match master_get M k with Some _ => Some v | None => None end)
    else master_get M k'.
Proof.
  induction M as [|[k0 c0] M IH]; cbn.
  - now destruct (decide (k' = k)).
  - destruct (decide (k0 = k)) as [->|Hne]; cbn.
    + destruct (decide (k = k')) as [->|Hne'].
      * now rewrite decide_True.
      * rewrite decide_False by congruence. reflexivity.
    + rewrite IH. destruct (decide (k0 = k')) as [->|Hne'].
      * rewrite decide_False by congruence. reflexivity.
      * reflexivity.
Qed.

Lemma master_get_insert_index (M : ProductMaster) i k v k' :
  master_get M k = None ->
  master_get (insert_index i k v M) k'
  = if decide (k = k') then Some v else master_get M k'.
Proof.
  induction M as [|[k0 c0] M IH]; cbn; [reflexivity|].
  destruct (decide (k0 = k)) as [->|Hne]; [discriminate|]. intros Hk.
  destruct (arrayIndex k0) as [j|]; [destruct (j <? i)|]; cbn.
  - rewrite (IH Hk). destruct (decide (k0 = k')) as [->|_]; [|reflexivity].
    now rewrite decide_False.
  - reflexivity.
  - reflexivity.
Qed.

Lemma master_get_app_new (M : ProductMaster) k v k' :
  master_get M k = None ->
  master_get (M ++ [(k, v)]) k' = if decide (k = k') then Some v else master_get M k'.
Proof.
  induction M as [|[k0 c0] M IH]; cbn; [reflexivity|].
  destruct (decide (k0 = k)) as [->|Hne]; [discriminate|]. intros Hk.
  destruct (decide (k0 = k')) as [->|_]; [now rewrite decide_False | now apply IH].
Qed.

(** Reading after [o[k] = v]. *)
Lemma master_get_set_property (M : ProductMaster) k v k' :
  master_get (set_property k v M) k' = if decide (k = k') then Some v else master_get M k'.
Proof.
  unfold set_property. destruct (has_key k M) eqn:E.
  - rewrite master_get_replace_value.
    destruct (decide (k' = k)) as [->|Hne].
    + rewrite decide_True by reflexivity.
      destruct (master_get M k) eqn:G; [reflexivity|].
      apply has_key_master_get in G. congruence.
    + now rewrite decide_False by congruence.
  - apply has_key_master_get in E.
    destruct (arrayIndex k); [now apply master_get_insert_index | now apply master_get_app_new].
Qed.

(** Reading after [delete o[k]]. *)
Lemma master_get_delete_property (M : ProductMaster) k k' :
  master_get (delete_property k M) k' = if decide (k = k') then None else master_get M k'.
Proof.
  unfold delete_property. induction M as [|[k0 c0] M IH]; cbn.
  - now destruct (decide (k = k')).
  - destruct (decide (k0 = k)) as [->|Hne].
    + rewrite bool_decide_eq_true_2 by reflexivity. cbn. rewrite IH.
      destruct (decide (k = k')); reflexivity.
    + rewrite bool_decide_eq_false_2 by assumption. cbn. rewrite IH.
      destruct (decide (k0 = k')) as [->|_]; [|reflexivity].
      now rewrite decide_False by congruence.
Qed.

Lemma delete_property_absent {A} (o : list (jsstring * A)) k :
  has_key k o = false -> delete_property k o = o.
Proof.
  unfold delete_property. induction o as [|[k0 v0] o IH]; cbn; [reflexivity|].
  intros H. apply orb_false_iff in H as [H1 H2]. rewrite H1. cbn. now rewrite IH.
Qed.

Lemma delete_insert_index {A} (o : list (jsstring * A)) i k v :
  has_key k o = false -> delete_property k (insert_index i k v o) = o.
Proof.
  induction o as [|[k0 v0] o IH]; cbn.
  - intros _. unfold delete_property. cbn. now rewrite bool_decide_eq_true_2.
  - intros H. pose proof H as H'. apply orb_false_iff in H as [H1 H2].
    assert (Hnew : delete_property k ((k, v) :: (k0, v0) :: o) = (k0, v0) :: o).
    { unfold delete_property at 1. cbn [List.filter fst].
      rewrite bool_decide_eq_true_2 by reflexivity. cbn [negb].
      apply (delete_property_absent ((k0, v0) :: o)). exact H'. }
    destruct (arrayIndex k0) as [j|]; [destruct (j <? i)|]; try exact Hnew.
    unfold delete_property. cbn [List.filter fst]. rewrite H1. cbn [negb].
    f_equal. now apply IH.
Qed.

(** Setting a new property and deleting it again gives the object back. *)
Lemma delete_set_property {A} (o : list (jsstring * A)) k v :
  has_key k o = false -> delete_property k (set_property k v o) = o.
Proof.
  intros H. unfold set_property. rewrite H. destruct (arrayIndex k).
  - now apply delete_insert_index.
  - unfold delete_property. rewrite List.filter_app. cbn.
    rewrite bool_decide_eq_true_2 by reflexivity. cbn. rewrite app_nil_r.
    now apply (delete_property_absent o).
Qed.
End EntriesFacts.

Section FuzzyScanFacts.
Import Builtins.

Lemma find_append {A} (f : A -> bool) (l1 l2 : list A) :
  find f (l1 ++ l2) = match find f l1 with Some x => Some x | None => find f l2 end.
Proof. induction l1 as [|x l1 IH]; cbn; [reflexivity|]. now destruct (f x). Qed.




End FuzzyScanFacts.

Section CatalogFacts.
Context {RT : Runtime}.
Import Builtins.


(** A SKU that is not a key and is the name of an inherited property
    resolves at the exact tier, to the inherited value. *)
Lemma matchSku_inherited (M : ProductMaster) (k : jsstring) :
  master_get M k = None -> inherited k = true ->
  exists c, master_get objectPrototype k = Some c /\ matchSku M (VStr k) = Ok (c, Exact).
Proof.
  intros Hg Hi. destruct (master_get objectPrototype k) as [c|] eqn:E.
  - exists c. split; [reflexivity|]. rewrite matchSku_string. unfold master_lookup.
    now rewrite Hg, E.
  - apply inherited_spec in E. congruence.
Qed.
End CatalogFacts.

(** X5.  [saveProduct] with an empty SKU leaves the product master as it
    is; with any other SKU, the master afterwards holds the data of the form
    under that SKU, holds under every other key what it held before, and a
    line item with that SKU resolves at the exact tier to the data of the
    form. *)
Theorem saveProduct_then_exact `{RT : Runtime}
    (M : ProductMaster) (editingSku : option jsstring) (form : Catalog.FormData) :
  (Catalog.sku form = [] ->
     Catalog.saveProduct M editingSku form = (M, Catalog.ToastError "SKU is required"))
  /\ (Catalog.sku form <> [] ->
        master_get (fst (Catalog.saveProduct M editingSku form)) (Catalog.sku form)
        = Some (Catalog.productData form)
        /\ (forall k, k <> Catalog.sku form ->
              master_get (fst (Catalog.saveProduct M editingSku form)) k = master_get M k)
        /\ matchSku (fst (Catalog.saveProduct M editingSku form)) (VStr (Catalog.sku form))
           = Ok (Catalog.productData form, Exact)).
Proof.
  unfold Catalog.saveProduct. destruct (Catalog.sku form) as [|c s] eqn:E.
  - split; [reflexivity | congruence].
  - split; [discriminate|]. intros _. cbn [truthy negb fst].
    assert (G : master_get (Builtins.set_property (c :: s) (Catalog.productData form) M)
                  (c :: s) = Some (Catalog.productData form)).
    { rewrite master_get_set_property. now rewrite decide_True. }
    split; [exact G|]. split.
    + intros k Hk. rewrite master_get_set_property. now rewrite decide_False by congruence.
    + now rewrite matchSku_string, (master_lookup_own _ _ _ G).
Qed.


(** X7.  [deleteProduct] changes nothing when the dialog is declined; when
    it is confirmed, the master afterwards has no entry under the SKU and holds
    under every other key what it held before.  A line item with that SKU then
    no longer resolves at the exact tier, unless the SKU is the name of a
    property that every object inherits: such a SKU resolves at the exact tier
    to the inherited value, before the deletion as after it. *)
Theorem deleteProduct_then_not_exact `{RT : Runtime} (M : ProductMaster) (k : jsstring) :
  Catalog.deleteProduct M false k = (M, None)
  /\ master_get (fst (Catalog.deleteProduct M true k)) k = None
  /\ (forall k', k' <> k ->
        master_get (fst (Catalog.deleteProduct M true k)) k' = master_get M k')
  /\ (inherited k = false ->
        exists (c : ProductConfig) (tier : MatchType),
          matchSku (fst (Catalog.deleteProduct M true k)) (VStr k) = Ok (c, tier)
          /\ tier <> Exact)
  /\ (inherited k = true ->
        exists c : ProductConfig,
          master_get objectPrototype k = Some c
          /\ matchSku (fst (Catalog.deleteProduct M true k)) (VStr k) = Ok (c, Exact)).
Proof.
  split; [reflexivity|]. cbn [Catalog.deleteProduct negb fst].
  assert (G : master_get (Builtins.delete_property k M) k = None).
  { rewrite master_get_delete_property. now rewrite decide_True. }
  split; [exact G|]. split; [|split].
  - intros k' Hk'. rewrite master_get_delete_property. now rewrite decide_False by congruence.
  - intros Hi. rewrite matchSku_string.
    rewrite (proj2 (master_lookup_None _ k) (conj G Hi)).
    destruct (master_get _ (normalized_string k));
      [eexists _, _; split; [reflexivity|discriminate]|].
    destruct (find _ _) as [[k0 c0]|]; eexists _, _; (split; [reflexivity|discriminate]).
  - intros Hi. now apply matchSku_inherited.
Qed.

(** X8.  Adding a product under a SKU the master does not hold and deleting
    it again gives back the master, entry for entry and in the same order. *)
Theorem saveProduct_deleteProduct
    (M : ProductMaster) (editingSku : option jsstring) (form : Catalog.FormData) :
  Catalog.sku form <> [] ->
  master_get M (Catalog.sku form) = None ->
  fst (Catalog.deleteProduct (fst (Catalog.saveProduct M editingSku form)) true
         (Catalog.sku form)) = M.
Proof.
  intros Hs Hg. unfold Catalog.saveProduct, Catalog.deleteProduct.
  destruct (Catalog.sku form) as [|c s] eqn:E; [congruence|]. cbn [truthy negb fst].
  apply delete_set_property. now apply has_key_master_get.
Qed.


Lemma saveProduct_deleteProduct_witness :
  Catalog.sku sampleForm <> []
  /\ master_get sampleMaster (Catalog.sku sampleForm) = None
  /\ fst (Catalog.deleteProduct (fst (Catalog.saveProduct sampleMaster None sampleForm))
            true (Catalog.sku sampleForm)) = sampleMaster.
Proof.
  assert (H1 : Catalog.sku sampleForm <> []) by discriminate.
  assert (H2 : master_get sampleMaster (Catalog.sku sampleForm) = None) by reflexivity.
  split; [exact H1|]. split; [exact H2|].
  exact (saveProduct_deleteProduct sampleMaster None sampleForm H1 H2).
Defined.

(** A key that is an array index goes before the other keys. *)
Example index_key_goes_first :
  map fst (fst (Catalog.saveProduct sampleMaster None sampleForm))
  = [lit "42"; lit "PROD-001"]
  /\ map fst (Builtins.set_property (lit "7") defaultBoxConfig
               (fst (Catalog.saveProduct sampleMaster None sampleForm)))
     = [lit "7"; lit "42"; lit "PROD-001"]
  /\ map fst (Builtins.set_property (lit "007") defaultBoxConfig
               (fst (Catalog.saveProduct sampleMaster None sampleForm)))
     = [lit "42"; lit "PROD-001"; lit "007"].
Proof. repeat split; vm_compute; reflexivity. Qed.

(** ** The history of the front end *)

Lemma In_take {A} (n : nat) (l : list A) (x : A) : In x (take n l) -> In x l.
Proof.
  revert n. induction l as [|y l IH]; intros [|n]; cbn; try tauto.
  intros [H|H]; [now left | right; eauto].
Qed.

Section HistoryFacts.
Context {Entry : Type} (invoice_number : Entry -> jsval).

Lemma distinct_numbers_take (n : nat) (history : list Entry) :
  distinct_numbers invoice_number history ->
  distinct_numbers invoice_number (take n history).
Proof.
  revert n. induction history as [|e history IH]; intros [|n]; cbn; try tauto.
  intros [H1 H2]. split; [|now apply IH].
  intros h Hh. apply H1. eapply In_take, Hh.
Qed.
End HistoryFacts.

(** X9.  [saveToHistory] leaves the history as it is when an entry has the
    invoice number of the new entry; otherwise the new entry comes first,
    followed by the first 49 entries of the history.  The history never gets
    longer than 50 entries by it, unless it was longer already; and a history
    in which no two entries have the same invoice number stays so. *)
Theorem saveToHistory_history {Entry : Type} (invoice_number : Entry -> jsval)
    (history : list Entry) (entry : Entry) :
  (existsb (fun h => Builtins.strict_eq (invoice_number h) (invoice_number entry)) history
   = true ->
   History.saveToHistory invoice_number history (Some entry) = history)
  /\ (existsb (fun h => Builtins.strict_eq (invoice_number h) (invoice_number entry)) history
      = false ->
      History.saveToHistory invoice_number history (Some entry) = entry :: take 49 history)
  /\ (length (History.saveToHistory invoice_number history (Some entry))
      <= Nat.max 50 (length history))%nat
  /\ (distinct_numbers invoice_number history ->
      distinct_numbers invoice_number
        (History.saveToHistory invoice_number history (Some entry))).
Proof.
  unfold History.saveToHistory.
  destruct (existsb _ history) eqn:E.
  - split; [reflexivity|]. split; [discriminate|]. split; [lia|]. tauto.
  - split; [discriminate|]. split; [reflexivity|]. split.
    + rewrite length_take. cbn [length]. lia.
    + intros H. change (take 50 (entry :: history)) with (entry :: take 49 history).
      cbn [distinct_numbers]. split; [|now apply distinct_numbers_take].
      intros h Hh. apply In_take in Hh.
      destruct (Builtins.strict_eq (invoice_number h) (invoice_number entry)) eqn:S;
        [|reflexivity].
      assert (X : existsb (fun h => Builtins.strict_eq (invoice_number h)
                                      (invoice_number entry)) history = true).
      { apply existsb_exists. eauto. }
      congruence.
Qed.

(** ** Exported files *)

Section ExportFacts.
Context {RT : Runtime}.

Lemma exportHistoryExcel_totals_fold (items : list obj) :
  History.exportHistoryExcel_totals items
  = fold_left excelStep items
      {| History.qty := VNum (ofZ 0); History.boxes := VNum (ofZ 0);
         History.weight := VNum (ofZ 0); History.value := VNum (ofZ 0) |}.
Proof. reflexivity. Qed.

Lemma exportHistoryCSV_totals_fold (items : list obj) :
  History.exportHistoryCSV_totals items
  = fold_left csvStep items (VNum (ofZ 0), VNum (ofZ 0), VNum (ofZ 0)).
Proof. reflexivity. Qed.

(** Adding [x || 0] for a finite number [x] to a sum that is not the
    negative zero is adding [x], and the new sum is not the negative zero. *)
Lemma js_or_zero_finite (a v : jsval) :
  not_negative_zero a = true -> is_finite v = true ->
  js_add a (js_or v (VNum (ofZ 0))) = js_add a v
  /\ not_negative_zero (js_add a v) = true.
Proof.
  intros Ha Hv. destruct a as [| |a|]; try discriminate.
  assert (Na : a <> NegZero) by (intros ->; discriminate).
  destruct v as [| |b|s]; try discriminate. cbn [is_finite] in Hv. split.
  - unfold js_or. cbn [truthy]. destruct b as [q H| | |]; try discriminate;
      cbn [truthy_num negb].
    + destruct (Z.eqb_spec (Qnum q) 0) as [E|_]; [|reflexivity]. cbn [negb].
      pose proof (double_zero q H E) as Eq0. clear Hv E. subst q.
      destruct ofZ_0 as [H0 ->]. now rewrite (Fin_eq 0 H0 H).
    + cbn [js_add ToNumber]. f_equal. now apply num_add_zeros.
  - cbn [js_add ToNumber not_negative_zero].
    pose proof (num_add_not_NegZero a b Na) as N. now destruct (num_add a b).
Qed.


(** The two reductions of the history exports keep the same first three
    sums. *)
Lemma csvStep_excelStep (items : list obj) (acc : History.ExcelTotals) :
  fold_left csvStep items (History.qty acc, History.boxes acc, History.weight acc)
  = (History.qty (fold_left excelStep items acc),
     History.boxes (fold_left excelStep items acc),
     History.weight (fold_left excelStep items acc)).
Proof.
  revert acc. induction items as [|item items IH]; intros acc; [reflexivity|].
  cbn [fold_left]. rewrite <- IH. reflexivity.
Qed.

Lemma excelStep_addItem (items : list obj) (accE : History.ExcelTotals) (accT : Totals) :
  Forall finite_item items ->
  not_negative_zero (quantity accT) = true -> not_negative_zero (boxes accT) = true ->
  not_negative_zero (weight accT) = true -> not_negative_zero (value accT) = true ->
  History.qty accE = quantity accT -> History.boxes accE = boxes accT ->
  History.weight accE = weight accT -> History.value accE = value accT ->
  History.qty (fold_left excelStep items accE) = quantity (fold_left addItem items accT)
  /\ History.boxes (fold_left excelStep items accE) = boxes (fold_left addItem items accT)
  /\ History.weight (fold_left excelStep items accE) = weight (fold_left addItem items accT)
  /\ History.value (fold_left excelStep items accE) = value (fold_left addItem items accT).
Proof.
  intros H. revert accE accT.
  induction H as [|item items (Hq & Hb & Hw & Hv) _ IH];
    intros accE accT N1 N2 N3 N4 E1 E2 E3 E4; [cbn; tauto|].
  destruct (js_or_zero_finite _ _ N1 Hq) as [Q1 Q2].
  destruct (js_or_zero_finite _ _ N2 Hb) as [B1 B2].
  destruct (js_or_zero_finite _ _ N3 Hw) as [W1 W2].
  destruct (js_or_zero_finite _ _ N4 Hv) as [V1 V2].
  cbn [fold_left]. apply IH; unfold excelStep, addItem;
    cbn [quantity boxes weight value History.qty History.boxes History.weight History.value];
    try assumption; congruence.
Qed.

End ExportFacts.

(** X10.  On processed items whose quantity, boxes, weight and value are
    finite numbers (the zeros of both signs among them), the totals the
    history exports compute are the totals of the report, field by field; and
    the CSV export has the first three of the four totals of the Excel export,
    for any items. *)
Theorem history_totals_agree `{RT : Runtime} (items : list obj) :
  Forall finite_item items ->
  History.qty (History.exportHistoryExcel_totals items) = quantity (totals items)
  /\ History.boxes (History.exportHistoryExcel_totals items) = boxes (totals items)
  /\ History.weight (History.exportHistoryExcel_totals items) = weight (totals items)
  /\ History.value (History.exportHistoryExcel_totals items) = value (totals items)
  /\ History.exportHistoryCSV_totals items
     = (History.qty (History.exportHistoryExcel_totals items),
        History.boxes (History.exportHistoryExcel_totals items),
        History.weight (History.exportHistoryExcel_totals items)).
Proof.
  intros H. rewrite exportHistoryCSV_totals_fold, exportHistoryExcel_totals_fold, totals_fold.
  destruct (excelStep_addItem items
              {| History.qty := VNum (ofZ 0); History.boxes := VNum (ofZ 0);
                 History.weight := VNum (ofZ 0); History.value := VNum (ofZ 0) |}
              zeroTotals H eq_refl eq_refl eq_refl eq_refl eq_refl eq_refl eq_refl eq_refl)
    as (E1 & E2 & E3 & E4).
  repeat (split; [assumption|]).
  apply (csvStep_excelStep items
           {| History.qty := VNum (ofZ 0); History.boxes := VNum (ofZ 0);
              History.weight := VNum (ofZ 0); History.value := VNum (ofZ 0) |}).
Qed.


(** With a pattern of one character, global replacement acts character by
    character, whatever the replacement. *)
Lemma replace_g_char g rep s :
  replace_g [g] rep s = flat_map (fun c => if g =? c then rep else [c]) s.
Proof.
  unfold replace_g. induction s as [|c s IH]; [reflexivity|].
  cbn [replace_from startsWith length Nat.sub flat_map].
  destruct (g =? c); cbn; now rewrite IH.
Qed.

Lemma replaceSlashes_no_slash s : ~ In 47 (History.replaceSlashes s).
Proof.
  unfold History.replaceSlashes. rewrite replace_g_single. intros H.
  apply in_map_iff in H as (c & Hc & _).
  destruct (47 =? c) eqn:E; [discriminate|]. apply N.eqb_neq in E. congruence.
Qed.

Lemma lit_Report_no_slash : ~ In 47 (lit "Report_").
Proof. cbn. intros H. repeat (destruct H as [H|H]; [discriminate|]). exact H. Qed.

(** X12.  The name of a downloaded report is [Report_], the invoice number
    with every slash replaced by an underscore, and the extension: when the
    extension has no slash, the name has none.  For an invoice number that is
    null the report of the current invoice throws, while the CSV export of the
    history is named [Report_undefined.csv]. *)
Theorem report_file_names `{RT : Runtime} (s ext : jsstring) :
  History.reportFileName (VStr s) ext
  = Ok (lit "Report_" ++ map (fun c => if 47 =? c then 95 else c) s ++ ext)
  /\ History.historyFileName (VStr s) = History.reportFileName (VStr s) (lit ".csv")
  /\ (forall name, History.historyFileName (VStr s) = Ok name -> ~ In 47 name)
  /\ (forall name, ~ In 47 ext ->
        History.reportFileName (VStr s) ext = Ok name -> ~ In 47 name)
  /\ History.reportFileName VNull ext = Throw TypeError
  /\ History.historyFileName VNull = Ok (lit "Report_undefined.csv").
Proof.
  assert (Hname : forall e, ~ In 47 e ->
            ~ In 47 (lit "Report_" ++ History.replaceSlashes s ++ e)).
  { intros e He H. apply in_app_or in H as [H|H]; [now apply lit_Report_no_slash|].
    apply in_app_or in H as [H|H]; [now apply (replaceSlashes_no_slash s) | auto]. }
  split; [unfold History.reportFileName, History.replaceSlashes;
          now rewrite replace_g_single|].
  split; [reflexivity|]. split.
  - intros name [= <-]. apply Hname. cbn. intros H.
    repeat (destruct H as [H|H]; [discriminate|]). exact H.
  - split; [|split; reflexivity].
    intros name He [= <-]. now apply Hname.
Qed.

(** ** The description column *)

Lemma unquote_body_escaped (s : jsstring) :
  unquote_body (flat_map (fun c => if 34 =? c then [34; 34] else [c]) s ++ [34]) = Some s.
Proof.
  induction s as [|c s IH]; [reflexivity|].
  cbn [flat_map]. destruct (34 =? c) eqn:E.
  - apply N.eqb_eq in E. subst c. cbn [app unquote_body]. rewrite !N.eqb_refl, IH.
    reflexivity.
  - cbn [app unquote_body]. rewrite N.eqb_sym, E, IH. reflexivity.
Qed.

(** X13.  The description column of the CSV files can be read back: it is
    the description between double quotes, with every double quote of the
    description doubled, so that reading the quoted field gives the
    description again; a description that is missing or null gives the empty
    quoted field, and one that is a number makes the export throw. *)
Theorem csvDescription_read_back `{RT : Runtime} (s : jsstring) :
  (exists field : jsstring,
      History.csvDescription (VStr s) = Ok field /\ csv_unquote field = Some s)
  /\ History.csvDescription VUndefined = Ok [34; 34]
  /\ History.csvDescription VNull = Ok [34; 34]
  /\ (forall n : number, History.csvDescription (VNum n) = Throw TypeError).
Proof.
  split; [|repeat split].
  unfold History.csvDescription. eexists. split; [reflexivity|].
  rewrite replace_g_char.
  assert (E : ToString (js_or (VStr (flat_map (fun c => if 34 =? c then [34; 34] else [c]) s))
                              (VStr []))
              = flat_map (fun c => if 34 =? c then [34; 34] else [c]) s).
  { unfold js_or. now destruct (flat_map _ s). }
  rewrite E. cbn [app csv_unquote]. rewrite N.eqb_refl. apply unquote_body_escaped.
Qed.

(** ** The back end *)

(** X14.  For a body that the JSON middleware lets through (an object or an
    array) and that is written to the file as it is: after a PUT of a product under a SKU other than [__proto__], or
    under a SKU the file has, the products read back hold the body under the
    SKU; a PUT under [__proto__], when the file has no such property, leaves
    the products as they are.  In both cases the other properties are as
    before.  After a DELETE the products hold nothing under the SKU and are
    otherwise as before, also when the file did not exist.  A later PUT under
    the same SKU replaces an earlier one, and a PUT under a new SKU followed
    by a DELETE gives the products back. *)
Theorem products_put_delete (sku : jsstring) (body body' : Server.json)
    (file : Backend.ProductsFile) :
  Backend.parsedBody body = true -> written_as_is body = true ->
  Backend.parsedBody body' = true -> written_as_is body' = true ->
  (sku <> lit "__proto__" \/ Backend.getProducts file !! sku <> None ->
     Backend.getProducts (Backend.putProduct sku body file) !! sku = Some body)
  /\ (sku = lit "__proto__" -> Backend.getProducts file !! sku = None ->
        Backend.getProducts (Backend.putProduct sku body file) = Backend.getProducts file)
  /\ (forall k, k <> sku ->
        Backend.getProducts (Backend.putProduct sku body file) !! k
        = Backend.getProducts file !! k)
  /\ Backend.getProducts (Backend.deleteProduct sku file) !! sku = None
  /\ (forall k, k <> sku ->
        Backend.getProducts (Backend.deleteProduct sku file) !! k
        = Backend.getProducts file !! k)
  /\ Backend.putProduct sku body' (Backend.putProduct sku body file)
     = Backend.putProduct sku body' file
  /\ (Backend.getProducts file !! sku = None ->
        Backend.getProducts (Backend.deleteProduct sku (Backend.putProduct sku body file))
        = Backend.getProducts file).
Proof.
  intros _ _ _ _.
  unfold Backend.putProduct, Backend.deleteProduct. cbn [Backend.getProducts].
  fold (Backend.getProducts file). set (products := Backend.getProducts file).
  unfold Backend.assignProduct.
  destruct (decide (sku = lit "__proto__")) as [E|E].
  - destruct (products !! sku) as [x|] eqn:L.
    + split; [intros _; apply lookup_insert_eq|]. split; [discriminate|].
      split; [intros k Hk; now apply lookup_insert_ne|].
      split; [apply lookup_delete_eq|]. split; [intros k Hk; now apply lookup_delete_ne|].
      split; [|discriminate].
      rewrite lookup_insert_eq. now rewrite insert_insert_eq.
    + split; [intros [H|H]; contradiction|]. split; [reflexivity|].
      split; [reflexivity|].
      split; [apply lookup_delete_eq|]. split; [intros k Hk; now apply lookup_delete_ne|].
      split; [now rewrite L|]. intros _. now apply delete_id.
  - split; [intros _; apply lookup_insert_eq|]. split; [contradiction|].
    split; [intros k Hk; now apply lookup_insert_ne|].
    split; [apply lookup_delete_eq|]. split; [intros k Hk; now apply lookup_delete_ne|].
    split; [now rewrite insert_insert_eq|].
    intros H. rewrite delete_insert_eq. now apply delete_id.
Qed.

Lemma find_split {A} (f : A -> bool) (l : list A) (x : A) :
  find f l = Some x ->
  exists before after,
    l = before ++ x :: after /\ f x = true /\ forall y, In y before -> f y = false.
Proof.
  induction l as [|y l IH]; [discriminate|]. cbn. destruct (f y) eqn:E.
  - intros [= <-]. exists [], l. repeat split; [exact E|]. intros z [].
  - intros H. destruct (IH H) as (b & a & -> & Hx & Hb).
    exists (y :: b), a. repeat split; [exact Hx|].
    intros z [<-|Hz]; [exact E | now apply Hb].
Qed.

Lemma id_is_true (n : number) (inv : Server.invoice) :
  Backend.id_is n inv = true <->
  exists m : number, inv !! "id" = Some (Server.JNum m) /\ num_eqb m n = true.
Proof.
  unfold Backend.id_is. destruct (inv !! "id") as [[| |m| | |]|];
    try (split; [discriminate | intros (z & H & H'); discriminate]).
  split; [eauto|]. now intros (z & [= ->] & H).
Qed.

Lemma num_eqb_NaN (m : number) : num_eqb m NaN = false.
Proof. now destruct m. Qed.

(** Two numbers that are [===] are the same number, or two zeros. *)
Lemma num_eqb_true (a b : number) :
  num_eqb a b = true -> a = b \/ (zero a = true /\ zero b = true).
Proof.
  destruct a as [x Hx| |s|], b as [y Hy| |t|]; try discriminate; cbn [num_eqb zero]; auto.
  - intros H. apply Qsame_spec in H. subst y. left. apply Fin_eq.
  - intros H. apply Bool.eqb_prop in H. subst t. now left.
Qed.

(** The stored list after a POST begins with the created invoice. *)
Lemma postInvoice_first_is_new now iso body file :
  exists l, fst (Server.postInvoice now iso body file)
            = Some (Server.newInvoice now iso body :: l).
Proof.
  unfold Server.postInvoice. cbn [fst].
  destruct (100 <? length _)%nat; [|eauto]. cbn [take]. eauto.
Qed.

(** X15.  A GET of [/api/invoices/:id] answers 404 when [parseInt] reads no
    number in the id, whatever the file holds; an invoice it returns is an
    invoice of the file whose [id] is a number that is [===] the number read
    (the same number, or both are zeros), and no invoice before it in the file
    has such an [id]; it answers 404 exactly when no invoice of the file has
    such an [id]. *)
Theorem getInvoice_by_id (id : jsstring) (file : Server.InvoiceFile) :
  (Builtins.parseInt id = NaN -> Backend.getInvoice id file = Backend.NotFound)
  /\ (forall inv, Backend.getInvoice id file = Backend.Found inv ->
        exists (m : number) (before after : list Server.invoice),
          Server.getInvoices file = before ++ inv :: after
          /\ inv !! "id" = Some (Server.JNum m)
          /\ Builtins.strict_eq (VNum m) (VNum (Builtins.parseInt id)) = true
          /\ (m = Builtins.parseInt id
              \/ (zero m = true /\ zero (Builtins.parseInt id) = true))
          /\ forall inv', In inv' before ->
               Backend.id_is (Builtins.parseInt id) inv' = false)
  /\ (Backend.getInvoice id file = Backend.NotFound <->
      forall inv, In inv (Server.getInvoices file) ->
        Backend.id_is (Builtins.parseInt id) inv = false).
Proof.
  unfold Backend.getInvoice. fold (Server.getInvoices file).
  destruct (find (Backend.id_is (Builtins.parseInt id)) (Server.getInvoices file))
    as [found|] eqn:F.
  - destruct (find_split _ _ _ F) as (b & a & E & Hf & Hb).
    apply id_is_true in Hf as (m & Hid & Hp).
    split; [|split].
    + intros HN. rewrite HN, num_eqb_NaN in Hp. discriminate.
    + intros inv [= <-]. exists m, b, a.
      split; [exact E|]. split; [exact Hid|]. split; [exact Hp|].
      split; [now apply num_eqb_true | exact Hb].
    + split; [discriminate|]. intros H. exfalso.
      pose proof (find_some _ _ F) as [Hin Ht]. rewrite (H _ Hin) in Ht. discriminate.
  - split; [reflexivity|]. split; [discriminate|]. split; [|reflexivity].
    intros _ inv Hin. exact (find_none _ _ F inv Hin).
Qed.

(** X16.  The invoice a POST creates takes its [id] from the body when the
    body has one, and from the clock otherwise; its [created_at] is always the
    time stamp of the server.  For a body that is written to the file as it
    is, a GET of [/api/invoices/:id] right after the POST, with an id that
    [parseInt] reads as a finite number [===] the [id] of the created invoice,
    returns that invoice: that is the time of the clock when the body has no
    [id], and the [id] of the body when it has one, whatever the clock says. *)
Theorem posted_invoice_is_found
    (now : number) (iso id : jsstring) (body : Server.invoice) (file : Server.InvoiceFile) :
  invoice_written_as_is body = true ->
  Server.newInvoice now iso body !! "created_at" = Some (Server.JStr iso)
  /\ (forall v, body !! "id" = Some v -> Server.newInvoice now iso body !! "id" = Some v)
  /\ (body !! "id" = None ->
        Server.newInvoice now iso body !! "id" = Some (Server.JNum now))
  /\ (forall (t : Q) (Ht : double t = true),
        Builtins.strict_eq (VNum (Fin t Ht)) (VNum (Builtins.parseInt id)) = true ->
        (body !! "id" = None -> now = Fin t Ht ->
           Backend.getInvoice id (fst (Server.postInvoice now iso body file))
           = Backend.Found (Server.newInvoice now iso body))
        /\ (body !! "id" = Some (Server.JNum (Fin t Ht)) ->
              Backend.getInvoice id (fst (Server.postInvoice now iso body file))
              = Backend.Found (Server.newInvoice now iso body))).
Proof.
  intros _.
  assert (Hbody : forall v, body !! "id" = Some v ->
            Server.newInvoice now iso body !! "id" = Some v).
  { intros v Hv. unfold Server.newInvoice. rewrite lookup_insert_ne by discriminate.
    now apply lookup_union_Some_l. }
  assert (Hclock : body !! "id" = None ->
            Server.newInvoice now iso body !! "id" = Some (Server.JNum now)).
  { intros Hn. unfold Server.newInvoice. rewrite lookup_insert_ne by discriminate.
    rewrite lookup_union_r by exact Hn. apply lookup_singleton_eq. }
  split; [apply lookup_insert_eq|]. split; [exact Hbody|]. split; [exact Hclock|].
  intros t Ht Heq.
  assert (Hget : Server.newInvoice now iso body !! "id" = Some (Server.JNum (Fin t Ht)) ->
            Backend.getInvoice id (fst (Server.postInvoice now iso body file))
            = Backend.Found (Server.newInvoice now iso body)).
  { intros Hid. destruct (postInvoice_first_is_new now iso body file) as (l & ->).
    unfold Backend.getInvoice. cbn [fst find].
    assert (T : Backend.id_is (Builtins.parseInt id) (Server.newInvoice now iso body)
                = true) by (apply id_is_true; eauto).
    now rewrite T. }
  split.
  - intros Hn E. apply Hget. rewrite (Hclock Hn). now rewrite E.
  - intros Hb. apply Hget, Hbody, Hb.
Qed.

Lemma take_app_take {A} (n : nat) (a b : list A) :
  take n (a ++ take n b) = take n (a ++ b).
Proof.
  rewrite !take_app. f_equal. rewrite take_take. f_equal. lia.
Qed.

Lemma getInvoices_postInvoice now iso body file :
  Server.getInvoices (fst (Server.postInvoice now iso body file))
  = take 100 (Server.newInvoice now iso body :: Server.getInvoices file).
Proof.
  unfold Server.postInvoice, Server.getInvoices. cbn [fst].
  destruct (100 <? length _)%nat eqn:L; [reflexivity|].
  apply Nat.ltb_ge in L. now rewrite take_ge.
Qed.

Lemma postAll_history requests file :
  requests <> [] \/ (length (Server.getInvoices file) <= 100)%nat ->
  Server.getInvoices (postAll requests file)
  = take 100 (rev (map created requests) ++ Server.getInvoices file).
Proof.
  revert file. induction requests as [|[[now iso] body] requests IH]; intros file H.
  - destruct H as [H|H]; [congruence|]. cbn. now rewrite take_ge.
  - cbn [postAll fold_left]. fold (postAll requests (fst (Server.postInvoice now iso body file))).
    rewrite IH.
    + rewrite getInvoices_postInvoice, take_app_take. cbn [map rev created].
      now rewrite <- app_assoc.
    + right. rewrite getInvoices_postInvoice, length_take. lia.
Qed.

(** X17.  After a series of POSTs to [/api/invoices] the history read back
    holds the created invoices, the last one first, followed by what the file
    held before, cut after 100 entries; posted to an empty history, the last
    100 invoices are kept, newest first. *)
Theorem posts_newest_first (requests : list (number * jsstring * Server.invoice))
    (file : Server.InvoiceFile) :
  requests <> [] ->
  Server.getInvoices (postAll requests file)
  = take 100 (rev (map created requests) ++ Server.getInvoices file)
  /\ Server.getInvoices (postAll requests None) = take 100 (rev (map created requests))
  /\ (length (Server.getInvoices (postAll requests file)) <= 100)%nat.
Proof.
  intros H. split; [apply postAll_history; now left|]. split.
  - rewrite postAll_history by now left. cbn. now rewrite app_nil_r.
  - rewrite postAll_history by now left. rewrite length_take. lia.
Qed.

(** ** Products read from the database *)

Lemma assignRow_entries (data : list Api.ProductRow) (acc : Api.Products) k :
  k <> lit "__proto__" ->
  master_get (Api.entries (fold_left Api.assignRow data acc)) k
  = match find (fun p => bool_decide (Api.sku p = k)) (rev data) with
    | Some p => Some (Api.rowConfig p)
    | None => master_get (Api.entries acc) k
    end.
Proof.
  intros Hk. revert acc. induction data as [|p data IH]; intros acc; [reflexivity|].
  cbn [fold_left rev]. rewrite IH, find_append.
  destruct (find _ (rev data)); [reflexivity|]. cbn [find].
  unfold Api.assignRow. destruct (decide (Api.sku p = lit "__proto__")) as [E|E].
  - cbn [Api.entries]. rewrite bool_decide_eq_false_2 by congruence. reflexivity.
  - cbn [Api.entries]. rewrite master_get_set_property.
    destruct (decide (Api.sku p = k)) as [E'|E'].
    + now rewrite bool_decide_eq_true_2.
    + now rewrite bool_decide_eq_false_2.
Qed.

Lemma assignRow_no_proto (data : list Api.ProductRow) (acc : Api.Products) :
  master_get (Api.entries acc) (lit "__proto__") = None ->
  master_get (Api.entries (fold_left Api.assignRow data acc)) (lit "__proto__") = None.
Proof.
  revert acc. induction data as [|p data IH]; intros acc H; [exact H|].
  cbn [fold_left]. apply IH. unfold Api.assignRow.
  destruct (decide (Api.sku p = lit "__proto__")) as [E|E]; [exact H|].
  cbn [Api.entries]. rewrite master_get_set_property. now rewrite decide_False.
Qed.

Lemma assignRow_prototype (data : list Api.ProductRow) (acc : Api.Products) :
  Api.prototype (fold_left Api.assignRow data acc)
  = match find (fun p => bool_decide (Api.sku p = lit "__proto__")) (rev data) with
    | Some p => Some (Api.rowConfig p)
    | None => Api.prototype acc
    end.
Proof.
  revert acc. induction data as [|p data IH]; intros acc; [reflexivity|].
  cbn [fold_left rev]. rewrite IH, find_append.
  destruct (find _ (rev data)); [reflexivity|]. cbn [find].
  unfold Api.assignRow. destruct (decide (Api.sku p = lit "__proto__")) as [E|E].
  - now rewrite bool_decide_eq_true_2.
  - now rewrite bool_decide_eq_false_2.
Qed.

(** X18.  The object [getProducts] builds from the rows of the database
    has, under a SKU other than [__proto__], the data of the last row with
    that SKU, and no property under a SKU no row has.  A row whose SKU is
    [__proto__] creates no property: the data of the last such row become the
    prototype of the object.  When no row has that SKU, the prototype is the
    one of every object; reading the object under a key then gives the data of
    the last row with that key, or else what every object inherits under it,
    and a line item whose SKU some row has resolves at the exact tier to the
    data of the last such row. *)
Theorem getProducts_last_row `{RT : Runtime} (data : list Api.ProductRow) (k : jsstring) :
  (k <> lit "__proto__" ->
     master_get (Api.entries (Api.getProducts_reduce data)) k
     = option_map Api.rowConfig (find (fun p => bool_decide (Api.sku p = k)) (rev data)))
  /\ master_get (Api.entries (Api.getProducts_reduce data)) (lit "__proto__") = None
  /\ Api.prototype (Api.getProducts_reduce data)
     = option_map Api.rowConfig
         (find (fun p => bool_decide (Api.sku p = lit "__proto__")) (rev data))
  /\ ((forall p, In p data -> Api.sku p <> k) ->
        master_get (Api.entries (Api.getProducts_reduce data)) k = None)
  /\ ((forall p, In p data -> Api.sku p <> lit "__proto__") ->
        Api.prototype (Api.getProducts_reduce data) = None
        /\ master_lookup (Api.entries (Api.getProducts_reduce data)) k
           = match find (fun p => bool_decide (Api.sku p = k)) (rev data) with
             | Some p => Some (Api.rowConfig p)
             | None => master_get objectPrototype k
             end
        /\ (forall p, find (fun p => bool_decide (Api.sku p = k)) (rev data) = Some p ->
              matchSku (Api.entries (Api.getProducts_reduce data)) (VStr k)
              = Ok (Api.rowConfig p, Exact))).
Proof.
  assert (E : k <> lit "__proto__" ->
              master_get (Api.entries (Api.getProducts_reduce data)) k
              = option_map Api.rowConfig
                  (find (fun p => bool_decide (Api.sku p = k)) (rev data))).
  { intros Hk. unfold Api.getProducts_reduce. rewrite assignRow_entries by exact Hk.
    now destruct (find _ (rev data)). }
  assert (P : master_get (Api.entries (Api.getProducts_reduce data)) (lit "__proto__") = None)
    by (now apply assignRow_no_proto).
  assert (Q : Api.prototype (Api.getProducts_reduce data)
              = option_map Api.rowConfig
                  (find (fun p => bool_decide (Api.sku p = lit "__proto__")) (rev data))).
  { unfold Api.getProducts_reduce. rewrite assignRow_prototype.
    now destruct (find _ (rev data)). }
  assert (N : forall k', (forall p, In p data -> Api.sku p <> k') ->
              find (fun p => bool_decide (Api.sku p = k')) (rev data) = None).
  { clear. intros k' H.
    destruct (find (fun p => bool_decide (Api.sku p = k')) (rev data)) as [p|] eqn:F;
      [|reflexivity].
    apply find_some in F as [Hin Hk]. apply bool_decide_eq_true in Hk.
    apply in_rev in Hin. now apply H in Hin. }
  split; [exact E|]. split; [exact P|]. split; [exact Q|]. split.
  - intros H. destruct (decide (k = lit "__proto__")) as [->|Hk]; [exact P|].
    now rewrite (E Hk), (N k H).
  - intros H.
    assert (L : master_lookup (Api.entries (Api.getProducts_reduce data)) k
                = match find (fun p => bool_decide (Api.sku p = k)) (rev data) with
                  | Some p => Some (Api.rowConfig p)
                  | None => master_get objectPrototype k
                  end).
    { unfold master_lookup. destruct (decide (k = lit "__proto__")) as [->|Hk].
      - now rewrite P, (N _ H).
      - rewrite (E Hk). now destruct (find _ (rev data)). }
    split; [now rewrite Q, (N _ H)|]. split; [exact L|].
    intros p F. now rewrite matchSku_string, L, F.
Qed.

(** ** The further statements at concrete inputs *)

Lemma history_totals_agree_witness :
  Forall finite_item [processedSample; processedSample]
  /\ History.qty (History.exportHistoryExcel_totals (RT := exampleRuntime)
                    [processedSample; processedSample])
     = quantity (totals (RT := exampleRuntime) [processedSample; processedSample])
  /\ History.boxes (History.exportHistoryExcel_totals (RT := exampleRuntime)
                      [processedSample; processedSample])
     = boxes (totals (RT := exampleRuntime) [processedSample; processedSample])
  /\ History.weight (History.exportHistoryExcel_totals (RT := exampleRuntime)
                       [processedSample; processedSample])
     = weight (totals (RT := exampleRuntime) [processedSample; processedSample])
  /\ History.value (History.exportHistoryExcel_totals (RT := exampleRuntime)
                      [processedSample; processedSample])
     = value (totals (RT := exampleRuntime) [processedSample; processedSample])
  /\ History.exportHistoryCSV_totals (RT := exampleRuntime)
       [processedSample; processedSample]
     = (History.qty (History.exportHistoryExcel_totals (RT := exampleRuntime)
                       [processedSample; processedSample]),
        History.boxes (History.exportHistoryExcel_totals (RT := exampleRuntime)
                         [processedSample; processedSample]),
        History.weight (History.exportHistoryExcel_totals (RT := exampleRuntime)
                          [processedSample; processedSample])).
Proof.
  assert (F : finite_item processedSample) by (repeat split).
  assert (H : Forall finite_item [processedSample; processedSample])
    by (repeat constructor; exact F).
  split; [exact H|].
  exact (history_totals_agree (RT := exampleRuntime) [processedSample; processedSample] H).
Defined.


Lemma posts_newest_first_witness :
  sampleRequests <> []
  /\ Server.getInvoices (postAll sampleRequests None)
     = take 100 (rev (map created sampleRequests) ++ Server.getInvoices None)
  /\ Server.getInvoices (postAll sampleRequests None)
     = take 100 (rev (map created sampleRequests))
  /\ (length (Server.getInvoices (postAll sampleRequests None)) <= 100)%nat.
Proof.
  assert (H : sampleRequests <> []) by discriminate.
  split; [exact H | exact (posts_newest_first sampleRequests None H)].
Defined.

(** [parseInt] reads a leading number and stops at the first other
    character; without a digit it gives [NaN].  What it gives is a double: an
    integer above [2^53] is rounded, a zero after a minus sign is the negative
    zero, and 400 digits make an infinity. *)
Example parseInt_samples :
  Builtins.parseInt (lit "42") = ofZ 42
  /\ Builtins.parseInt (lit "  -17abc") = ofZ (-17)
  /\ Builtins.parseInt (lit "0x1F") = ofZ 31
  /\ Builtins.parseInt (lit "12.9") = ofZ 12
  /\ Builtins.parseInt (lit "abc") = NaN
  /\ Builtins.parseInt [] = NaN
  /\ Builtins.parseInt (lit "9007199254740993") = ofZ 9007199254740992
  /\ Builtins.parseInt (lit "-0") = NegZero
  /\ Builtins.parseInt (concat (repeat (lit "9999999999") 40)) = Inf false.
Proof. repeat split; vm_compute; reflexivity. Qed.

(** An id followed by other text finds the invoice of the leading number;
    an id that is not a number finds nothing. *)
Example getInvoice_samples :
  Backend.getInvoice (lit "1abc") (postAll sampleRequests None)
  = Backend.Found (Server.newInvoice (ofZ 1) (lit "t1") sampleBody)
  /\ Backend.getInvoice (lit "x1") (postAll sampleRequests None) = Backend.NotFound
  /\ Backend.getInvoice (lit "3") (postAll sampleRequests None) = Backend.NotFound.
Proof. repeat split; vm_compute; reflexivity. Qed.

(** The history keeps one entry for an invoice number. *)
Example saveToHistory_samples :
  History.saveToHistory (fun n : jsval => n) [VStr (lit "A"); VStr (lit "B")]
    (Some (VStr (lit "B"))) = [VStr (lit "A"); VStr (lit "B")]
  /\ History.saveToHistory (fun n : jsval => n) [VStr (lit "A"); VStr (lit "B")]
       (Some (VStr (lit "C"))) = [VStr (lit "C"); VStr (lit "A"); VStr (lit "B")]
  /\ History.saveToHistory (fun n : jsval => n) [VNum NaN] (Some (VNum NaN))
     = [VNum NaN; VNum NaN]
  /\ History.saveToHistory (fun n : jsval => n) [VNum (ofZ 0)] (Some (VNum NegZero))
     = [VNum (ofZ 0)].
Proof. repeat split; vm_compute; reflexivity. Qed.

(** A description with a quote and a comma, as the CSV export writes it. *)
Example csvDescription_sample :
  History.csvDescription (RT := exampleRuntime) (VStr ([83; 34; 44; 120]))
  = Ok [34; 83; 34; 34; 44; 120; 34].
Proof. vm_compute. reflexivity. Qed.

(** Two quantities near the largest double: the totals of the history
    export are infinite. *)
Example history_totals_overflow :
  History.qty (History.exportHistoryExcel_totals (RT := exampleRuntime)
                 [ {["quantity" := VNum (ofZ (10 ^ 308))]};
                   {["quantity" := VNum (ofZ (10 ^ 308))]} ])
  = VNum (Inf false).
Proof. vm_compute. reflexivity. Qed.

(** A row whose SKU is [__proto__] leaves no property behind. *)
Example getProducts_proto_row :
  Api.entries (Api.getProducts_reduce [sampleRow 50; protoRow])
  = [(lit "PROD-001", Api.rowConfig (sampleRow 50))]
  /\ Api.prototype (Api.getProducts_reduce [sampleRow 50; protoRow])
     = Some (Api.rowConfig protoRow).
Proof. split; vm_compute; reflexivity. Qed.

(** ** The branches of the further statements at concrete inputs *)

Lemma saveProduct_then_exact_witness :
  Catalog.sku sampleForm <> []
  /\ master_get (fst (Catalog.saveProduct sampleMaster None sampleForm))
       (Catalog.sku sampleForm) = Some (Catalog.productData sampleForm)
  /\ matchSku (RT := exampleRuntime)
       (fst (Catalog.saveProduct sampleMaster None sampleForm))
       (VStr (Catalog.sku sampleForm))
     = Ok (Catalog.productData sampleForm, Exact).
Proof.
  assert (H : Catalog.sku sampleForm <> []) by discriminate.
  split; [exact H|].
  destruct (saveProduct_then_exact (RT := exampleRuntime) sampleMaster None sampleForm)
    as [_ S].
  destruct (S H) as [S1 [_ S3]]. split; [exact S1 | exact S3].
Defined.

Lemma deleteProduct_then_not_exact_witness :
  inherited (lit "42") = false
  /\ exists (c : ProductConfig) (tier : MatchType),
       matchSku (RT := exampleRuntime)
         (fst (Catalog.deleteProduct (fst (Catalog.saveProduct sampleMaster None sampleForm))
                 true (lit "42")))
         (VStr (lit "42")) = Ok (c, tier)
       /\ tier <> Exact.
Proof.
  assert (H : inherited (lit "42") = false) by reflexivity.
  split; [exact H|].
  destruct (deleteProduct_then_not_exact (RT := exampleRuntime)
              (fst (Catalog.saveProduct sampleMaster None sampleForm)) (lit "42"))
    as [_ [_ [_ [D _]]]].
  exact (D H).
Defined.

Lemma saveToHistory_history_witness :
  existsb (fun h => Builtins.strict_eq h (VStr (lit "B"))) [VStr (lit "A"); VStr (lit "B")]
  = true
  /\ existsb (fun h => Builtins.strict_eq h (VStr (lit "C"))) [VStr (lit "A"); VStr (lit "B")]
     = false
  /\ distinct_numbers (fun n : jsval => n) [VStr (lit "A"); VStr (lit "B")]
  /\ History.saveToHistory (fun n : jsval => n) [VStr (lit "A"); VStr (lit "B")]
       (Some (VStr (lit "B"))) = [VStr (lit "A"); VStr (lit "B")]
  /\ History.saveToHistory (fun n : jsval => n) [VStr (lit "A"); VStr (lit "B")]
       (Some (VStr (lit "C"))) = VStr (lit "C") :: take 49 [VStr (lit "A"); VStr (lit "B")]
  /\ distinct_numbers (fun n : jsval => n)
       (History.saveToHistory (fun n : jsval => n) [VStr (lit "A"); VStr (lit "B")]
          (Some (VStr (lit "C")))).
Proof.
  assert (H1 : existsb (fun h => Builtins.strict_eq h (VStr (lit "B")))
                 [VStr (lit "A"); VStr (lit "B")] = true) by (vm_compute; reflexivity).
  assert (H2 : existsb (fun h => Builtins.strict_eq h (VStr (lit "C")))
                 [VStr (lit "A"); VStr (lit "B")] = false) by (vm_compute; reflexivity).
  assert (H3 : distinct_numbers (fun n : jsval => n) [VStr (lit "A"); VStr (lit "B")]).
  { split; [|split; [intros h []|exact I]].
    intros h [<-|[]]. vm_compute. reflexivity. }
  split; [exact H1|]. split; [exact H2|]. split; [exact H3|].
  destruct (saveToHistory_history (fun n : jsval => n) [VStr (lit "A"); VStr (lit "B")]
              (VStr (lit "B"))) as [S1 _].
  destruct (saveToHistory_history (fun n : jsval => n) [VStr (lit "A"); VStr (lit "B")]
              (VStr (lit "C"))) as [_ [S2 [_ S4]]].
  split; [exact (S1 H1)|]. split; [exact (S2 H2) | exact (S4 H3)].
Defined.

Lemma report_file_names_witness :
  ~ In 47 (lit ".pdf")
  /\ History.reportFileName (VStr (lit "INV/24/001")) (lit ".pdf")
     = Ok (lit "Report_INV_24_001.pdf")
  /\ ~ In 47 (lit "Report_INV_24_001.pdf").
Proof.
  assert (H1 : ~ In 47 (lit ".pdf")).
  { intros H. vm_compute in H. repeat destruct H as [H|H]; try discriminate H; exact H. }
  assert (H2 : History.reportFileName (VStr (lit "INV/24/001")) (lit ".pdf")
               = Ok (lit "Report_INV_24_001.pdf")) by (vm_compute; reflexivity).
  split; [exact H1|]. split; [exact H2|].
  destruct (report_file_names (RT := exampleRuntime) (lit "INV/24/001") (lit ".pdf"))
    as [_ [_ [_ [S _]]]].
  exact (S (lit "Report_INV_24_001.pdf") H1 H2).
Defined.

Lemma products_put_delete_witness :
  Backend.parsedBody sampleProduct = true
  /\ written_as_is sampleProduct = true
  /\ (lit "42" <> lit "__proto__" \/ Backend.getProducts None !! lit "42" <> None)
  /\ Backend.getProducts None !! lit "42" = None
  /\ Backend.getProducts (Backend.putProduct (lit "42") sampleProduct None) !! lit "42"
     = Some sampleProduct
  /\ Backend.getProducts
       (Backend.deleteProduct (lit "42") (Backend.putProduct (lit "42") sampleProduct None))
     = Backend.getProducts None.
Proof.
  assert (B : Backend.parsedBody sampleProduct = true) by reflexivity.
  assert (W : written_as_is sampleProduct = true) by reflexivity.
  assert (K : lit "42" <> lit "__proto__" \/ Backend.getProducts None !! lit "42" <> None)
    by (left; discriminate).
  assert (H : Backend.getProducts None !! lit "42" = None) by reflexivity.
  split; [exact B|]. split; [exact W|]. split; [exact K|]. split; [exact H|].
  destruct (products_put_delete (lit "42") sampleProduct sampleProduct None B W B W)
    as [P [_ [_ [_ [_ [_ S]]]]]].
  split; [exact (P K) | exact (S H)].
Defined.

Lemma getInvoice_by_id_witness :
  Builtins.parseInt (lit "x1") = NaN
  /\ Backend.getInvoice (lit "x1") (postAll sampleRequests None) = Backend.NotFound.
Proof.
  assert (H : Builtins.parseInt (lit "x1") = NaN) by (vm_compute; reflexivity).
  split; [exact H|].
  destruct (getInvoice_by_id (lit "x1") (postAll sampleRequests None)) as [S _].
  exact (S H).
Defined.

Lemma posted_invoice_is_found_witness :
  invoice_written_as_is bodyWithId = true
  /\ Builtins.strict_eq (VNum (ofZ 7)) (VNum (Builtins.parseInt (lit "7"))) = true
  /\ bodyWithId !! "id" = Some (Server.JNum (ofZ 7))
  /\ Backend.getInvoice (lit "7")
       (fst (Server.postInvoice (ofZ 1700000000000) (lit "t") bodyWithId None))
     = Backend.Found (Server.newInvoice (ofZ 1700000000000) (lit "t") bodyWithId).
Proof.
  assert (H1 : Builtins.strict_eq (VNum (ofZ 7)) (VNum (Builtins.parseInt (lit "7"))) = true)
    by (vm_compute; reflexivity).
  assert (H2 : bodyWithId !! "id" = Some (Server.JNum (ofZ 7))) by reflexivity.
  assert (W : invoice_written_as_is bodyWithId = true) by (vm_compute; reflexivity).
  split; [exact W|]. split; [exact H1|]. split; [exact H2|].
  destruct (posted_invoice_is_found (ofZ 1700000000000) (lit "t") (lit "7") bodyWithId None W)
    as [_ [_ [_ S]]].
  destruct (S 7%Q eq_refl H1) as [_ S2].
  exact (S2 H2).
Defined.

Lemma getProducts_last_row_witness :
  (forall p, In p sampleRows -> Api.sku p <> lit "__proto__")
  /\ find (fun p => bool_decide (Api.sku p = lit "PROD-001")) (rev sampleRows)
     = Some (sampleRow 60)
  /\ matchSku (RT := exampleRuntime) (Api.entries (Api.getProducts_reduce sampleRows))
       (VStr (lit "PROD-001"))
     = Ok (Api.rowConfig (sampleRow 60), Exact).
Proof.
  assert (N : forall p, In p sampleRows -> Api.sku p <> lit "__proto__").
  { intros p [<-|[<-|[]]]; discriminate. }
  assert (H : find (fun p => bool_decide (Api.sku p = lit "PROD-001")) (rev sampleRows)
              = Some (sampleRow 60)) by reflexivity.
  split; [exact N|]. split; [exact H|].
  destruct (getProducts_last_row (RT := exampleRuntime) sampleRows (lit "PROD-001"))
    as [_ [_ [_ [_ S]]]].
  destruct (S N) as [_ [_ S3]].
  exact (S3 (sampleRow 60) H).
Defined.
